(** * Neko Signal: the signal decision pipeline, embedded and verified

    A shallow embedding of the four core modules of the repository

      - [state_manager.py]   the per-pair lifecycle registry,
      - [logic_filters.py]   the anti-wash-trading quality gate,
      - [scoring_engine.py]  the five-vote directional score,
      - [risk_manager.py]    the liquidity-anchored TP/SL calculator,

    followed by the properties the specification states about them.

    Conventions of the embedding

      - A Python [float] is an exact rational ([Q]); [NaN] is the [None] of
        [option Q], and every comparison against [NaN] is [false], as in
        IEEE 754.  The input columns of a DataFrame hold no [NaN].
      - A DataFrame is the list of its rows (oldest first).
      - A Python [dict] with string keys is a [gmap string V].
      - A function that can raise returns in the [res] monad; a method that
        mutates [self] returns the new [StateManager].
      - Log lines are events appended to the [log] field of the manager, so
        that the reason of an unlock can be observed. *)

From Stdlib Require Import QArith Qround Qabs Qminmax Lqa ZArith Lia.
From stdpp Require Import gmap strings list fin_maps.
From Stdlib Require Import Sorted Ascii.
From stdpp Require Import pretty.

Local Open Scope string_scope.

(** ** Python exceptions and the result monad *)

(** The exceptions the four modules can raise.  [Unmodelled] marks the two
    corners of numpy the embedding gives no value to (an all-[NaN] bin range
    and the percentile of an empty array); a theorem that shows [Ok] shows
    that neither is reached. *)
Inductive PyExn : Type :=
| IndexError
| KeyError
| ZeroDivisionError
| ValueError
| Unmodelled.

Inductive res (A : Type) : Type :=
| Ok (a : A)
| Raise (e : PyExn).

Arguments Ok {A} a.
Arguments Raise {A} e.

#[export] Instance res_ret : MRet res := fun A a => Ok a.

#[export] Instance res_bind : MBind res := fun A B k m =>
  match m with
  | Ok a => k a
  | Raise e => Raise e
  end.

(** ** Floats

    [float] values that can be [NaN] are [option Q]; the comparisons below
    are [false] as soon as one side is [NaN]. *)

Definition Qlt_bool (x y : Q) : bool := negb (Qle_bool y x).

Definition nan_lt (a b : option Q) : bool :=
  match a, b with
  | Some x, Some y => Qlt_bool x y
  | _, _ => false
  end.

Definition nan_le (a b : option Q) : bool :=
  match a, b with
  | Some x, Some y => Qle_bool x y
  | _, _ => false
  end.

Definition nan_sub (a b : option Q) : option Q :=
  match a, b with
  | Some x, Some y => Some (x - y)%Q
  | _, _ => None
  end.

Definition nan_add (a b : option Q) : option Q :=
  match a, b with
  | Some x, Some y => Some (x + y)%Q
  | _, _ => None
  end.

Definition nan_abs (a : option Q) : option Q :=
  match a with
  | Some x => Some (Qabs x)
  | None => None
  end.

(** [x / y] on Python floats: a zero divisor raises, whatever [x] is. *)
Definition py_div (x y : Q) : res Q :=
  if Qeq_bool y 0 then Raise ZeroDivisionError else Ok (x / y)%Q.

Definition nan_div (a b : option Q) : res (option Q) :=
  match b with
  | Some y =>
      if Qeq_bool y 0 then Raise ZeroDivisionError
      else Ok (match a with Some x => Some (x / y)%Q | None => None end)
  | None => Ok None
  end.

(** [round(x)] to the nearest integer, ties to the even one. *)
Definition round_half_even (x : Q) : Z :=
  let f := Qfloor x in
  match (x - inject_Z f ?= 1 # 2)%Q with
  | Lt => f
  | Gt => (f + 1)%Z
  | Eq => if Z.even f then f else (f + 1)%Z
  end.

(** [round(x, ndigits)] *)
Definition py_round (x : Q) (ndigits : nat) : Q :=
  (inject_Z (round_half_even (x * inject_Z (10 ^ Z.of_nat ndigits)))
   / inject_Z (10 ^ Z.of_nat ndigits))%Q.

Definition nan_round (a : option Q) (ndigits : nat) : option Q :=
  match a with
  | Some x => Some (py_round x ndigits)
  | None => None
  end.

(** ** Python indexing *)

(** A negative index counts from the end. *)
Definition py_index (n : nat) (i : Z) : Z :=
  if (i <? 0)%Z then (Z.of_nat n + i)%Z else i.

(** [xs.iloc[i]] (and [xs[i]]): out of range raises. *)
Definition iloc {A : Type} (xs : list A) (i : Z) : res A :=
  let j := py_index (length xs) i in
  if (j <? 0)%Z then Raise IndexError
  else match xs !! Z.to_nat j with
       | Some x => Ok x
       | None => Raise IndexError
       end.

(** A slice bound is clamped into [0 .. n]. *)
Definition py_bound (n : nat) (i : Z) : nat :=
  Z.to_nat (Z.min (Z.max 0 (py_index n i)) (Z.of_nat n)).

(** [xs.iloc[start:stop]]; [stop = None] is [xs.iloc[start:]]. *)
Definition iloc_slice {A : Type} (xs : list A) (start : Z) (stop : option Z)
  : list A :=
  let n := length xs in
  let a := py_bound n start in
  let b := match stop with Some e => py_bound n e | None => n end in
  take (b - a) (drop a xs).

(** ** pandas *)

Definition Qsum (xs : list Q) : Q := foldr Qplus 0%Q xs.

(** [Series.max()] and [Series.min()]: [NaN] on an empty series. *)
Definition col_max (xs : list Q) : option Q :=
  match xs with
  | [] => None
  | x :: rest => Some (foldl Qmax x rest)
  end.

Definition col_min (xs : list Q) : option Q :=
  match xs with
  | [] => None
  | x :: rest => Some (foldl Qmin x rest)
  end.

Fixpoint cumsum_from (acc : Q) (xs : list Q) : list Q :=
  match xs with
  | [] => []
  | x :: rest => (acc + x)%Q :: cumsum_from (acc + x)%Q rest
  end.

(** [Series.cumsum()] *)
Definition cumsum (xs : list Q) : list Q := cumsum_from 0%Q xs.

(** The windows of [Series.rolling(window)]: the one ending at row [i] holds
    the rows [max(0, i - window + 1) .. i]. *)
Definition rolling_windows {A : Type} (window : nat) (xs : list A)
  : list (list A) :=
  map (fun i => drop (S i - window) (take (S i) xs)) (seq 0 (length xs)).

(** The non-[NaN] observations of a window. *)
Definition observations (win : list (option Q)) : list Q := omap id win.

(** [Series.rolling(window, min_periods=min_periods).mean()]: [NaN] where
    the window holds fewer than [min_periods] observations; pandas refuses
    [min_periods > window]. *)
Definition rolling_mean (window min_periods : nat) (xs : list (option Q))
  : res (list (option Q)) :=
  if (window <? min_periods)%nat then Raise ValueError
  else Ok (map (fun win =>
                  let obs := observations win in
                  let n := length obs in
                  if (min_periods <=? n)%nat && (0 <? n)%nat
                  then Some (Qsum obs / inject_Z (Z.of_nat n))%Q
                  else None)
               (rolling_windows window xs)).

(** [Series.rolling(window, min_periods=min_periods).sum()] *)
Definition rolling_sum (window min_periods : nat) (xs : list (option Q))
  : res (list (option Q)) :=
  if (window <? min_periods)%nat then Raise ValueError
  else Ok (map (fun win =>
                  let obs := observations win in
                  if (min_periods <=? length obs)%nat
                  then Some (Qsum obs)
                  else None)
               (rolling_windows window xs)).

(** ** numpy *)

(** [np.linspace(start, stop, num)]: [num - 1] equal steps, the last sample
    set to [stop] itself. *)
Definition np_linspace (start stop : Q) (num : nat) : list Q :=
  match num with
  | O => []
  | S O => [start]
  | S div =>
      let step := ((stop - start) / inject_Z (Z.of_nat div))%Q in
      map (fun i => (start + inject_Z (Z.of_nat i) * step)%Q) (seq 0 div)
      ++ [stop]
  end.

(** [np.digitize(x, bins)] for increasing [bins]: how many edges are [<= x]. *)
Definition np_digitize (x : Q) (bins : list Q) : nat :=
  length (List.filter (fun e => Qle_bool e x) bins).

(** [np.clip(i, lo, hi)] on an integer: [minimum(maximum(i, lo), hi)]. *)
Definition np_clip (i lo hi : Z) : Z := Z.min (Z.max i lo) hi.

(** [np.add.at(bins, indices, values)]: unbuffered [bins[i] += v]. *)
Definition np_add_at (bins : list Q) (indices : list nat) (values : list Q)
  : list Q :=
  foldl (fun b iv => alter (fun x => (x + iv.2)%Q) iv.1 b) bins
        (zip indices values).

Fixpoint sort_insert (x : Q) (xs : list Q) : list Q :=
  match xs with
  | [] => [x]
  | y :: rest => if Qle_bool x y then x :: xs else y :: sort_insert x rest
  end.

(** [np.sort(a)] *)
Definition np_sort (a : list Q) : list Q := foldr sort_insert [] a.

(** [np.percentile(a, q)], linear interpolation between the two closest
    ranks of the whole sorted array; [q] outside [0, 100] raises. *)
Definition np_percentile (a : list Q) (q : Q) : res Q :=
  if Qlt_bool q 0 || Qlt_bool 100 q then Raise ValueError
  else match np_sort a with
       | [] => Raise Unmodelled
       | (s0 :: _) as s =>
           let n := length s in
           let virtual_index := (q / 100 * inject_Z (Z.of_nat (n - 1)))%Q in
           let previous := Z.to_nat (Qfloor virtual_index) in
           let next := Nat.min (S previous) (n - 1) in
           let gamma := (virtual_index - inject_Z (Qfloor virtual_index))%Q in
           let lo := nth previous s s0 in
           let hi := nth next s s0 in
           Ok (lo + (hi - lo) * gamma)%Q
       end.

(** [np.argmin(a)]: the first index of the minimum. *)
Fixpoint np_argmin (a : list Q) : nat :=
  match a with
  | [] => 0
  | x :: rest =>
      match rest with
      | [] => 0
      | y :: _ =>
          let j := np_argmin rest in
          if Qle_bool x (nth j rest y) then 0 else S j
      end
  end.

(** ** config.py

    The tunables, read once at import.  Window sizes and the bin count are
    natural numbers. *)

Module config.

Record Config : Type := mkConfig {
  MIN_RR_RATIO : Q;
  WASH_TRADE_TAKER_RATIO_LOW : Q;
  WASH_TRADE_TAKER_RATIO_HIGH : Q;
  MIN_VOLUME_EFFICIENCY : Q;
  ATR_MA_PERIOD : nat;
  ATR_PERIOD : nat;
  VP_BINS : nat;
  HVN_PERCENTILE : Q;
  CVD_WINDOW : nat;
  OFI_WINDOW : nat;
  MOMENTUM_ROC_PERIOD : nat;
  OB_IMBALANCE_FACTOR : Q;
  OB_PROXIMITY_PCT : Q;
  ATR_SL_MULTIPLIER : Q;
  SWING_LOOKBACK : nat;
  HVN_PROXIMITY_PCT : Q
}.

(** The fallback values of the module. *)
Definition defaults : Config := {|
  MIN_RR_RATIO := 2;
  WASH_TRADE_TAKER_RATIO_LOW := 0.49;
  WASH_TRADE_TAKER_RATIO_HIGH := 0.51;
  MIN_VOLUME_EFFICIENCY := 0.0002;
  ATR_MA_PERIOD := 24;
  ATR_PERIOD := 14;
  VP_BINS := 30;
  HVN_PERCENTILE := 75;
  CVD_WINDOW := 20;
  OFI_WINDOW := 10;
  MOMENTUM_ROC_PERIOD := 5;
  OB_IMBALANCE_FACTOR := 1.2;
  OB_PROXIMITY_PCT := 0.005;
  ATR_SL_MULTIPLIER := 1.5;
  SWING_LOOKBACK := 20;
  HVN_PROXIMITY_PCT := 0.005
|}.

End config.

Import config.

(** ** The market data handed to the pipeline *)

(** One row of the OHLCV DataFrame. *)
Record Candle : Type := mkCandle {
  open : Q;
  high : Q;
  low : Q;
  close : Q;
  volume : Q;
  taker_buy_volume : Q;
  taker_sell_volume : Q
}.

Definition DataFrame : Type := list Candle.

(** The L2 order book dict: [orderbook.get("bids", [])] and
    [orderbook.get("asks", [])], each a list of [[price, size]] levels; the
    empty dict has both empty. *)
Record OrderBook : Type := mkOrderBook {
  bids : list (Q * Q);
  asks : list (Q * Q)
}.

(** True Range, [max(high - low, |high - prev_close|, |low - prev_close|)]
    with [prev_close = close.shift(1)]: the row-wise [max] skips the [NaN]
    of the first row. *)
Fixpoint true_range_from (prev_close : option Q) (df : DataFrame) : list Q :=
  match df with
  | [] => []
  | c :: rest =>
      match prev_close with
      | None => (high c - low c)%Q
      | Some pc =>
          Qmax (high c - low c)%Q
               (Qmax (Qabs (high c - pc)) (Qabs (low c - pc)))
      end :: true_range_from (Some (close c)) rest
  end.

Definition true_range (df : DataFrame) : list Q := true_range_from None df.

(** The volume-profile histogram shared by [scoring_engine] and
    [risk_manager]: the bin midpoints and the volume of every bin, for a
    window whose price range [price_min < price_max] is already known (so
    the window has a row). *)
Definition volume_bins (bins : nat) (price_min price_max : Q) (df : DataFrame)
  : res (list Q * list Q) :=
  let edges := np_linspace price_min price_max (bins + 1) in
  let mids := zip_with (fun a b => ((a + b) / 2)%Q)
                       (removelast edges) (tail edges) in
  let indices :=
    map (fun c => Z.to_nat (np_clip (Z.of_nat (np_digitize (close c) edges) - 1)
                                    0 (Z.of_nat bins - 1))) df in
  (* without bins, [np.add.at] has no slot for the first row's volume *)
  if (bins =? 0)%nat then Raise IndexError
  else Ok (mids, np_add_at (replicate bins 0%Q) indices (map volume df)).

(** [mids[vol_bins >= threshold]] *)
Definition select_hvn (mids vol_bins : list Q) (threshold : Q) : list Q :=
  map fst (List.filter (fun mv => Qle_bool threshold mv.2) (zip mids vol_bins)).

(** ** logic_filters.py *)

Module logic_filters.

(** [compute_atr]: the rolling mean of the True Range. *)
Definition compute_atr (df : DataFrame) (period : nat)
  : res (list (option Q)) :=
  rolling_mean period period (map Some (true_range df)).

(** Gate 2.  Every [return False] of the source is an [Ok false] here, in
    the source's order. *)
Definition gate_anti_wash_trading (cfg : Config) (df : DataFrame)
  : res bool :=
  let min_required := (ATR_MA_PERIOD cfg + ATR_PERIOD cfg + 2)%nat in
  if (length df =? 0)%nat || (length df <? min_required)%nat then Ok false
  else
    candle ← iloc df (-2);
    let total_volume := volume candle in
    if Qle_bool total_volume 0 then Ok false
    else
      let price_displacement := Qabs (close candle - open candle) in
      let volume_efficiency := (price_displacement / total_volume)%Q in
      if Qlt_bool volume_efficiency (MIN_VOLUME_EFFICIENCY cfg) then Ok false
      else
        atr_series ← compute_atr df (ATR_PERIOD cfg);
        atr_ma_series ←
          rolling_mean (ATR_MA_PERIOD cfg) (ATR_MA_PERIOD cfg) atr_series;
        latest_atr ← iloc atr_series (-2);
        latest_atr_ma ← iloc atr_ma_series (-2);
        match latest_atr, latest_atr_ma with
        | Some atr, Some atr_ma =>
            if Qlt_bool atr atr_ma then Ok false
            else
              let taker_buy := taker_buy_volume candle in
              let taker_ratio := (taker_buy / total_volume)%Q in
              if Qle_bool (WASH_TRADE_TAKER_RATIO_LOW cfg) taker_ratio
                 && Qle_bool taker_ratio (WASH_TRADE_TAKER_RATIO_HIGH cfg)
              then Ok false
              else Ok true
        | _, _ => Ok false
        end.

(** Gate 1.  Of [utc_now] only [.hour] is read: the argument is that hour,
    and [clock_hour] is the hour [datetime.now(timezone.utc)] would give
    when the argument is [None].  The two bounds are the tunables
    [SESSION_START_UTC] and [SESSION_END_UTC]. *)
Definition gate_session_killzone (SESSION_START_UTC SESSION_END_UTC : Z)
    (clock_hour : Z) (utc_now : option Z) : bool :=
  let hour := match utc_now with Some h => h | None => clock_hour end in
  (SESSION_START_UTC <=? hour)%Z && (hour <? SESSION_END_UTC)%Z.

End logic_filters.

(** ** scoring_engine.py *)

Module scoring_engine.

Definition _compute_ofi (df : DataFrame) : list Q :=
  map (fun c => (taker_buy_volume c - taker_sell_volume c)%Q) df.

(** [cum_tp_vol / cum_vol.replace(0, np.nan)] *)
Definition _compute_vwap (df : DataFrame) : list (option Q) :=
  let typical_price :=
    map (fun c => ((high c + low c + close c) / 3)%Q) df in
  let cum_tp_vol :=
    cumsum (zip_with Qmult typical_price (map volume df)) in
  let cum_vol := cumsum (map volume df) in
  zip_with (fun tpv v => if Qeq_bool v 0 then None else Some (tpv / v)%Q)
           cum_tp_vol cum_vol.

(** The histogram as [(price_mid, volume)] columns; [None] is the empty
    DataFrame returned for a degenerate price range.  A frame without rows
    has a [NaN] range, which the embedding does not follow. *)
Definition _build_volume_profile (cfg : Config) (df : DataFrame)
  : res (option (list Q * list Q)) :=
  match col_min (map low df), col_max (map high df) with
  | Some price_min, Some price_max =>
      if Qle_bool price_max price_min then Ok None
      else vp ← volume_bins (VP_BINS cfg) price_min price_max df; Ok (Some vp)
  | _, _ => Raise Unmodelled
  end.

Definition _get_hvn_levels (cfg : Config) (df : DataFrame) : res (list Q) :=
  vp ← _build_volume_profile cfg df;
  match vp with
  | None => Ok []
  | Some (price_mid, vol) =>
      (* a profile is [empty] too when it has no row, i.e. no bin *)
      if (length price_mid =? 0)%nat then Ok []
      else
        threshold ← np_percentile vol (HVN_PERCENTILE cfg);
        Ok (np_sort (select_hvn price_mid vol threshold))
  end.

(** The three-way vote on the sign of a float; [NaN] is on neither side. *)
Definition sign_vote (x : option Q) : Z :=
  if nan_lt (Some 0%Q) x then 1%Z
  else if nan_lt x (Some 0%Q) then (-1)%Z
  else 0%Z.

(** Condition 1 *)
Definition _score_ofi (cfg : Config) (df : DataFrame) : res Z :=
  let ofi := _compute_ofi df in
  means ← rolling_mean (OFI_WINDOW cfg) 1 (map Some ofi);
  rolling_ofi ← iloc means (-1);
  Ok (sign_vote rolling_ofi).

(** Condition 2 *)
Definition _score_cvd_trend (cfg : Config) (df : DataFrame) : res Z :=
  let ofi := _compute_ofi df in
  cvd ← rolling_sum (CVD_WINDOW cfg) 1 (map Some ofi);
  if (length cvd <? 2)%nat then Ok 0%Z
  else
    let mid_offset := Z.max 1 (Z.of_nat (CVD_WINDOW cfg) / 2) in
    let mid_idx := Z.max 0 (Z.of_nat (length cvd) - mid_offset - 1) in
    cvd_last ← iloc cvd (-1);
    cvd_mid ← iloc cvd mid_idx;
    let slope := nan_sub cvd_last cvd_mid in
    Ok (sign_vote slope).

(** Condition 3 *)
Definition _score_vwap (df : DataFrame) : res Z :=
  let vwap := _compute_vwap df in
  current_close ← iloc (map close df) (-1);
  current_vwap ← iloc vwap (-1);
  match current_vwap with
  | None => Ok 0%Z
  | Some v =>
      if Qlt_bool v current_close then Ok 1%Z
      else if Qlt_bool current_close v then Ok (-1)%Z
      else Ok 0%Z
  end.

(** Condition 4, first half: [momentum_score]. *)
Definition momentum_score (cfg : Config) (df : DataFrame) : res Z :=
  if (MOMENTUM_ROC_PERIOD cfg + 1 <=? length df)%nat then
    close_now ← iloc (map close df) (-1);
    close_ago ← iloc (map close df)
                     (- Z.of_nat (MOMENTUM_ROC_PERIOD cfg + 1));
    roc ← py_div (close_now - close_ago) (close_ago + 1e-12);
    if Qlt_bool 0 roc then Ok 1%Z
    else if Qlt_bool roc 0 then Ok (-1)%Z
    else Ok 0%Z
  else Ok 0%Z.

(** [arr[mask, 1].sum()] *)
Definition liquidity (levels : list (Q * Q)) (keep : Q -> bool) : Q :=
  Qsum (map snd (List.filter (fun l => keep l.1) levels)).

(** Condition 4, second half: [book_score].  A list of [[price, size]]
    pairs always converts to a two-dimensional array. *)
Definition book_score (cfg : Config) (orderbook : OrderBook) : Z :=
  match bids orderbook, asks orderbook with
  | (bid0, _) :: _, (ask0, _) :: _ =>
      let mid := ((bid0 + ask0) / 2)%Q in
      let lower := (mid * (1 - OB_PROXIMITY_PCT cfg))%Q in
      let upper := (mid * (1 + OB_PROXIMITY_PCT cfg))%Q in
      let bid_liq := liquidity (bids orderbook) (fun p => Qle_bool lower p) in
      let ask_liq := liquidity (asks orderbook) (fun p => Qle_bool p upper) in
      if Qlt_bool (ask_liq * OB_IMBALANCE_FACTOR cfg) bid_liq then 1%Z
      else if Qlt_bool (bid_liq * OB_IMBALANCE_FACTOR cfg) ask_liq then (-1)%Z
      else 0%Z
  | _, _ => 0%Z
  end.

(** Condition 4 *)
Definition _score_momentum_and_orderbook (cfg : Config) (df : DataFrame)
    (orderbook : OrderBook) : res Z :=
  momentum ← momentum_score cfg df;
  let book := book_score cfg orderbook in
  if (momentum =? 1)%Z && (0 <=? book)%Z then Ok 1%Z
  else if (momentum =? -1)%Z && (book <=? 0)%Z then Ok (-1)%Z
  else Ok 0%Z.

(** Condition 5 *)
Definition _score_liquidity_zones (cfg : Config) (df : DataFrame) : res Z :=
  let min_rows := 22%nat in
  if (length df <? min_rows)%nat then Ok 0%Z
  else
    last ← iloc df (-1);
    let current_close := close last in
    let lookback := 20%nat in
    let prior := iloc_slice df (- Z.of_nat (lookback + 1)) (Some (-1)%Z) in
    let swing_high := col_max (map high prior) in
    let swing_low := col_min (map low prior) in
    if nan_lt swing_high (Some (high last))
       && nan_lt (Some current_close) swing_high then Ok (-1)%Z
    else if nan_lt (Some (low last)) swing_low
            && nan_lt swing_low (Some current_close) then Ok 1%Z
    else
      hvn_levels ← _get_hvn_levels cfg df;
      if (length hvn_levels =? 0)%nat then Ok 0%Z
      else
        let distances := map (fun h => Qabs (h - current_close)) hvn_levels in
        nearest_hvn ← iloc hvn_levels (Z.of_nat (np_argmin distances));
        proximity ← py_div (Qabs (current_close - nearest_hvn))
                           (nearest_hvn + 1e-12);
        if Qle_bool proximity (HVN_PROXIMITY_PCT cfg) then
          if Qle_bool nearest_hvn current_close then Ok 1%Z else Ok (-1)%Z
        else Ok 0%Z.

(** The aggregate scorer; [df] and [orderbook] are both [Optional]. *)
Definition compute_score (cfg : Config) (df : option DataFrame)
    (orderbook : option OrderBook) : res Z :=
  match df with
  | None => Ok 0%Z
  | Some df =>
      if (length df =? 0)%nat || (length df <? 30)%nat then Ok 0%Z
      else
        let ob := match orderbook with
                  | Some o => o
                  | None => mkOrderBook [] []
                  end in
        c1 ← _score_ofi cfg df;
        c2 ← _score_cvd_trend cfg df;
        c3 ← _score_vwap df;
        c4 ← _score_momentum_and_orderbook cfg df ob;
        c5 ← _score_liquidity_zones cfg df;
        Ok (c1 + c2 + c3 + c4 + c5)%Z
  end.

End scoring_engine.

(** ** risk_manager.py *)

Module risk_manager.

(** The returned dict.  Its values are floats, [NaN] included. *)
Record RiskParams : Type := mkRiskParams {
  Entry : option Q;
  SL : option Q;
  TP : option Q;
  RR : option Q
}.

(** The ATR of the last completed candle, [0.0] when it is [NaN]. *)
Definition _compute_atr (df : DataFrame) (period : nat) : res Q :=
  atr ← rolling_mean period period (map Some (true_range df));
  atr_val ← iloc atr (-2);
  Ok (match atr_val with Some a => a | None => 0%Q end).

Definition _get_hvn_levels (cfg : Config) (df : DataFrame) : res (list Q) :=
  match col_min (map low df), col_max (map high df) with
  | Some price_min, Some price_max =>
      if Qle_bool price_max price_min then Ok []
      else
        '(mids, vol_bins) ← volume_bins (VP_BINS cfg) price_min price_max df;
        threshold ← np_percentile vol_bins (HVN_PERCENTILE cfg);
        Ok (np_sort (select_hvn mids vol_bins threshold))
  | _, _ => Raise Unmodelled
  end.

(** [(swing_high, swing_low)] over [df.iloc[-lookback:]]. *)
Definition _get_swing_extremes (df : DataFrame) (lookback : nat)
  : option Q * option Q :=
  let window := iloc_slice df (- Z.of_nat lookback) None in
  (col_max (map high window), col_min (map low window)).

Definition _find_nearest_above (levels : list Q) (price : Q) : option Q :=
  head (List.filter (fun l => Qlt_bool price l) levels).

Definition _find_nearest_below (levels : list Q) (price : Q) : option Q :=
  last (List.filter (fun l => Qlt_bool l price) levels).

(** [calculate_risk_params].  After the anchors are chosen [sl] and [tp] are
    floats in both branches, so the test [sl is None or tp is None] of the
    source cannot fire and has no counterpart here. *)
Definition calculate_risk_params (cfg : Config) (df : option DataFrame)
    (direction : string) (atr_multiplier_sl : Q) : res (option RiskParams) :=
  match df with
  | None => Ok None
  | Some df =>
      if (length df =? 0)%nat then Ok None
      else if negb (String.eqb direction "LONG" || String.eqb direction "SHORT")
      then Ok None
      else
        entry ← iloc (map close df) (-1);
        atr ← _compute_atr df (ATR_PERIOD cfg);
        let sl_buffer := (atr * atr_multiplier_sl)%Q in
        hvn_levels ← _get_hvn_levels cfg df;
        let '(swing_high, swing_low) :=
          _get_swing_extremes df (SWING_LOOKBACK cfg) in
        let '(sl, tp) :=
          if String.eqb direction "LONG" then
            let sl_anchor :=
              match _find_nearest_below hvn_levels entry with
              | Some a => Some a
              | None => swing_low
              end in
            (nan_sub sl_anchor (Some sl_buffer),
             match _find_nearest_above hvn_levels entry with
             | Some t => Some t
             | None => swing_high
             end)
          else
            let sl_anchor :=
              match _find_nearest_above hvn_levels entry with
              | Some a => Some a
              | None => swing_high
              end in
            (nan_add sl_anchor (Some sl_buffer),
             match _find_nearest_below hvn_levels entry with
             | Some t => Some t
             | None => swing_low
             end) in
        if String.eqb direction "LONG"
           && (nan_le (Some entry) sl || nan_le tp (Some entry))
        then Ok None
        else if String.eqb direction "SHORT"
                && (nan_le sl (Some entry) || nan_le (Some entry) tp)
        then Ok None
        else
          let risk := nan_abs (nan_sub (Some entry) sl) in
          let reward := nan_abs (nan_sub tp (Some entry)) in
          if nan_le risk (Some 0%Q) then Ok None
          else
            ratio ← nan_div reward risk;
            let rr := nan_round ratio 3 in
            if nan_lt rr (Some (MIN_RR_RATIO cfg)) then Ok None
            else Ok (Some (mkRiskParams (Some (py_round entry 8))
                                        (nan_round sl 8)
                                        (nan_round tp 8)
                                        rr))
  end.

End risk_manager.

(** ** state_manager.py *)

Module state_manager.

Inductive PairState : Type := IDLE | LONG | SHORT.

Record VirtualPosition : Type := mkVirtualPosition {
  symbol : string;
  direction : string;
  entry : Q;
  tp : Q;
  sl : Q;
  rr : Q;
  score : Z
}.

(** The log lines of the manager, one constructor per [logger] call. *)
Inductive LogRecord : Type :=
| LogLockIgnored (sym : string) (st : PairState)
| LogLocked (pos : VirtualPosition)
| LogUnlocked (sym : string) (prev : PairState) (reason : string)
| LogTpHit (sym dir : string) (price level : Q)
| LogSlHit (sym dir : string) (price level : Q).

Record StateManager : Type := mkStateManager {
  _states : gmap string PairState;
  _positions : gmap string (option VirtualPosition);
  log : list LogRecord
}.

Definition emit (sm : StateManager) (r : LogRecord) : StateManager :=
  mkStateManager (_states sm) (_positions sm) (log sm ++ [r]).

(** [StateManager.__init__]: the two dict comprehensions over [pairs]. *)
Definition StateManager_init (pairs : list string) : StateManager :=
  mkStateManager
    (foldl (fun d p => <[p := IDLE]> d) ∅ pairs)
    (foldl (fun d p => <[p := None]> d) ∅ pairs)
    [].

(** [self._states.get(symbol, PairState.IDLE)] *)
Definition get_state (sm : StateManager) (sym : string) : PairState :=
  match _states sm !! sym with
  | Some st => st
  | None => IDLE
  end.

(** [self._states.get(symbol) == PairState.IDLE] *)
Definition is_idle (sm : StateManager) (sym : string) : bool :=
  match _states sm !! sym with
  | Some IDLE => true
  | _ => false
  end.

(** [self._positions.get(symbol)] *)
Definition get_position (sm : StateManager) (sym : string)
  : option VirtualPosition :=
  match _positions sm !! sym with
  | Some p => p
  | None => None
  end.

(** [lock_pair].  The warning of the refusal branch evaluates
    [self._states[symbol].name] before [return False] is reached: a
    subscript, which raises [KeyError] when the symbol has no entry. *)
Definition lock_pair (sm : StateManager) (sym dir : string)
    (entry tp sl rr : Q) (score : Z) : res bool * StateManager :=
  if negb (is_idle sm sym) then
    match _states sm !! sym with
    | None => (Raise KeyError, sm)
    | Some st => (Ok false, emit sm (LogLockIgnored sym st))
    end
  else
    let new_state := if String.eqb dir "LONG" then LONG else SHORT in
    let pos := mkVirtualPosition sym dir entry tp sl rr score in
    (Ok true,
     mkStateManager (<[sym := new_state]> (_states sm))
                    (<[sym := Some pos]> (_positions sm))
                    (log sm ++ [LogLocked pos])).

Definition unlock_pair (sm : StateManager) (sym reason : string)
  : StateManager :=
  let prev := get_state sm sym in
  mkStateManager (<[sym := IDLE]> (_states sm))
                 (<[sym := None]> (_positions sm))
                 (log sm ++ [LogUnlocked sym prev reason]).

(** The body of the [for] loop of [update_virtual_positions], for one item
    of the snapshot [list(self._positions.items())].
    [price >= position.tp] is [Qle_bool (tp position) price]. *)
Definition resolve_item (current_prices : gmap string Q)
    (sm : StateManager) (item : string * option VirtualPosition)
  : StateManager :=
  match item.2 with
  | None => sm
  | Some position =>
      match current_prices !! item.1 with
      | None => sm
      | Some price =>
          if String.eqb (direction position) "LONG" then
            if Qle_bool (tp position) price then
              unlock_pair
                (emit sm (LogTpHit item.1 "LONG" price (tp position)))
                item.1 "TP_HIT"
            else if Qle_bool price (sl position) then
              unlock_pair
                (emit sm (LogSlHit item.1 "LONG" price (sl position)))
                item.1 "SL_HIT"
            else sm
          else if String.eqb (direction position) "SHORT" then
            if Qle_bool price (tp position) then
              unlock_pair
                (emit sm (LogTpHit item.1 "SHORT" price (tp position)))
                item.1 "TP_HIT"
            else if Qle_bool (sl position) price then
              unlock_pair
                (emit sm (LogSlHit item.1 "SHORT" price (sl position)))
                item.1 "SL_HIT"
            else sm
          else sm
      end
  end.

(** The loop runs over a snapshot of the items taken before the first
    turn.  The snapshot comes in the order of [map_to_list], not in the
    insertion order of the Python dict: a turn reads its own item and the
    prices only, and writes its own symbol only, so the order decides
    nothing but the interleaving of the log lines of different symbols. *)
Definition update_virtual_positions (sm : StateManager)
    (current_prices : gmap string Q) : StateManager :=
  foldl (resolve_item current_prices) sm (map_to_list (_positions sm)).

(** The reasons with which [sym] was unlocked, oldest first, read off a log. *)
Definition unlock_reasons (sym : string) (l : list LogRecord) : list string :=
  flat_map (fun r =>
    match r with
    | LogUnlocked s _ reason => if String.eqb s sym then [reason] else []
    | _ => []
    end) l.

(** What the registry holds for one symbol: its state, its position and
    the reasons it was unlocked with so far. *)
Definition view (sym : string) (sm : StateManager)
  : option PairState * option (option VirtualPosition) * list string :=
  (_states sm !! sym, _positions sm !! sym, unlock_reasons sym (log sm)).

(** [sym] was closed with [reason] between [sm] and [sm']: back to [IDLE],
    position cleared, one more unlock logged, with that reason. *)
Definition closed_with (reason : string) (sym : string)
    (sm sm' : StateManager) : Prop :=
  view sym sm' =
  (Some IDLE, Some None, (unlock_reasons sym (log sm) ++ [reason])%list).

(** Nothing changed for [sym] between [sm] and [sm']. *)
Definition untouched (sym : string) (sm sm' : StateManager) : Prop :=
  view sym sm' = view sym sm.

(** What one turn of the loop does to the view of the item's own symbol. *)
Definition turn (prices : gmap string Q) (sym : string)
    (p : option VirtualPosition)
    (v : option PairState * option (option VirtualPosition) * list string)
  : option PairState * option (option VirtualPosition) * list string :=
  let closed reason := (Some IDLE, Some None, (v.2 ++ [reason])%list) in
  match p with
  | None => v
  | Some pos =>
      match prices !! sym with
      | None => v
      | Some price =>
          if String.eqb (direction pos) "LONG" then
            if Qle_bool (tp pos) price then closed "TP_HIT"
            else if Qle_bool price (sl pos) then closed "SL_HIT"
            else v
          else if String.eqb (direction pos) "SHORT" then
            if Qle_bool price (tp pos) then closed "TP_HIT"
            else if Qle_bool (sl pos) price then closed "SL_HIT"
            else v
          else v
      end
  end.

(** The registry invariant: a position is held exactly by the symbols
    that are not [IDLE], as the public accessors report them. *)
Definition position_iff_open (sm : StateManager) : Prop :=
  forall sym, get_position sm sym <> None <-> get_state sm sym <> IDLE.

(** One call of a mutator of the public interface. *)
Inductive Call : Type :=
| CallLock (sym dir : string) (entry tp sl rr : Q) (score : Z)
| CallUnlock (sym reason : string)
| CallUpdate (current_prices : gmap string Q).

Definition run_call (sm : StateManager) (c : Call) : StateManager :=
  match c with
  | CallLock sym dir e t s r sc => (lock_pair sm sym dir e t s r sc).2
  | CallUnlock sym reason => unlock_pair sm sym reason
  | CallUpdate prices => update_virtual_positions sm prices
  end.

(** The states a manager can be in: built by the constructor, then driven
    by any sequence of calls (a call that raises leaves the manager as it
    was, and the caller may go on). *)
Inductive reachable : StateManager -> Prop :=
| reachable_init (pairs : list string) :
    reachable (StateManager_init pairs)
| reachable_call (sm : StateManager) (c : Call) :
    reachable sm -> reachable (run_call sm c).

(** [state.name] *)
Definition state_name (st : PairState) : string :=
  match st with
  | IDLE => "IDLE"
  | LONG => "LONG"
  | SHORT => "SHORT"
  end.

(** [get_all_states]: [{sym: state.name for sym, state in ...}] *)
Definition get_all_states (sm : StateManager) : gmap string string :=
  state_name <$> _states sm.

(** The two dicts of the manager hold the same keys. *)
Definition keys_in_sync (sm : StateManager) : Prop :=
  forall sym, is_Some (_states sm !! sym) <-> is_Some (_positions sm !! sym).

End state_manager.

(** ** data_ingestion.py *)

Module data_ingestion.

(** How an awaited call to the exchange can fail, by the [except] clause
    that catches it ([RequestTimeout] is a [NetworkError] for ccxt, and
    [BadSymbol] is caught before the other exchange errors). *)
Inductive FetchError : Type :=
| BadSymbol
| NetworkError
| ExchangeError
| OtherError.

(** What an awaited call gives: a value, or one of the errors. *)
Inductive Fetched (A : Type) : Type :=
| Returned (a : A)
| Failed (e : FetchError).

Arguments Returned {A} a.
Arguments Failed {A} e.

(** One candle of ccxt's generic [fetch_ohlcv]:
    [[timestamp, open, high, low, close, volume]]. *)
Record Ohlcv : Type := mkOhlcv {
  o_timestamp : Z;
  o_open : Q;
  o_high : Q;
  o_low : Q;
  o_close : Q;
  o_volume : Q
}.

(** The fallback's candle: the taker volumes are estimated at half the
    volume each. *)
Definition ohlcv_candle (r : Ohlcv) : Candle :=
  mkCandle (o_open r) (o_high r) (o_low r) (o_close r) (o_volume r)
           (o_volume r * 0.5)%Q (o_volume r * 0.5)%Q.

(** [_fallback_fetch_ohlcv], as a function of what
    [await exchange.fetch_ohlcv(...)] gives: any exception and an empty
    answer give [None]. *)
Definition _fallback_fetch_ohlcv (fetched : Fetched (list Ohlcv))
  : option DataFrame :=
  match fetched with
  | Failed _ => None
  | Returned [] => None
  | Returned raw => Some (map ohlcv_candle raw)
  end.

(** The dict [fetch_orderbook] returns: the two sides and the timestamp of
    the exchange's answer. *)
Record OrderBookSnapshot : Type := mkOrderBookSnapshot {
  ob_book : OrderBook;
  ob_timestamp : option Z
}.

(** What [fetch_orderbook] did: the calls to the exchange it awaited and
    the seconds it slept, in order. *)
Inductive IoStep : Type :=
| Called (attempt : nat)
| Slept (seconds : Q).

(** The [for attempt in range(1, MAX_RETRIES + 1)] loop of
    [fetch_orderbook], from [attempt] on with [remaining] turns left;
    [answer k] is what [await exchange.fetch_order_book(...)] gives on the
    attempt [k]. *)
Fixpoint fetch_orderbook_from (MAX_RETRIES : nat) (RETRY_DELAY_S : Q)
    (answer : nat -> Fetched OrderBookSnapshot) (attempt remaining : nat)
  : option OrderBookSnapshot * list IoStep :=
  match remaining with
  | O => (None, [])
  | S remaining' =>
      match answer attempt with
      | Returned ob => (Some ob, [Called attempt])
      | Failed NetworkError =>
          let rest := fetch_orderbook_from MAX_RETRIES RETRY_DELAY_S answer
                        (S attempt) remaining' in
          if (attempt <? MAX_RETRIES)%nat then
            (rest.1,
             Called attempt
             :: Slept (RETRY_DELAY_S * inject_Z (Z.of_nat attempt))%Q
             :: rest.2)
          else (rest.1, Called attempt :: rest.2)
      | Failed _ => (None, [Called attempt])
      end
  end.

Definition fetch_orderbook (MAX_RETRIES : nat) (RETRY_DELAY_S : Q)
    (answer : nat -> Fetched OrderBookSnapshot)
  : option OrderBookSnapshot * list IoStep :=
  fetch_orderbook_from MAX_RETRIES RETRY_DELAY_S answer 1 MAX_RETRIES.

(** A failed attempt and the pause that follows it. *)
Definition failed_attempt (RETRY_DELAY_S : Q) (attempt : nat)
  : list IoStep :=
  [Called attempt; Slept (RETRY_DELAY_S * inject_Z (Z.of_nat attempt))%Q].

(** The exchange calls and the seconds slept in a trace. *)
Definition calls (trace : list IoStep) : list nat :=
  flat_map (fun s => match s with Called k => [k] | Slept _ => [] end) trace.

Definition slept (trace : list IoStep) : Q :=
  Qsum (flat_map (fun s => match s with Called _ => [] | Slept d => [d] end)
                 trace).

End data_ingestion.


(** ** metrics_exporter.py *)

Module metrics_exporter.

(** [_compute_ofi_last]: [0.0] on a window shorter than [OFI_WINDOW]. *)
Definition _compute_ofi_last (cfg : Config) (df : DataFrame)
  : res (option Q) :=
  if (length df <? OFI_WINDOW cfg)%nat then Ok (Some 0%Q)
  else
    let ofi :=
      map (fun c => (taker_buy_volume c - taker_sell_volume c)%Q) df in
    means ← rolling_mean (OFI_WINDOW cfg) 1 (map Some ofi);
    iloc means (-1).

(** [_compute_cvd_last]: [0.0] on a window of fewer than two rows. *)
Definition _compute_cvd_last (cfg : Config) (df : DataFrame)
  : res (option Q) :=
  if (length df <? 2)%nat then Ok (Some 0%Q)
  else
    let ofi :=
      map (fun c => (taker_buy_volume c - taker_sell_volume c)%Q) df in
    sums ← rolling_sum (CVD_WINDOW cfg) 1 (map Some ofi);
    iloc sums (-1).

(** [_compute_vwap_last]: the latest close when no volume was traded. *)
Definition _compute_vwap_last (df : DataFrame) : res Q :=
  let typical_price :=
    map (fun c => ((high c + low c + close c) / 3)%Q) df in
  let cum_tp_vol := Qsum (zip_with Qmult typical_price (map volume df)) in
  let cum_vol := Qsum (map volume df) in
  if Qle_bool cum_vol 0 then iloc (map close df) (-1)
  else Ok (cum_tp_vol / cum_vol)%Q.

End metrics_exporter.

(** ** notifier.py *)

Module notifier.

Definition ascii_upper (c : ascii) : ascii :=
  let n := nat_of_ascii c in
  if (97 <=? n)%nat && (n <=? 122)%nat then ascii_of_nat (n - 32) else c.

(** [str.upper()] on ASCII text; the bytes of other characters are left as
    they are. *)
Fixpoint str_upper (s : string) : string :=
  match s with
  | EmptyString => EmptyString
  | String c rest => String (ascii_upper c) (str_upper rest)
  end.

(** [s * n]: empty when [n] is not positive. *)
Definition str_repeat (s : string) (n : Z) : string :=
  String.concat "" (replicate (Z.to_nat n) s).

(** The ["signal"] entry of the payload. *)
Record Signal : Type := mkSignal {
  pair : string;
  direction : string;
  emoji : string;
  entry_price : option Q;
  take_profit : option Q;
  stop_loss : option Q;
  risk_reward : option Q;
  score : Z;
  score_label : string;
  score_bar : string
}.

Record Payload : Type := mkPayload {
  schema_version : string;
  system : string;
  timestamp_utc : string;
  signal : Signal;
  meta_session : string;
  meta_strategy : string
}.

(** [build_signal_payload]; [now] is
    [datetime.now(timezone.utc).isoformat()], and the prices are floats,
    [NaN] included. *)
Definition build_signal_payload (PAIR_DISPLAY_NAMES : gmap string string)
    (now : string) (symbol direction : string) (entry tp sl rr : option Q)
    (score : Z) : Payload :=
  let display_name := default symbol (PAIR_DISPLAY_NAMES !! symbol) in
  let direction_upper := str_upper direction in
  let emoji :=
    if String.eqb direction_upper "LONG" then "🟢 LONG" else "🔴 SHORT" in
  let abs_score := Z.abs score in
  let score_bar :=
    str_repeat "█" abs_score +:+ str_repeat "░" (5 - abs_score) in
  let score_label :=
    (if (0 <? score)%Z then "+" else "") +:+ pretty score +:+ "/5" in
  mkPayload "1.0" "Neko Signal" now
    (mkSignal display_name direction_upper emoji
       (nan_round entry 8) (nan_round tp 8) (nan_round sl 8)
       (nan_round rr 3) score score_label score_bar)
    "US Killzone" "Market Microstructure + Volume Profile".

End notifier.

(** ** main_live.py *)

Module main_live.

Import state_manager.

(** What the pipeline can raise: the exceptions of the embedded modules,
    and the [TypeError] of a call whose arguments do not fit the callee's
    signature. *)
Inductive PipelineExn : Type :=
| TypeError
| Builtin (e : PyExn).

(** What one run of the pipeline does, in order: its log lines and the two
    awaited calls that leave the process. *)
Inductive Event : Type :=
| LogFetchFailed
| LogOhlcv (rows : nat) (last_close last_vol taker_buy_pct : Q)
| LogGate2Fail
| LogPositionOpen (st : PairState)
| LogScore (score : Z)
| LogNoSignal (score : Z)
| LogRejected (direction : string) (score : Z)
| CallExportLiveMetrics (score : Z) (trade_state : string)
| CallSendSignal (direction : string) (entry tp sl rr : Q) (score : Z)
| LogUnhandled (exc : PipelineExn).

(** The outcome of the two awaited calls: [None] when the call returns,
    the exception when it raises. *)
Record Io : Type := mkIo {
  export_live_metrics : Z -> string -> option PipelineExn;
  send_signal : string -> Q -> Q -> Q -> Q -> Z -> option PipelineExn
}.

(** Python binds the arguments of a call before the body runs: a function
    of [params] parameters, none of them with a default, accepts [given]
    positional arguments only when the two numbers agree, and raises
    [TypeError] otherwise. *)
Definition positional_call (params given : nat) : bool :=
  (given =? params)%nat.

(** The [except Exception] clause around the pipeline. *)
Definition unhandled (sm : StateManager) (events : list Event)
    (exc : PipelineExn) : StateManager * list Event :=
  (sm, (events ++ [LogUnhandled exc])%list).

(** [_process_pair], steps 1 to 11, for the frame and the book the two
    fetches returned.  Step 1 is commented out in the source.
    [gate_anti_wash_trading] has the one parameter [df] and is called with
    [(df, symbol)]; [compute_score] and [calculate_risk_params] have
    defaults for the arguments the calls leave out. *)
Definition _process_pair (cfg : Config)
    (SCORE_LONG_THRESHOLD SCORE_SHORT_THRESHOLD : Z) (io : Io)
    (symbol : string) (df : option DataFrame) (orderbook : option OrderBook)
    (sm : StateManager) : StateManager * list Event :=
  match df with
  | None => (sm, [LogFetchFailed])
  | Some df =>
  if (length df =? 0)%nat then (sm, [LogFetchFailed])
  else
  match (_last_vol ← iloc (map volume df) (-1);
         last_close ← iloc (map close df) (-1);
         taker_buy ← iloc (map taker_buy_volume df) (-1);
         ratio ← py_div taker_buy (_last_vol + 1e-12);
         Ok (LogOhlcv (length df) last_close _last_vol (ratio * 100)%Q)) with
  | Raise e => unhandled sm [] (Builtin e)
  | Ok line =>
  let events := [line] in
  (* Step 3 *)
  if negb (positional_call 1 2) then unhandled sm events TypeError
  else
  match logic_filters.gate_anti_wash_trading cfg df with
  | Raise e => unhandled sm events (Builtin e)
  | Ok false => (sm, (events ++ [LogGate2Fail])%list)
  | Ok true =>
  (* Step 4 *)
  match iloc (map close df) (-1) with
  | Raise e => unhandled sm events (Builtin e)
  | Ok current_price =>
  let sm := update_virtual_positions sm {[symbol := current_price]} in
  (* Step 5 *)
  if negb (is_idle sm symbol) then
    let st := get_state sm symbol in
    let events :=
      (events ++ [LogPositionOpen st;
                  CallExportLiveMetrics 0 (state_name st)])%list in
    match export_live_metrics io 0 (state_name st) with
    | Some e => unhandled sm events e
    | None => (sm, events)
    end
  else
  (* Step 6 *)
  match scoring_engine.compute_score cfg (Some df) orderbook with
  | Raise e => unhandled sm events (Builtin e)
  | Ok score =>
  let events := (events ++ [LogScore score])%list in
  (* Step 7 *)
  let direction :=
    if (SCORE_LONG_THRESHOLD <=? score)%Z then Some "LONG"
    else if (score <=? SCORE_SHORT_THRESHOLD)%Z then Some "SHORT"
    else None in
  match direction with
  | None =>
      let events :=
        (events ++ [LogNoSignal score;
                    CallExportLiveMetrics score "IDLE"])%list in
      match export_live_metrics io score "IDLE" with
      | Some e => unhandled sm events e
      | None => (sm, events)
      end
  | Some direction =>
  (* Step 8 *)
  match risk_manager.calculate_risk_params cfg (Some df) direction
          (ATR_SL_MULTIPLIER cfg) with
  | Raise e => unhandled sm events (Builtin e)
  | Ok None => (sm, (events ++ [LogRejected direction score])%list)
  | Ok (Some risk_params) =>
  (* Step 9; a level that is [NaN] is outside the registry's model *)
  match risk_manager.Entry risk_params, risk_manager.TP risk_params,
        risk_manager.SL risk_params, risk_manager.RR risk_params with
  | Some entry, Some tp, Some sl, Some rr =>
  let '(locked, sm) := lock_pair sm symbol direction entry tp sl rr score in
  match locked with
  | Raise e => unhandled sm events (Builtin e)
  | Ok false => (sm, events)
  | Ok true =>
  (* Step 10 *)
  let events :=
    (events ++ [CallSendSignal direction entry tp sl rr score])%list in
  match send_signal io direction entry tp sl rr score with
  | Some e => unhandled sm events e
  | None =>
  (* Step 11 *)
  let events := (events ++ [CallExportLiveMetrics score direction])%list in
  match export_live_metrics io score direction with
  | Some e => unhandled sm events e
  | None => (sm, events)
  end
  end
  end
  | _, _, _, _ => unhandled sm events (Builtin Unmodelled)
  end
  end
  end
  end
  end
  end
  end
  end.

End main_live.
Import state_manager logic_filters scoring_engine.
Import risk_manager.

(** ** Side conditions of the statements *)

(** The tunables the volume profile can work with: at least one histogram
    bin and a percentile between 0 and 100. *)
Definition sane_profile (cfg : Config) : bool :=
  (1 <=? VP_BINS cfg)%nat
  && Qle_bool 0 (HVN_PERCENTILE cfg) && Qle_bool (HVN_PERCENTILE cfg) 100.

(** The tunables the scoring engine can work with: those of the profile,
    and rolling windows of at least one row (pandas refuses
    [min_periods=1] on a window of none). *)
Definition sane_config (cfg : Config) : bool :=
  (1 <=? OFI_WINDOW cfg)%nat && (1 <=? CVD_WINDOW cfg)%nat
  && sane_profile cfg.

(** A window whose lows and closes are not negative. *)
Definition nonneg_prices (df : DataFrame) : bool :=
  forallb (fun c => Qle_bool 0 (low c) && Qle_bool 0 (close c)) df.

(** A condition vote: one of -1, 0, +1. *)
Definition is_vote (v : Z) : Prop := v = (-1)%Z ∨ v = 0%Z ∨ v = 1%Z.

(** ** Sample inputs *)

Definition btc : string := "BTC/USDT:USDT".
Definition doge : string := "DOGE/USDT:USDT".

(** A manager tracking one pair, and the same after a LONG signal with
    entry 100, take-profit 110 and stop-loss 95. *)
Definition sm_idle : StateManager := StateManager_init [btc].

Definition sm_long : StateManager :=
  (lock_pair sm_idle btc "LONG" 100 110 95 2 4).2.

(** A candle closing 100 above its open on a volume of 10000, of which
    [taker_buy] was bought by takers; its range widens with [i]. *)
Definition widening_candle (taker_buy : Q) (i : nat) : Candle :=
  let w := inject_Z (Z.of_nat i) in
  mkCandle 1000 (1100 + w) (900 - w) 1100 10000 taker_buy (10000 - taker_buy).

(** Forty candles of widening range, so that the ATR runs above its own
    moving average. *)
Definition widening_window (taker_buy : Q) : DataFrame :=
  map (widening_candle taker_buy) (seq 0 40).

(** A steady climb: each candle one unit above the previous one, with
    taker buying that grows along the way. *)
Definition rising_candle (i : nat) : Candle :=
  let w := inject_Z (Z.of_nat i) in
  mkCandle (1000 + w) (1002 + w) (999 + w) (1001 + w) 100 (50 + w) (50 - w).

Definition rising_window : DataFrame := map rising_candle (seq 0 40).

(** One spike candle spanning 0 .. 300, then thirty-nine quiet candles
    around 106: a wide histogram and a small ATR. *)
Definition calm_window : DataFrame :=
  mkCandle 100 300 0 106 100 50 50
  :: replicate 39 (mkCandle 106 106.1 105.9 106 100 50 50).

(** Two rows only: far fewer than the ATR period. *)
Definition two_row_window : DataFrame :=
  [mkCandle 10 30 0 10 100 50 50; mkCandle 10 11 10 10.75 100 50 50].

(** A market that stands still at 10.5 after a first candle spanning
    0 .. 30, and closes its last candle one billionth higher. *)
Definition still_window : DataFrame :=
  mkCandle 10.5 30 0 10.5 100 50 50
  :: replicate 38 (mkCandle 10.5 10.5 10.5 10.5 100 50 50)
  ++ [mkCandle 10.5 10.500000001 10.5 10.500000001 100 50 50].

(** The fallback values with five histogram bins. *)
Definition five_bins : Config := {|
  MIN_RR_RATIO := 2;
  WASH_TRADE_TAKER_RATIO_LOW := 0.49;
  WASH_TRADE_TAKER_RATIO_HIGH := 0.51;
  MIN_VOLUME_EFFICIENCY := 0.0002;
  ATR_MA_PERIOD := 24;
  ATR_PERIOD := 14;
  VP_BINS := 5;
  HVN_PERCENTILE := 75;
  CVD_WINDOW := 20;
  OFI_WINDOW := 10;
  MOMENTUM_ROC_PERIOD := 5;
  OB_IMBALANCE_FACTOR := 1.2;
  OB_PROXIMITY_PCT := 0.005;
  ATR_SL_MULTIPLIER := 1.5;
  SWING_LOOKBACK := 20;
  HVN_PROXIMITY_PCT := 0.005
|}.

(** Five candles over the range 0 .. 50 whose closes put the volumes
    400, 100, 200, 300, 500 into the five bins; the last one closes at
    16. *)
Definition five_bin_window : DataFrame :=
  [mkCandle 5 10 0 5 400 200 200;
   mkCandle 25 30 20 25 200 100 100;
   mkCandle 35 40 30 35 300 150 150;
   mkCandle 45 50 40 45 500 250 250;
   mkCandle 16 20 10 16 100 50 50].

(** The same five candles, then twenty-five candles without volume that
    close at 5.01, just above the middle of the lowest bin. *)
Definition five_bin_session : DataFrame :=
  (five_bin_window
   ++ replicate 24 (mkCandle 5 50 0 5.01 0 0 0)
   ++ [mkCandle 5 6 5 5.01 0 0 0])%list.

(** The fallback values with an OFI window of no row. *)
Definition no_ofi_window : Config := {|
  MIN_RR_RATIO := 2;
  WASH_TRADE_TAKER_RATIO_LOW := 0.49;
  WASH_TRADE_TAKER_RATIO_HIGH := 0.51;
  MIN_VOLUME_EFFICIENCY := 0.0002;
  ATR_MA_PERIOD := 24;
  ATR_PERIOD := 14;
  VP_BINS := 30;
  HVN_PERCENTILE := 75;
  CVD_WINDOW := 20;
  OFI_WINDOW := 0;
  MOMENTUM_ROC_PERIOD := 5;
  OB_IMBALANCE_FACTOR := 1.2;
  OB_PROXIMITY_PCT := 0.005;
  ATR_SL_MULTIPLIER := 1.5;
  SWING_LOOKBACK := 20;
  HVN_PROXIMITY_PCT := 0.005
|}.

(** The rising window with one close a hair below zero, six rows before
    the end: the close the rate of change divides by. *)
Definition dipped_window : DataFrame :=
  map (fun i => if (i =? 34)%nat
                then mkCandle 1034 1036 (-1) (-1e-12) 100 84 16
                else rising_candle i)
      (seq 0 40).

(** What ccxt's generic [fetch_ohlcv] gives for the widening window: the
    same forty candles, without taker volumes. *)
Definition widening_ohlcv : list data_ingestion.Ohlcv :=
  map (fun i => let w := inject_Z (Z.of_nat i) in
                data_ingestion.mkOhlcv (Z.of_nat i) 1000 (1100 + w)
                  (900 - w) 1100 10000)
      (seq 0 40).

(** A window whose candles have their high at or above their low. *)
Definition ordered_candles (df : DataFrame) : bool :=
  forallb (fun c => Qle_bool (low c) (high c)) df.


(** * Properties *)

(** ** The lifecycle registry *)

Section Registry.

Implicit Types (sm : StateManager) (sym : string) (pos : VirtualPosition).
Implicit Types (prices : gmap string Q).

Lemma Qle_bool_false (x y : Q) : (x < y)%Q -> Qle_bool y x = false.
Proof.
  intros Hlt. destruct (Qle_bool y x) eqn:E; [|done].
  apply Qle_bool_iff in E. lra.
Qed.

Lemma Qle_bool_true (x y : Q) : (x <= y)%Q -> Qle_bool x y = true.
Proof. apply Qle_bool_iff. Qed.

Lemma Qle_bool_nle (x y : Q) : ¬ (x <= y)%Q -> Qle_bool x y = false.
Proof.
  intros Hn. destruct (Qle_bool x y) eqn:E; [|done].
  apply Qle_bool_iff in E. contradiction.
Qed.

Lemma unlock_reasons_snoc sym (l : list LogRecord) (r : LogRecord) :
  unlock_reasons sym (l ++ [r]) =
  (unlock_reasons sym l ++ unlock_reasons sym [r])%list.
Proof. unfold unlock_reasons. by rewrite flat_map_app. Qed.

Lemma view_emit_hit sym sm (r : LogRecord) :
  (∀ s prev reason, r ≠ LogUnlocked s prev reason) ->
  view sym (emit sm r) = view sym sm.
Proof.
  intros Hr. unfold view, emit; simpl. rewrite unlock_reasons_snoc.
  destruct r; simpl; rewrite ?app_nil_r; try done.
  by specialize (Hr sym0 prev reason).
Qed.

Lemma view_unlock_same sym sm reason :
  view sym (unlock_pair sm sym reason) =
  (Some IDLE, Some None, (unlock_reasons sym (log sm) ++ [reason])%list).
Proof.
  unfold view, unlock_pair; simpl.
  rewrite !lookup_insert_eq, unlock_reasons_snoc; simpl.
  by rewrite String.eqb_refl.
Qed.

Lemma view_unlock_other sym s sm reason :
  s ≠ sym -> view sym (unlock_pair sm s reason) = view sym sm.
Proof.
  intros Hne. unfold view, unlock_pair; simpl.
  rewrite !lookup_insert_ne, unlock_reasons_snoc by done; simpl.
  apply String.eqb_neq in Hne. by rewrite Hne, app_nil_r.
Qed.

Lemma resolve_item_same prices sm sym p :
  view sym (resolve_item prices sm (sym, p)) = turn prices sym p (view sym sm).
Proof.
  unfold resolve_item, turn; simpl.
  destruct p as [pos|]; [|done].
  destruct (prices !! sym) as [price|]; [|done].
  repeat case_match; try done;
    rewrite view_unlock_same; unfold emit; simpl;
    rewrite unlock_reasons_snoc; simpl; by rewrite app_nil_r.
Qed.

Lemma resolve_item_other prices sm sym item :
  item.1 ≠ sym -> view sym (resolve_item prices sm item) = view sym sm.
Proof.
  intros Hne. unfold resolve_item.
  repeat case_match; try done;
    rewrite view_unlock_other by done; by apply view_emit_hit.
Qed.

Lemma foldl_resolve_absent prices sym
    (l : list (string * option VirtualPosition)) sm :
  sym ∉ l.*1 ->
  view sym (foldl (resolve_item prices) sm l) = view sym sm.
Proof.
  revert sm. induction l as [|item l IH]; intros sm Hnin; [done|].
  simpl in *. apply not_elem_of_cons in Hnin as [Hne Hnin].
  rewrite IH by done. apply resolve_item_other. congruence.
Qed.

Lemma foldl_resolve_present prices sym p
    (l : list (string * option VirtualPosition)) sm :
  NoDup l.*1 -> (sym, p) ∈ l ->
  view sym (foldl (resolve_item prices) sm l) = turn prices sym p (view sym sm).
Proof.
  revert sm. induction l as [|item l IH]; intros sm Hnd Hin.
  - by apply elem_of_nil in Hin.
  - simpl in *. apply NoDup_cons in Hnd as [Hfresh Hnd].
    apply elem_of_cons in Hin as [<-|Hin].
    + rewrite foldl_resolve_absent by done. apply resolve_item_same.
    + rewrite IH by done. f_equal. apply resolve_item_other.
      intros Heq. apply Hfresh. rewrite Heq.
      apply list_elem_of_fmap. by exists (sym, p).
Qed.

(** The whole call, seen from one symbol. *)
Lemma update_view sm prices sym :
  view sym (update_virtual_positions sm prices) =
  match _positions sm !! sym with
  | Some p => turn prices sym p (view sym sm)
  | None => view sym sm
  end.
Proof.
  unfold update_virtual_positions.
  destruct (_positions sm !! sym) as [p|] eqn:E.
  - apply foldl_resolve_present.
    + apply NoDup_fst_map_to_list.
    + by apply elem_of_map_to_list.
  - apply foldl_resolve_absent.
    intros Hin. apply list_elem_of_fmap in Hin as [[s p] [-> Hin]].
    apply elem_of_map_to_list in Hin. simpl in *. congruence.
Qed.

Lemma foldl_insert_const {V : Type} (v : V) (pairs : list string)
    (d : gmap string V) sym (x : V) :
  foldl (fun d p => <[p := v]> d) d pairs !! sym = Some x ->
  x = v ∨ d !! sym = Some x.
Proof.
  revert d. induction pairs as [|p pairs IH]; intros d H; simpl in H.
  - by right.
  - apply IH in H as [->|H]; [by left|].
    destruct (decide (p = sym)) as [->|Hne].
    + rewrite lookup_insert_eq in H. left. congruence.
    + rewrite lookup_insert_ne in H by done. by right.
Qed.

Lemma init_invariant (pairs : list string) :
  position_iff_open (StateManager_init pairs).
Proof.
  intros sym. unfold get_position, get_state, StateManager_init; simpl.
  split; intros H; exfalso; apply H; clear H.
  - destruct (foldl _ _ _ !! sym) as [x|] eqn:E; [|done].
    apply foldl_insert_const in E as [->|E]; [done|].
    by rewrite lookup_empty in E.
  - destruct (foldl _ _ _ !! sym) as [x|] eqn:E; [|done].
    apply foldl_insert_const in E as [->|E]; [done|].
    by rewrite lookup_empty in E.
Qed.

Lemma emit_invariant sm (r : LogRecord) :
  position_iff_open sm -> position_iff_open (emit sm r).
Proof. done. Qed.

Lemma unlock_invariant sm s reason :
  position_iff_open sm -> position_iff_open (unlock_pair sm s reason).
Proof.
  intros Hinv sym. specialize (Hinv sym).
  unfold get_position, get_state, unlock_pair in *; simpl.
  destruct (decide (s = sym)) as [->|Hne].
  - rewrite !lookup_insert_eq. split; intros H; by exfalso.
  - by rewrite !lookup_insert_ne.
Qed.

Lemma lock_invariant sm s dir (e t l r : Q) (sc : Z) :
  position_iff_open sm ->
  position_iff_open (lock_pair sm s dir e t l r sc).2.
Proof.
  intros Hinv. unfold lock_pair.
  destruct (is_idle sm s); simpl.
  - intros sym. specialize (Hinv sym).
    unfold get_position, get_state in *; simpl.
    destruct (decide (s = sym)) as [->|Hne].
    + rewrite !lookup_insert_eq. split; intros _; [|done].
      by destruct (String.eqb dir "LONG").
    + by rewrite !lookup_insert_ne.
  - destruct (_states sm !! s); simpl; [by apply emit_invariant|done].
Qed.

Lemma resolve_item_invariant prices sm item :
  position_iff_open sm -> position_iff_open (resolve_item prices sm item).
Proof.
  intros Hinv. unfold resolve_item.
  repeat case_match; try done; by apply unlock_invariant, emit_invariant.
Qed.

Lemma update_invariant sm prices :
  position_iff_open sm ->
  position_iff_open (update_virtual_positions sm prices).
Proof.
  unfold update_virtual_positions.
  generalize (map_to_list (_positions sm)). intros l. revert sm.
  induction l as [|item l IH]; intros sm Hinv; simpl; [done|].
  by apply IH, resolve_item_invariant.
Qed.

Lemma foldl_fixed {A B : Type} (f : A -> B -> A) (a : A) (l : list B) :
  (∀ x, x ∈ l -> f a x = a) -> foldl f a l = a.
Proof.
  induction l as [|x l IH]; intros H; simpl; [done|].
  rewrite (H x) by apply list_elem_of_here.
  apply IH. intros y Hy. apply H. by apply list_elem_of_further.
Qed.

Lemma is_idle_lookup sm sym :
  is_idle sm sym = true <-> _states sm !! sym = Some IDLE.
Proof.
  unfold is_idle. destruct (_states sm !! sym) as [[]|]; split; congruence.
Qed.

Lemma lock_pair_idle sm sym dir (e t l r : Q) (sc : Z) :
  is_idle sm sym = true ->
  lock_pair sm sym dir e t l r sc =
  (Ok true,
   mkStateManager
     (<[sym := if String.eqb dir "LONG" then LONG else SHORT]> (_states sm))
     (<[sym := Some (mkVirtualPosition sym dir e t l r sc)]> (_positions sm))
     (log sm ++ [LogLocked (mkVirtualPosition sym dir e t l r sc)])).
Proof. intros H. unfold lock_pair. by rewrite H. Qed.

Lemma lock_pair_refused sm sym dir (e t l r : Q) (sc : Z) :
  get_state sm sym <> IDLE ->
  ∃ sm', lock_pair sm sym dir e t l r sc = (Ok false, sm')
         ∧ _states sm' = _states sm ∧ _positions sm' = _positions sm.
Proof.
  intros Hst. unfold lock_pair, is_idle, get_state in *.
  destruct (_states sm !! sym) as [[]|]; simpl; try done; eauto.
Qed.

(** C3: [lock_pair] on an idle symbol moves it to LONG or SHORT (as
    [direction] says), stores the new position and returns [True]; on a
    symbol whose state is LONG or SHORT it returns [False] and changes
    neither the state map nor the position map.  So of two successive
    attempts on an idle symbol the first succeeds and the second, whatever
    its arguments, is refused. *)
Theorem lock_pair_once sm sym dir (e t l r : Q) (sc : Z) :
  (is_idle sm sym = true ->
   ∃ sm',
     lock_pair sm sym dir e t l r sc = (Ok true, sm')
     ∧ _states sm' =
       <[sym := if String.eqb dir "LONG" then LONG else SHORT]> (_states sm)
     ∧ _positions sm' =
       <[sym := Some (mkVirtualPosition sym dir e t l r sc)]> (_positions sm)
     ∧ (dir = "LONG" -> get_state sm' sym = LONG)
     ∧ (dir = "SHORT" -> get_state sm' sym = SHORT)
     ∧ get_position sm' sym = Some (mkVirtualPosition sym dir e t l r sc)
     ∧ ∀ dir2 (e2 t2 l2 r2 : Q) (sc2 : Z),
         ∃ sm'', lock_pair sm' sym dir2 e2 t2 l2 r2 sc2 = (Ok false, sm'')
                 ∧ _states sm'' = _states sm'
                 ∧ _positions sm'' = _positions sm')
  ∧ (get_state sm sym <> IDLE ->
     ∃ sm',
       lock_pair sm sym dir e t l r sc = (Ok false, sm')
       ∧ _states sm' = _states sm
       ∧ _positions sm' = _positions sm).
Proof.
  split; [|apply lock_pair_refused].
  intros Hidle. rewrite (lock_pair_idle _ _ _ _ _ _ _ _ Hidle).
  eexists; split; [reflexivity|]; simpl.
  repeat split.
  - intros ->. unfold get_state; simpl. by rewrite lookup_insert_eq.
  - intros ->. unfold get_state; simpl. by rewrite lookup_insert_eq.
  - unfold get_position; simpl. by rewrite lookup_insert_eq.
  - intros. apply lock_pair_refused. unfold get_state; simpl.
    rewrite lookup_insert_eq. by destruct (String.eqb dir "LONG").
Qed.

Lemma lock_pair_once_witness :
  is_idle sm_idle btc = true
  ∧ get_state sm_long btc <> IDLE
  ∧ (lock_pair sm_idle btc "LONG" 100 110 95 2 4).1 = Ok true
  ∧ (lock_pair sm_long btc "SHORT" 100 90 105 2 (-4)).1 = Ok false.
Proof.
  split; [reflexivity|]. split; [discriminate|]. split.
  - destruct (proj1 (lock_pair_once sm_idle btc "LONG" 100 110 95 2 4)
                eq_refl) as (sm' & -> & _).
    reflexivity.
  - assert (Hst : get_state sm_long btc <> IDLE) by discriminate.
    destruct (proj2 (lock_pair_once sm_long btc "SHORT" 100 90 105 2 (-4))
                Hst) as (sm' & -> & _).
    reflexivity.
Defined.

(** C4: for an open position, [update_virtual_positions] tests the
    take-profit before the stop-loss.  LONG: closed with TP_HIT when
    [price >= tp], otherwise with SL_HIT when [price <= sl].  SHORT: closed
    with TP_HIT when [price <= tp], otherwise with SL_HIT when
    [price >= sl].  A close puts the symbol back to IDLE and clears its
    position.  In every other case (no price for the symbol, a price inside
    the band, a direction that is neither LONG nor SHORT) the state and the
    position of the symbol are untouched. *)
Theorem update_virtual_positions_resolves sm prices sym pos :
  _positions sm !! sym = Some (Some pos) ->
  let sm' := update_virtual_positions sm prices in
  (prices !! sym = None -> untouched sym sm sm')
  ∧ (direction pos <> "LONG" -> direction pos <> "SHORT" ->
     untouched sym sm sm')
  ∧ ∀ price, prices !! sym = Some price ->
      (direction pos = "LONG" ->
         ((tp pos <= price)%Q -> closed_with "TP_HIT" sym sm sm')
         ∧ (¬ (tp pos <= price)%Q -> (price <= sl pos)%Q ->
            closed_with "SL_HIT" sym sm sm')
         ∧ (¬ (tp pos <= price)%Q -> ¬ (price <= sl pos)%Q ->
            untouched sym sm sm'))
      ∧ (direction pos = "SHORT" ->
         ((price <= tp pos)%Q -> closed_with "TP_HIT" sym sm sm')
         ∧ (¬ (price <= tp pos)%Q -> (sl pos <= price)%Q ->
            closed_with "SL_HIT" sym sm sm')
         ∧ (¬ (price <= tp pos)%Q -> ¬ (sl pos <= price)%Q ->
            untouched sym sm sm')).
Proof.
  intros Hpos sm'. unfold untouched, closed_with. subst sm'.
  rewrite update_view, Hpos. unfold turn.
  split; [by intros ->|]. split.
  - intros H1 H2. apply String.eqb_neq in H1, H2. rewrite H1, H2.
    by destruct (prices !! sym).
  - intros price ->. split.
    + intros Hd. rewrite Hd; simpl. repeat split.
      * intros H. by rewrite (Qle_bool_true _ _ H).
      * intros H1 H2.
        by rewrite (Qle_bool_nle _ _ H1), (Qle_bool_true _ _ H2).
      * intros H1 H2.
        by rewrite (Qle_bool_nle _ _ H1), (Qle_bool_nle _ _ H2).
    + intros Hd. rewrite Hd; simpl. repeat split.
      * intros H. by rewrite (Qle_bool_true _ _ H).
      * intros H1 H2.
        by rewrite (Qle_bool_nle _ _ H1), (Qle_bool_true _ _ H2).
      * intros H1 H2.
        by rewrite (Qle_bool_nle _ _ H1), (Qle_bool_nle _ _ H2).
Qed.

Lemma update_virtual_positions_resolves_witness :
  _positions sm_long !! btc
  = Some (Some (mkVirtualPosition btc "LONG" 100 110 95 2 4))
  ∧ closed_with "TP_HIT" btc sm_long
      (update_virtual_positions sm_long {[btc := 110%Q]})
  ∧ closed_with "SL_HIT" btc sm_long
      (update_virtual_positions sm_long {[btc := 90%Q]})
  ∧ untouched btc sm_long
      (update_virtual_positions sm_long {[btc := 100%Q]})
  ∧ untouched btc sm_long
      (update_virtual_positions sm_long {[doge := 110%Q]}).
Proof.
  pose (pos := mkVirtualPosition btc "LONG" 100 110 95 2 4).
  assert (Hpos : _positions sm_long !! btc = Some (Some pos))
    by reflexivity.
  split; [exact Hpos|]. split; [|split; [|split]].
  - refine (proj1 (proj1 (proj2 (proj2
      (update_virtual_positions_resolves sm_long {[btc := 110%Q]} btc pos
         Hpos)) 110%Q eq_refl) eq_refl) _).
    simpl. unfold Qle; simpl. lia.
  - refine (proj1 (proj2 (proj1 (proj2 (proj2
      (update_virtual_positions_resolves sm_long {[btc := 90%Q]} btc pos
         Hpos)) 90%Q eq_refl) eq_refl)) _ _);
      simpl; unfold Qle; simpl; lia.
  - refine (proj2 (proj2 (proj1 (proj2 (proj2
      (update_virtual_positions_resolves sm_long {[btc := 100%Q]} btc pos
         Hpos)) 100%Q eq_refl) eq_refl)) _ _);
      simpl; unfold Qle; simpl; lia.
  - exact (proj1 (update_virtual_positions_resolves sm_long
                    {[doge := 110%Q]} btc pos Hpos) eq_refl).
Defined.

(** C8: a successful lock followed at once by
    [update_virtual_positions({symbol: price})] with a price strictly
    inside the band gives back the manager the lock produced: the state
    and the stored position of the symbol are those the lock created. *)
Theorem lock_then_update_inside_band sm sym dir (e t l r : Q) (sc : Z)
    (price : Q) :
  is_idle sm sym = true ->
  (dir = "LONG" ∧ (l < price)%Q ∧ (price < t)%Q)
  ∨ (dir = "SHORT" ∧ (t < price)%Q ∧ (price < l)%Q) ->
  ∃ sm1,
    lock_pair sm sym dir e t l r sc = (Ok true, sm1)
    ∧ update_virtual_positions sm1 {[sym := price]} = sm1
    ∧ get_state (update_virtual_positions sm1 {[sym := price]}) sym
      = (if String.eqb dir "LONG" then LONG else SHORT)
    ∧ get_position (update_virtual_positions sm1 {[sym := price]}) sym
      = Some (mkVirtualPosition sym dir e t l r sc).
Proof.
  intros Hidle Hband. rewrite (lock_pair_idle _ _ _ _ _ _ _ _ Hidle).
  eexists. split; [reflexivity|].
  match goal with |- update_virtual_positions ?m _ = _ ∧ _ =>
    set (sm1 := m) end.
  assert (Hfix : update_virtual_positions sm1 {[sym := price]} = sm1).
  { unfold update_virtual_positions. apply foldl_fixed.
    intros [s p] Hin. apply elem_of_map_to_list in Hin.
    unfold resolve_item; simpl.
    destruct p as [pos|]; [|done].
    destruct (decide (s = sym)) as [->|Hne].
    - rewrite lookup_singleton_eq. unfold sm1 in Hin; simpl in Hin.
      rewrite lookup_insert_eq in Hin. injection Hin as <-. simpl.
      destruct Hband as [(-> & H1 & H2)|(-> & H1 & H2)]; simpl.
      + by rewrite (Qle_bool_false _ _ H2), (Qle_bool_false _ _ H1).
      + by rewrite (Qle_bool_false _ _ H2), (Qle_bool_false _ _ H1).
    - by rewrite lookup_singleton_ne. }
  rewrite Hfix. split; [done|].
  unfold get_state, get_position; simpl. by rewrite !lookup_insert_eq.
Qed.

Lemma lock_then_update_inside_band_witness :
  is_idle sm_idle btc = true
  ∧ update_virtual_positions sm_long {[btc := 100%Q]} = sm_long.
Proof.
  split; [reflexivity|].
  assert (Hband : ("LONG" = "LONG" ∧ (95 < 100)%Q ∧ (100 < 110)%Q)
                  ∨ ("LONG" = "SHORT" ∧ (110 < 100)%Q ∧ (100 < 95)%Q)).
  { left. split; [reflexivity|]. split; reflexivity. }
  destruct (lock_then_update_inside_band sm_idle btc "LONG" 100 110 95 2 4
              100 eq_refl Hband) as (sm1 & Hlock & Hfix & _).
  injection Hlock as <-. exact Hfix.
Defined.

(** C9: in every state of the manager reachable from its construction by
    [lock_pair], [unlock_pair] and [update_virtual_positions] calls, a
    symbol holds a position if and only if its state is not IDLE. *)
Theorem reachable_position_iff_open sm :
  reachable sm -> position_iff_open sm.
Proof.
  induction 1 as [pairs|sm c _ IH].
  - apply init_invariant.
  - destruct c; simpl.
    + by apply lock_invariant.
    + by apply unlock_invariant.
    + by apply update_invariant.
Qed.

Lemma reachable_position_iff_open_witness :
  reachable sm_long
  ∧ (get_position sm_long btc <> None <-> get_state sm_long btc <> IDLE).
Proof.
  assert (Hr : reachable sm_long).
  { apply (reachable_call sm_idle (CallLock btc "LONG" 100 110 95 2 4)).
    apply reachable_init. }
  split; [exact Hr|].
  exact (reachable_position_iff_open sm_long Hr btc).
Defined.

Lemma lock_pair_untracked sm sym dir (e t l r : Q) (sc : Z) :
  _states sm !! sym = None ->
  get_state sm sym = IDLE
  ∧ is_idle sm sym = false
  ∧ lock_pair sm sym dir e t l r sc = (Raise KeyError, sm).
Proof.
  intros H. unfold get_state, is_idle, lock_pair, is_idle. by rewrite H.
Qed.

(** C10: on a symbol the manager does not track, [get_state] answers IDLE
    and [is_idle] answers [False]; [lock_pair] then creates no position,
    but it does not return [False]: building the warning it subscripts
    [self._states] with the missing key and raises [KeyError]. *)
Theorem lock_pair_untracked_raises :
  get_state sm_idle doge = IDLE
  ∧ is_idle sm_idle doge = false
  ∧ lock_pair sm_idle doge "LONG" 100 110 95 2 4 = (Raise KeyError, sm_idle).
Proof. by apply lock_pair_untracked. Qed.

End Registry.

(** ** Indexing and rolling windows *)

Lemma res_bind_ok {A B : Type} (a : A) (k : A -> res B) : Ok a ≫= k = k a.
Proof. reflexivity. Qed.

(** Run the binds whose left side is already a value, leaving the
    arithmetic as it stands. *)
Ltac run := rewrite ?res_bind_ok; cbv beta zeta.

Section Frames.

Context {A : Type}.
Implicit Types (xs : list A).

Lemma iloc_elem xs (i : Z) (x : A) : iloc xs i = Ok x -> x ∈ xs.
Proof.
  unfold iloc. destruct (_ <? 0)%Z; [done|].
  destruct (xs !! _) as [y|] eqn:E; [|done].
  intros [= <-]. by eapply list_elem_of_lookup_2.
Qed.

Lemma iloc_from_end xs (k : nat) :
  (1 <= k <= length xs)%nat ->
  ∃ x, xs !! (length xs - k)%nat = Some x ∧ iloc xs (- Z.of_nat k) = Ok x.
Proof.
  intros Hk. unfold iloc, py_index.
  assert ((- Z.of_nat k <? 0)%Z = true) as -> by lia.
  assert ((Z.of_nat (length xs) + - Z.of_nat k <? 0)%Z = false) as -> by lia.
  replace (Z.to_nat (Z.of_nat (length xs) + - Z.of_nat k))
    with (length xs - k)%nat by lia.
  assert (Hs : is_Some (xs !! (length xs - k)%nat))
    by (apply lookup_lt_is_Some_2; lia).
  destruct Hs as [x Hx]. exists x. rewrite Hx. by split.
Qed.

Lemma iloc_from_end_ok xs (k : nat) :
  (1 <= k <= length xs)%nat -> ∃ x, iloc xs (- Z.of_nat k) = Ok x.
Proof.
  intros Hk. destruct (iloc_from_end xs k Hk) as (x & _ & H). by exists x.
Qed.

Lemma iloc_last_ok xs :
  (1 <= length xs)%nat -> ∃ x, iloc xs (-1) = Ok x.
Proof. intros H. apply (iloc_from_end_ok xs 1). lia. Qed.

Lemma iloc_last_but_one_ok xs :
  (2 <= length xs)%nat -> ∃ x, iloc xs (-2) = Ok x.
Proof. intros H. apply (iloc_from_end_ok xs 2). lia. Qed.

Lemma iloc_from_start_ok xs (i : Z) :
  (0 <= i < Z.of_nat (length xs))%Z -> ∃ x, iloc xs i = Ok x.
Proof.
  intros Hi. unfold iloc, py_index.
  assert (Hneg : (i <? 0)%Z = false) by lia.
  assert (Hs : is_Some (xs !! Z.to_nat i))
    by (apply lookup_lt_is_Some_2; lia).
  destruct Hs as [x Hx]. rewrite !Hneg, Hx. by exists x.
Qed.

Lemma length_rolling_windows (w : nat) xs :
  length (rolling_windows w xs) = length xs.
Proof. unfold rolling_windows. by rewrite length_map, length_seq. Qed.

End Frames.

Lemma rolling_mean_ok (w mp : nat) (xs : list (option Q)) :
  (mp <= w)%nat ->
  ∃ ys, rolling_mean w mp xs = Ok ys ∧ length ys = length xs.
Proof.
  intros H. unfold rolling_mean.
  assert ((w <? mp)%nat = false) as -> by (apply Nat.ltb_ge; lia).
  eexists; split; [reflexivity|].
  by rewrite length_map, length_rolling_windows.
Qed.

Lemma rolling_sum_ok (w mp : nat) (xs : list (option Q)) :
  (mp <= w)%nat ->
  ∃ ys, rolling_sum w mp xs = Ok ys ∧ length ys = length xs.
Proof.
  intros H. unfold rolling_sum.
  assert ((w <? mp)%nat = false) as -> by (apply Nat.ltb_ge; lia).
  eexists; split; [reflexivity|].
  by rewrite length_map, length_rolling_windows.
Qed.

Lemma length_true_range_from (pc : option Q) (df : DataFrame) :
  length (true_range_from pc df) = length df.
Proof.
  revert pc. induction df as [|c df IH]; intros pc; simpl; [done|].
  by rewrite IH.
Qed.

(** ** The quality gate *)

Section Gate.

Variable cfg : Config.

Lemma gate_short (df : DataFrame) :
  (length df < ATR_MA_PERIOD cfg + ATR_PERIOD cfg + 2)%nat ->
  gate_anti_wash_trading cfg df = Ok false.
Proof.
  intros H. unfold gate_anti_wash_trading.
  apply Nat.ltb_lt in H. rewrite H. by rewrite orb_true_r.
Qed.

Lemma gate_in_band (df : DataFrame) (candle : Candle) :
  (ATR_MA_PERIOD cfg + ATR_PERIOD cfg + 2 <= length df)%nat ->
  iloc df (-2) = Ok candle ->
  (WASH_TRADE_TAKER_RATIO_LOW cfg
   <= taker_buy_volume candle / volume candle)%Q ->
  (taker_buy_volume candle / volume candle
   <= WASH_TRADE_TAKER_RATIO_HIGH cfg)%Q ->
  gate_anti_wash_trading cfg df = Ok false.
Proof.
  intros Hlen Hc Hlo Hhi. unfold gate_anti_wash_trading.
  assert ((length df =? 0)%nat = false) as -> by (apply Nat.eqb_neq; lia).
  assert ((length df <? ATR_MA_PERIOD cfg + ATR_PERIOD cfg + 2)%nat = false)
    as -> by (apply Nat.ltb_ge; lia).
  simpl. rewrite Hc; simpl.
  destruct (Qle_bool (volume candle) 0); [done|].
  destruct (Qlt_bool _ (MIN_VOLUME_EFFICIENCY cfg)); [done|].
  unfold compute_atr.
  destruct (rolling_mean_ok (ATR_PERIOD cfg) (ATR_PERIOD cfg)
              (map Some (true_range df))) as (atr & -> & Hatr); [lia|].
  simpl.
  destruct (rolling_mean_ok (ATR_MA_PERIOD cfg) (ATR_MA_PERIOD cfg) atr)
    as (ma & -> & Hma); [lia|].
  simpl.
  unfold true_range in Hatr.
  rewrite length_map, length_true_range_from in Hatr.
  destruct (iloc_last_but_one_ok atr) as [a ->]; [lia|].
  destruct (iloc_last_but_one_ok ma) as [m ->]; [lia|].
  simpl. destruct a as [a|], m as [m|]; try done.
  destruct (Qlt_bool a m); [done|].
  by rewrite (Qle_bool_true _ _ Hlo), (Qle_bool_true _ _ Hhi).
Qed.

End Gate.

(** C7: on a window of sufficient length whose second-to-last candle has
    positive volume, the gate answers [False] whenever the ratio
    [taker_buy_volume / volume] of that candle lies in the closed band
    [[WASH_TRADE_TAKER_RATIO_LOW, WASH_TRADE_TAKER_RATIO_HIGH]]; with the
    default band [[0.49, 0.51]] a ratio of exactly one half fails it. *)
Theorem gate_rejects_balanced_taker_flow (df : DataFrame)
    (candle : Candle) :
  iloc df (-2) = Ok candle ->
  (0 < volume candle)%Q ->
  (∀ cfg,
     (ATR_MA_PERIOD cfg + ATR_PERIOD cfg + 2 <= length df)%nat ->
     (WASH_TRADE_TAKER_RATIO_LOW cfg
      <= taker_buy_volume candle / volume candle)%Q ->
     (taker_buy_volume candle / volume candle
      <= WASH_TRADE_TAKER_RATIO_HIGH cfg)%Q ->
     gate_anti_wash_trading cfg df = Ok false)
  ∧ ((40 <= length df)%nat ->
     (taker_buy_volume candle / volume candle == 1 # 2)%Q ->
     gate_anti_wash_trading defaults df = Ok false).
Proof.
  intros Hc Hvol. split.
  - intros cfg Hlen Hlo Hhi. by eapply gate_in_band.
  - intros Hlen Hhalf. eapply gate_in_band; [simpl; lia|done|..];
      rewrite Hhalf; simpl; unfold Qle; simpl; lia.
Qed.

Lemma gate_rejects_balanced_taker_flow_witness :
  iloc (widening_window 5000) (-2) = Ok (widening_candle 5000 38)
  ∧ (0 < volume (widening_candle 5000 38))%Q
  ∧ gate_anti_wash_trading defaults (widening_window 5000) = Ok false
  ∧ gate_anti_wash_trading defaults (widening_window 8000) = Ok true.
Proof.
  pose proof (gate_rejects_balanced_taker_flow (widening_window 5000)
                (widening_candle 5000 38) eq_refl eq_refl) as [Hany Hhalf].
  split; [reflexivity|]. split; [reflexivity|]. split.
  - assert (Hsame : gate_anti_wash_trading defaults (widening_window 5000)
                    = Ok false).
    { apply Hany; [vm_compute; lia|vm_compute; discriminate ..]. }
    apply Hhalf; [vm_compute; lia|reflexivity].
  - vm_compute. reflexivity.
Defined.

(** ** The volume profile *)

Section Profile.

Lemma Qlt_bool_true (x y : Q) : Qlt_bool x y = true <-> (x < y)%Q.
Proof.
  unfold Qlt_bool. rewrite negb_true_iff. split.
  - intros H. apply Qnot_le_lt. intros Hle.
    apply Qle_bool_iff in Hle. congruence.
  - intros H. by apply Qle_bool_false.
Qed.

Lemma Qlt_bool_false_iff (x y : Q) : Qlt_bool x y = false <-> (y <= x)%Q.
Proof.
  unfold Qlt_bool. rewrite negb_false_iff. apply Qle_bool_iff.
Qed.

Lemma In_foldl_Qmin (x : Q) (rest : list Q) :
  In (foldl Qmin x rest) (x :: rest).
Proof.
  revert x. induction rest as [|y rest IH]; intros x; simpl; [by left|].
  destruct (IH (Qmin x y)) as [H|H]; [|by right; right].
  rewrite <- H. unfold Qmin, GenericMinMax.gmin.
  destruct (x ?= y)%Q; auto.
Qed.

Lemma In_foldl_Qmax (x : Q) (rest : list Q) :
  In (foldl Qmax x rest) (x :: rest).
Proof.
  revert x. induction rest as [|y rest IH]; intros x; simpl; [by left|].
  destruct (IH (Qmax x y)) as [H|H]; [|by right; right].
  rewrite <- H. unfold Qmax, GenericMinMax.gmax.
  destruct (x ?= y)%Q; auto.
Qed.

Lemma col_min_In (xs : list Q) (m : Q) : col_min xs = Some m -> In m xs.
Proof.
  destruct xs as [|x rest]; [done|]. intros [= <-]. apply In_foldl_Qmin.
Qed.

Lemma col_max_In (xs : list Q) (m : Q) : col_max xs = Some m -> In m xs.
Proof.
  destruct xs as [|x rest]; [done|]. intros [= <-]. apply In_foldl_Qmax.
Qed.

Lemma col_min_is_Some (xs : list Q) :
  (1 <= length xs)%nat -> ∃ m, col_min xs = Some m.
Proof. destruct xs; simpl; [lia|eauto]. Qed.

Lemma col_max_is_Some (xs : list Q) :
  (1 <= length xs)%nat -> ∃ m, col_max xs = Some m.
Proof. destruct xs; simpl; [lia|eauto]. Qed.

Lemma In_removelast {A : Type} (x : A) (l : list A) :
  In x (removelast l) -> In x l.
Proof.
  induction l as [|y l IH]; simpl; [done|].
  destruct l as [|z l]; [done|]. simpl in *. intros [H|H]; auto.
Qed.

Lemma In_tail {A : Type} (x : A) (l : list A) : In x (tail l) -> In x l.
Proof. destruct l; simpl; auto. Qed.

Lemma In_zip_with {A B C : Type} (f : A -> B -> C) (l : list A)
    (k : list B) (z : C) :
  In z (zip_with f l k) -> ∃ x y, z = f x y ∧ In x l ∧ In y k.
Proof.
  intros H. apply list_elem_of_In, elem_of_zip_with in H
    as (x & y & -> & Hx & Hy).
  exists x, y. by rewrite <- !list_elem_of_In.
Qed.

(** Every sample of [np.linspace(a, b, n + 1)] is at least [a] when
    [a <= b]. *)
Lemma np_linspace_lower (a b : Q) (n : nat) (e : Q) :
  (a <= b)%Q -> In e (np_linspace a b (S n)) -> (a <= e)%Q.
Proof.
  intros Hab. unfold np_linspace. destruct n as [|n].
  - intros [<-|[]]. lra.
  - intros H. apply in_app_or in H as [H|[<-|[]]]; [|done].
    apply in_map_iff in H as (i & <- & _).
    assert (Hstep : (0 <= (b - a) / inject_Z (Z.of_nat (S n)))%Q).
    { apply Qle_shift_div_l; [|lra].
      change 0%Q with (inject_Z 0). rewrite <- Zlt_Qlt. lia. }
    assert (Hi : (0 <= inject_Z (Z.of_nat i))%Q).
    { change 0%Q with (inject_Z 0). rewrite <- Zle_Qle. lia. }
    pose proof (Qmult_le_0_compat _ _ Hi Hstep). lra.
Qed.

Lemma In_sort_insert (x y : Q) (l : list Q) :
  In x (sort_insert y l) -> x = y ∨ In x l.
Proof.
  induction l as [|z l IH]; simpl.
  - intros [<-|[]]. by left.
  - destruct (Qle_bool y z); simpl.
    + intros [<-|H]; auto.
    + intros [<-|H]; auto. destruct (IH H); auto.
Qed.

Lemma In_np_sort (x : Q) (l : list Q) : In x (np_sort l) -> In x l.
Proof.
  induction l as [|y l IH]; simpl; [done|].
  intros H. apply In_sort_insert in H as [->|H]; auto.
Qed.

Lemma length_sort_insert (y : Q) (l : list Q) :
  length (sort_insert y l) = S (length l).
Proof.
  induction l as [|z l IH]; simpl; [done|].
  destruct (Qle_bool y z); simpl; [done|]. by rewrite IH.
Qed.

Lemma length_np_sort (l : list Q) : length (np_sort l) = length l.
Proof.
  induction l as [|y l IH]; simpl; [done|].
  by rewrite length_sort_insert, IH.
Qed.

Lemma In_select_hvn (x : Q) (mids vols : list Q) (th : Q) :
  In x (select_hvn mids vols th) -> In x mids.
Proof.
  unfold select_hvn. intros H.
  apply in_map_iff in H as ([m v] & <- & H).
  apply filter_In in H as [H _].
  apply list_elem_of_In in H. apply list_elem_of_In. simpl.
  by eapply elem_of_zip_l.
Qed.

Lemma length_np_add_at (bins : list Q) (indices : list nat)
    (values : list Q) :
  length (np_add_at bins indices values) = length bins.
Proof.
  unfold np_add_at. generalize (zip indices values). intros l. revert bins.
  induction l as [|iv l IH]; intros bins; simpl; [done|].
  by rewrite IH, length_alter.
Qed.

Lemma np_percentile_ok (a : list Q) (q : Q) :
  (1 <= length a)%nat -> (0 <= q)%Q -> (q <= 100)%Q ->
  ∃ v, np_percentile a q = Ok v.
Proof.
  intros Hlen H0 H100. unfold np_percentile.
  assert (Qlt_bool q 0 = false) as -> by by apply Qlt_bool_false_iff.
  assert (Qlt_bool 100 q = false) as -> by by apply Qlt_bool_false_iff.
  simpl. pose proof (length_np_sort a) as Hs.
  destruct (np_sort a) as [|s0 s]; simpl in *; [lia|]. eauto.
Qed.

Lemma sane_profile_spec (cfg : Config) :
  sane_profile cfg = true ->
  (1 <= VP_BINS cfg)%nat
  ∧ (0 <= HVN_PERCENTILE cfg)%Q ∧ (HVN_PERCENTILE cfg <= 100)%Q.
Proof.
  unfold sane_profile. intros H.
  repeat (apply andb_prop in H as [H ?]).
  repeat split; try (by apply Nat.leb_le); by apply Qle_bool_iff.
Qed.

(** The histogram of a window with a proper price range: it exists as soon
    as there is a bin, and no midpoint lies below the range. *)
Lemma volume_bins_ok (bins : nat) (price_min price_max : Q) (df : DataFrame) :
  (1 <= bins)%nat -> (price_min <= price_max)%Q ->
  ∃ mids vols,
    volume_bins bins price_min price_max df = Ok (mids, vols)
    ∧ length vols = bins
    ∧ ∀ m, In m mids -> (price_min <= m)%Q.
Proof.
  intros Hb Hr. unfold volume_bins.
  assert ((bins =? 0)%nat = false) as -> by (apply Nat.eqb_neq; lia).
  eexists _, _. split; [reflexivity|]. split.
  - by rewrite length_np_add_at, length_replicate.
  - intros m Hm. apply In_zip_with in Hm as (x & y & -> & Hx & Hy).
    apply In_removelast in Hx. apply In_tail in Hy.
    replace (bins + 1)%nat with (S bins) in * by lia.
    pose proof (np_linspace_lower _ _ _ _ Hr Hx).
    pose proof (np_linspace_lower _ _ _ _ Hr Hy).
    apply Qle_shift_div_l; [reflexivity|lra].
Qed.

End Profile.

(** ** The scoring engine *)

Section Scoring.

Variable cfg : Config.
Hypothesis Hcfg : sane_config cfg = true.

Lemma sane_config_spec :
  (1 <= OFI_WINDOW cfg)%nat ∧ (1 <= CVD_WINDOW cfg)%nat
  ∧ (1 <= VP_BINS cfg)%nat
  ∧ (0 <= HVN_PERCENTILE cfg)%Q ∧ (HVN_PERCENTILE cfg <= 100)%Q.
Proof.
  unfold sane_config in Hcfg.
  repeat (apply andb_prop in Hcfg as [Hcfg ?]).
  split; [by apply Nat.leb_le|]. split; [by apply Nat.leb_le|].
  by apply sane_profile_spec.
Qed.

Lemma nonneg_prices_spec (df : DataFrame) (c : Candle) :
  nonneg_prices df = true -> In c df -> (0 <= low c)%Q ∧ (0 <= close c)%Q.
Proof.
  intros H Hc. unfold nonneg_prices in H.
  rewrite forallb_forall in H. apply H in Hc.
  apply andb_prop in Hc as [H1 H2]. split; by apply Qle_bool_iff.
Qed.

Lemma sign_vote_is_vote (x : option Q) : is_vote (sign_vote x).
Proof.
  unfold sign_vote, is_vote. repeat case_match; auto.
Qed.

Lemma py_div_ok (x y : Q) : ¬ (y == 0)%Q -> py_div x y = Ok (x / y)%Q.
Proof.
  intros Hy. unfold py_div. destruct (Qeq_bool y 0) eqn:E; [|done].
  apply Qeq_bool_iff in E. contradiction.
Qed.

Lemma score_ofi_ok (df : DataFrame) :
  (1 <= length df)%nat -> ∃ v, _score_ofi cfg df = Ok v ∧ is_vote v.
Proof.
  intros Hlen. destruct sane_config_spec as (Hofi & _).
  unfold _score_ofi.
  destruct (rolling_mean_ok (OFI_WINDOW cfg) 1
              (map Some (_compute_ofi df))) as (ms & -> & Hms); [done|].
  unfold _compute_ofi in Hms. rewrite !length_map in Hms. simpl.
  destruct (iloc_last_ok ms) as [m ->]; [lia|]. simpl.
  eexists; split; [reflexivity|apply sign_vote_is_vote].
Qed.

Lemma score_cvd_trend_ok (df : DataFrame) :
  ∃ v, _score_cvd_trend cfg df = Ok v ∧ is_vote v.
Proof.
  destruct sane_config_spec as (_ & Hcvd & _).
  unfold _score_cvd_trend.
  destruct (rolling_sum_ok (CVD_WINDOW cfg) 1
              (map Some (_compute_ofi df))) as (cvd & -> & _); [done|].
  simpl. destruct (length cvd <? 2)%nat eqn:E.
  - exists 0%Z. split; [done|]. right; by left.
  - apply Nat.ltb_ge in E.
    destruct (iloc_last_ok cvd) as [a ->]; [lia|]. simpl.
    destruct (iloc_from_start_ok cvd
      (Z.max 0 (Z.of_nat (length cvd)
                - Z.max 1 (Z.of_nat (CVD_WINDOW cfg) / 2) - 1)))
      as [b ->]; [lia|].
    simpl. eexists; split; [reflexivity|apply sign_vote_is_vote].
Qed.

Lemma length_cumsum_from (acc : Q) (xs : list Q) :
  length (cumsum_from acc xs) = length xs.
Proof.
  revert acc. induction xs as [|x xs IH]; intros acc; simpl; [done|].
  by rewrite IH.
Qed.

Lemma length_compute_vwap (df : DataFrame) :
  length (_compute_vwap df) = length df.
Proof.
  unfold _compute_vwap, cumsum.
  rewrite !length_zip_with, !length_cumsum_from, !length_zip_with,
    !length_map.
  lia.
Qed.

Lemma score_vwap_ok (df : DataFrame) :
  (1 <= length df)%nat -> ∃ v, _score_vwap df = Ok v ∧ is_vote v.
Proof.
  intros Hlen. unfold _score_vwap.
  destruct (iloc_last_ok (map close df)) as [c ->];
    [by rewrite length_map|].
  simpl.
  destruct (iloc_last_ok (_compute_vwap df)) as [v ->];
    [by rewrite length_compute_vwap|].
  simpl. unfold is_vote.
  destruct v as [v|]; repeat case_match; eauto 6.
Qed.

Lemma momentum_score_ok (df : DataFrame) :
  nonneg_prices df = true ->
  ∃ v, momentum_score cfg df = Ok v ∧ is_vote v.
Proof.
  intros Hnn. unfold momentum_score, is_vote.
  destruct (_ <=? length df)%nat eqn:E; [|eauto 6].
  apply Nat.leb_le in E.
  destruct (iloc_last_ok (map close df)) as [now ->];
    [rewrite length_map; lia|].
  simpl.
  destruct (iloc_from_end (map close df) (MOMENTUM_ROC_PERIOD cfg + 1))
    as (ago & Hago & ->); [rewrite length_map; lia|].
  simpl.
  apply list_elem_of_lookup_2, list_elem_of_In, in_map_iff in Hago
    as (c & <- & Hc).
  destruct (nonneg_prices_spec df c Hnn Hc) as [_ Hclose].
  rewrite py_div_ok
    by (change (1e-12)%Q with (1 # 1000000000000)%Q; intros H0; lra).
  simpl. repeat case_match; eauto 6.
Qed.

Lemma momentum_score_vote (df : DataFrame) (m : Z) :
  momentum_score cfg df = Ok m -> is_vote m.
Proof.
  unfold momentum_score, is_vote.
  destruct (_ <=? length df)%nat; [|intros [= <-]; auto].
  destruct (iloc (map close df) (-1)) as [now|]; [|done]. simpl.
  destruct (iloc (map close df) _) as [ago|]; [|done]. simpl.
  destruct (py_div _ _) as [roc|]; [|done]. simpl.
  repeat case_match; intros [= <-]; auto.
Qed.

(** Without a book vote, Condition 4 is the momentum vote. *)
Lemma momentum_alone (df : DataFrame) (orderbook : OrderBook) :
  book_score cfg orderbook = 0%Z ->
  _score_momentum_and_orderbook cfg df orderbook = momentum_score cfg df.
Proof.
  intros Hb. unfold _score_momentum_and_orderbook. rewrite Hb.
  destruct (momentum_score cfg df) as [m|e] eqn:E; [|done].
  destruct (momentum_score_vote df m E) as [->|[->| ->]]; done.
Qed.

Lemma score_momentum_and_orderbook_ok (df : DataFrame)
    (orderbook : OrderBook) :
  nonneg_prices df = true ->
  ∃ v, _score_momentum_and_orderbook cfg df orderbook = Ok v ∧ is_vote v.
Proof.
  intros Hnn. unfold _score_momentum_and_orderbook.
  destruct (momentum_score_ok df Hnn) as (m & -> & _). simpl.
  unfold is_vote. repeat case_match; eauto 6.
Qed.

Lemma get_hvn_levels_ok (df : DataFrame) :
  (1 <= length df)%nat ->
  ∃ levels,
    scoring_engine._get_hvn_levels cfg df = Ok levels
    ∧ ∀ x, In x levels ->
        ∃ m, col_min (map low df) = Some m ∧ (m <= x)%Q.
Proof.
  intros Hlen. destruct sane_config_spec as (_ & _ & Hbins & Hq0 & Hq100).
  unfold scoring_engine._get_hvn_levels, _build_volume_profile.
  destruct (col_min_is_Some (map low df)) as [pmin Hmin];
    [by rewrite length_map|].
  destruct (col_max_is_Some (map high df)) as [pmax Hmax];
    [by rewrite length_map|].
  rewrite Hmin, Hmax.
  destruct (Qle_bool pmax pmin) eqn:E; simpl.
  { exists []. split; [done|]. intros x []. }
  assert (Hr : (pmin <= pmax)%Q).
  { apply Qlt_le_weak, Qnot_le_lt. intros H.
    apply Qle_bool_iff in H. congruence. }
  destruct (volume_bins_ok (VP_BINS cfg) pmin pmax df Hbins Hr)
    as (mids & vols & -> & Hvols & Hmids).
  simpl. destruct (length mids =? 0)%nat.
  { exists []. split; [done|]. intros x []. }
  destruct (np_percentile_ok vols (HVN_PERCENTILE cfg)) as [th ->];
    [lia|done|done|].
  simpl. eexists; split; [reflexivity|].
  intros x Hx. exists pmin. split; [done|].
  by apply Hmids, (In_select_hvn _ _ vols th), In_np_sort.
Qed.

Lemma np_argmin_lt (a : list Q) :
  (1 <= length a)%nat -> (np_argmin a < length a)%nat.
Proof.
  induction a as [|x rest IH]; simpl; [lia|]. intros _.
  destruct rest as [|y r]; [lia|].
  destruct (Qle_bool x _); [lia|].
  assert (np_argmin (y :: r) < length (y :: r))%nat by (apply IH; simpl; lia).
  lia.
Qed.

Lemma score_liquidity_zones_ok (df : DataFrame) :
  nonneg_prices df = true ->
  ∃ v, _score_liquidity_zones cfg df = Ok v ∧ is_vote v.
Proof.
  intros Hnn. unfold _score_liquidity_zones, is_vote.
  destruct (length df <? 22)%nat eqn:E; [eauto 6|].
  apply Nat.ltb_ge in E.
  destruct (iloc_last_ok df) as [last ->]; [lia|]. run.
  destruct (_ && _); [eauto 6|].
  destruct (_ && _); [eauto 6|].
  destruct (get_hvn_levels_ok df) as (levels & -> & Hlv); [lia|].
  run. destruct (length levels =? 0)%nat eqn:El; [eauto 6|].
  apply Nat.eqb_neq in El.
  set (distances := map (fun h => Qabs (h - close last)) levels).
  destruct (iloc_from_start_ok levels (Z.of_nat (np_argmin distances)))
    as [nearest Hn].
  { assert (np_argmin distances < length distances)%nat
      by (apply np_argmin_lt; subst distances; rewrite length_map; lia).
    subst distances. rewrite length_map in *. lia. }
  rewrite Hn. run.
  apply iloc_elem, list_elem_of_In, Hlv in Hn as (pmin & Hmin & Hle).
  apply col_min_In, in_map_iff in Hmin as (c & <- & Hc).
  destruct (nonneg_prices_spec df c Hnn Hc) as [Hlow _].
  rewrite py_div_ok
    by (change (1e-12)%Q with (1 # 1000000000000)%Q; intros H0; lra).
  run. repeat case_match; eauto 6.
Qed.

(** The five votes of a window of at least thirty rows, and their sum. *)
Lemma compute_score_sum (df : DataFrame) (orderbook : option OrderBook) :
  nonneg_prices df = true ->
  (30 <= length df)%nat ->
  ∃ c1 c2 c3 c4 c5 : Z,
    _score_ofi cfg df = Ok c1
    ∧ _score_cvd_trend cfg df = Ok c2
    ∧ _score_vwap df = Ok c3
    ∧ _score_momentum_and_orderbook cfg df
        (default (mkOrderBook [] []) orderbook) = Ok c4
    ∧ _score_liquidity_zones cfg df = Ok c5
    ∧ is_vote c1 ∧ is_vote c2 ∧ is_vote c3 ∧ is_vote c4 ∧ is_vote c5
    ∧ compute_score cfg (Some df) orderbook = Ok (c1 + c2 + c3 + c4 + c5)%Z.
Proof.
  intros Hnn Hlen.
  destruct (score_ofi_ok df) as (c1 & H1 & V1); [lia|].
  destruct (score_cvd_trend_ok df) as (c2 & H2 & V2).
  destruct (score_vwap_ok df) as (c3 & H3 & V3); [lia|].
  destruct (score_momentum_and_orderbook_ok df
              (default (mkOrderBook [] []) orderbook) Hnn)
    as (c4 & H4 & V4).
  destruct (score_liquidity_zones_ok df Hnn) as (c5 & H5 & V5).
  exists c1, c2, c3, c4, c5. repeat (split; [done|]).
  unfold compute_score.
  assert ((length df =? 0)%nat = false) as -> by (apply Nat.eqb_neq; lia).
  assert ((length df <? 30)%nat = false) as -> by (apply Nat.ltb_ge; lia).
  simpl. rewrite H1; simpl. rewrite H2; simpl. rewrite H3; simpl.
  destruct orderbook as [ob|]; simpl in *; rewrite H4; simpl;
    by rewrite H5.
Qed.

End Scoring.

Lemma compute_score_short (cfg : Config) (df : DataFrame)
    (orderbook : option OrderBook) :
  (length df < 30)%nat -> compute_score cfg (Some df) orderbook = Ok 0%Z.
Proof.
  intros H. unfold compute_score. apply Nat.ltb_lt in H. rewrite H.
  by rewrite orb_true_r.
Qed.

(** C1 as stated fails: not every frame of thirty rows or more is scored.
    On forty rows whose close six rows back is -1e-12 the rate of change
    divides by [close_ago + 1e-12], which is zero, and [compute_score]
    raises; with OFI_WINDOW set to 0 it raises on the rising window, pandas
    refusing [min_periods=1] on a window of none. *)
Lemma compute_score_raises :
  (30 <= length dipped_window)%nat
  ∧ compute_score defaults (Some dipped_window) None
    = Raise ZeroDivisionError
  ∧ (30 <= length rising_window)%nat
  ∧ compute_score no_ofi_window (Some rising_window) None
    = Raise ValueError.
Proof.
  split; [vm_compute; lia|]. split; [vm_compute; reflexivity|].
  split; [vm_compute; lia|]. vm_compute; reflexivity.
Qed.

(** C1, amended: [compute_score] answers 0 for a missing frame and for a
    frame of fewer than thirty rows (the empty one included).  For a frame
    of at least thirty rows whose lows and closes are not negative, under
    tunables the engine can work with (rolling windows and histogram of at
    least one row and one bin, a percentile between 0 and 100), each of
    the five conditions (OFI, CVD trend, VWAP, momentum with order book,
    liquidity zones) returns a vote in {-1, 0, +1} and [compute_score]
    returns exactly their sum, which therefore lies between -5 and +5. *)
Theorem compute_score_is_vote_sum (cfg : Config) (df : DataFrame)
    (orderbook : option OrderBook) :
  compute_score cfg None orderbook = Ok 0%Z
  ∧ ((length df < 30)%nat -> compute_score cfg (Some df) orderbook = Ok 0%Z)
  ∧ (sane_config cfg = true -> nonneg_prices df = true ->
     (30 <= length df)%nat ->
     ∃ c1 c2 c3 c4 c5 : Z,
       _score_ofi cfg df = Ok c1
       ∧ _score_cvd_trend cfg df = Ok c2
       ∧ _score_vwap df = Ok c3
       ∧ _score_momentum_and_orderbook cfg df
           (default (mkOrderBook [] []) orderbook) = Ok c4
       ∧ _score_liquidity_zones cfg df = Ok c5
       ∧ is_vote c1 ∧ is_vote c2 ∧ is_vote c3 ∧ is_vote c4 ∧ is_vote c5
       ∧ compute_score cfg (Some df) orderbook
         = Ok (c1 + c2 + c3 + c4 + c5)%Z
       ∧ (-5 <= c1 + c2 + c3 + c4 + c5 <= 5)%Z).
Proof.
  split; [done|]. split; [apply compute_score_short|].
  intros Hcfg Hnn Hlen.
    destruct (compute_score_sum cfg Hcfg df orderbook Hnn Hlen)
      as (c1 & c2 & c3 & c4 & c5 & H1 & H2 & H3 & H4 & H5
          & V1 & V2 & V3 & V4 & V5 & Hsum).
    exists c1, c2, c3, c4, c5. repeat (split; [done|]).
    unfold is_vote in *. lia.
Qed.

Lemma compute_score_is_vote_sum_witness :
  sane_config defaults = true
  ∧ nonneg_prices rising_window = true
  ∧ (30 <= length rising_window)%nat
  ∧ (∃ total, compute_score defaults (Some rising_window) None = Ok total
              ∧ (-5 <= total <= 5)%Z)
  ∧ sane_config five_bins = true
  ∧ nonneg_prices five_bin_session = true
  ∧ (30 <= length five_bin_session)%nat
  ∧ _score_vwap five_bin_session = Ok (-1)%Z
  ∧ _score_liquidity_zones five_bins five_bin_session = Ok 1%Z
  ∧ compute_score five_bins (Some five_bin_session) None = Ok 0%Z.
Proof.
  assert (Hlen : (30 <= length rising_window)%nat) by (vm_compute; lia).
  assert (Hlen5 : (30 <= length five_bin_session)%nat)
    by (vm_compute; lia).
  split; [reflexivity|]. split; [reflexivity|]. split; [exact Hlen|].
  split.
  { destruct (proj2 (proj2 (compute_score_is_vote_sum defaults
                              rising_window None)) eq_refl eq_refl Hlen)
      as (c1 & c2 & c3 & c4 & c5 & _ & _ & _ & _ & _ & _ & _ & _ & _ & _
          & Hsum & Hrange).
    exists (c1 + c2 + c3 + c4 + c5)%Z.
    split; [exact Hsum|exact Hrange]. }
  split; [reflexivity|]. split; [vm_compute; reflexivity|].
  split; [exact Hlen5|].
  assert (E3 : _score_vwap five_bin_session = Ok (-1)%Z)
    by (vm_compute; reflexivity).
  assert (E5 : _score_liquidity_zones five_bins five_bin_session = Ok 1%Z)
    by (vm_compute; reflexivity).
  assert (E : compute_score five_bins (Some five_bin_session) None
              = Ok 0%Z) by (vm_compute; reflexivity).
  split; [exact E3|]. split; [exact E5|]. exact E.
Defined.

(** The book contributes nothing as soon as one of its sides is empty. *)
Lemma book_score_absent (cfg : Config) (orderbook : OrderBook) :
  bids orderbook = [] ∨ asks orderbook = [] ->
  book_score cfg orderbook = 0%Z.
Proof.
  unfold book_score. intros [-> | ->]; [done|].
  by destruct (bids orderbook) as [|[] ?].
Qed.

(** The errors of [compute_score] do not depend on the book. *)
Lemma compute_score_error_any_book (cfg : Config) (df : option DataFrame)
    (ob1 ob2 : option OrderBook) (e : PyExn) :
  compute_score cfg df ob1 = Raise e -> compute_score cfg df ob2 = Raise e.
Proof.
  unfold compute_score. destruct df as [df|]; [|done].
  destruct (_ || _); [done|].
  destruct (_score_ofi cfg df) as [c1|]; [|done]. run.
  destruct (_score_cvd_trend cfg df) as [c2|]; [|done]. run.
  destruct (_score_vwap df) as [c3|]; [|done]. run.
  unfold _score_momentum_and_orderbook.
  destruct (momentum_score cfg df) as [m|]; [|done]. run.
  repeat case_match; run; by destruct (_score_liquidity_zones cfg df).
Qed.

(** C6: the code does not do what the claim and its own docstring say
    ("both must agree for a non-zero score", "0 if signals are mixed or
    data is missing").  On the rising window, without a book, the momentum
    sub-vote is +1 and the book sub-vote 0, and Condition 4 votes +1, not
    0: the test [momentum_score == 1 and book_score >= 0] lets a missing
    book pass.  Scoring itself is not blocked: [compute_score] returns,
    with the +1 of Condition 4 in its total of 5. *)
Lemma absent_book_not_neutral :
  momentum_score defaults rising_window = Ok 1%Z
  ∧ book_score defaults (mkOrderBook [] []) = 0%Z
  ∧ _score_momentum_and_orderbook defaults rising_window (mkOrderBook [] [])
    = Ok 1%Z
  ∧ _score_momentum_and_orderbook defaults rising_window (mkOrderBook [] [])
    <> Ok 0%Z
  ∧ compute_score defaults (Some rising_window) None = Ok 5%Z
  ∧ compute_score defaults (Some rising_window) (Some (mkOrderBook [] []))
    = Ok 5%Z.
Proof. repeat split; vm_compute; congruence. Qed.

(** The same on every frame: when the order book is absent ([None], or
    with empty bids or asks) its sub-vote is 0 and Condition 4 is the
    momentum sub-vote alone (0 only when momentum is flat or lacks
    history); the score is the one computed with the empty book, and
    whatever raises without the book raises with every book. *)
Lemma absent_book_leaves_momentum (cfg : Config) (df : DataFrame)
    (orderbook : OrderBook) :
  bids orderbook = [] ∨ asks orderbook = [] ->
  book_score cfg orderbook = 0%Z
  ∧ _score_momentum_and_orderbook cfg df orderbook = momentum_score cfg df
  ∧ _score_momentum_and_orderbook cfg df (mkOrderBook [] [])
    = momentum_score cfg df
  ∧ ((length df < MOMENTUM_ROC_PERIOD cfg + 1)%nat ->
     _score_momentum_and_orderbook cfg df orderbook = Ok 0%Z)
  ∧ compute_score cfg (Some df) (Some orderbook)
    = compute_score cfg (Some df) None
  ∧ ∀ e other,
      compute_score cfg (Some df) None = Raise e ->
      compute_score cfg (Some df) other = Raise e.
Proof.
  intros Habs. pose proof (book_score_absent cfg orderbook Habs) as Hb.
  assert (Hm : _score_momentum_and_orderbook cfg df orderbook
               = momentum_score cfg df) by by apply momentum_alone.
  assert (Hm0 : _score_momentum_and_orderbook cfg df (mkOrderBook [] [])
                = momentum_score cfg df) by by apply momentum_alone.
  repeat split; try done.
  - intros Hlen. rewrite Hm. unfold momentum_score.
    apply Nat.leb_gt in Hlen. by rewrite Hlen.
  - unfold compute_score. by rewrite Hm, Hm0.
  - intros e other. apply compute_score_error_any_book.
Qed.

Lemma absent_book_leaves_momentum_witness :
  (bids (mkOrderBook [] [(1041, 5)]%Q) = []
   ∨ asks (mkOrderBook [] [(1041, 5)]%Q) = [])
  ∧ _score_momentum_and_orderbook defaults rising_window
      (mkOrderBook [] [(1041, 5)]%Q)
    = momentum_score defaults rising_window.
Proof.
  assert (H : bids (mkOrderBook [] [(1041, 5)]%Q) = []
              ∨ asks (mkOrderBook [] [(1041, 5)]%Q) = [])
    by (left; reflexivity).
  split; [exact H|].
  exact (proj1 (proj2 (absent_book_leaves_momentum defaults rising_window
                         (mkOrderBook [] [(1041, 5)]%Q) H))).
Defined.

(** ** Rounding *)

Section Rounding.

Lemma round_half_even_bounds (x : Q) :
  (Qfloor x <= round_half_even x <= Qfloor x + 1)%Z.
Proof.
  unfold round_half_even. repeat case_match; lia.
Qed.

Lemma round_half_even_mono (x y : Q) :
  (x <= y)%Q -> (round_half_even x <= round_half_even y)%Z.
Proof.
  intros Hxy. pose proof (Qfloor_resp_le _ _ Hxy) as Hf.
  destruct (Z.eq_dec (Qfloor x) (Qfloor y)) as [Heq|Hne].
  - unfold round_half_even. rewrite <- Heq.
    destruct (x - inject_Z (Qfloor x) ?= 1 # 2)%Q eqn:Ex;
      destruct (y - inject_Z (Qfloor x) ?= 1 # 2)%Q eqn:Ey;
      try rewrite <- Qeq_alt in *; try rewrite <- Qlt_alt in *;
      try rewrite <- Qgt_alt in *;
      try (destruct (Z.even (Qfloor x)); lia); try lra.
  - pose proof (round_half_even_bounds x).
    pose proof (round_half_even_bounds y). lia.
Qed.

Lemma py_round_mono (x y : Q) (n : nat) :
  (x <= y)%Q -> (py_round x n <= py_round y n)%Q.
Proof.
  intros Hxy. unfold py_round.
  assert (Hp : (0 < inject_Z (10 ^ Z.of_nat n))%Q).
  { change 0%Q with (inject_Z 0). rewrite <- Zlt_Qlt.
    apply Z.pow_pos_nonneg; lia. }
  apply Qle_shift_div_l; [done|].
  unfold Qdiv.
  rewrite <- Qmult_assoc, (Qmult_comm (/ _)), Qmult_inv_r, Qmult_1_r by lra.
  rewrite <- Zle_Qle. apply round_half_even_mono.
  apply Qmult_le_compat_r; lra.
Qed.

End Rounding.

(** ** The risk calculator *)

Section Risk.

Variable cfg : Config.

Lemma length_iloc_slice_tail {A : Type} (xs : list A) (k : nat) :
  (1 <= length xs)%nat ->
  (1 <= length (iloc_slice xs (- Z.of_nat k) None))%nat.
Proof.
  intros H. unfold iloc_slice, py_bound, py_index.
  rewrite length_take, length_drop.
  destruct (Z.ltb_spec (- Z.of_nat k) 0); lia.
Qed.

Lemma risk_get_hvn_levels_ok (df : DataFrame) :
  sane_profile cfg = true ->
  (1 <= length df)%nat ->
  ∃ levels, risk_manager._get_hvn_levels cfg df = Ok levels.
Proof.
  intros Hcfg Hlen.
  destruct (sane_profile_spec cfg Hcfg) as (Hbins & Hq0 & Hq100).
  unfold risk_manager._get_hvn_levels.
  destruct (col_min_is_Some (map low df)) as [pmin ->];
    [by rewrite length_map|].
  destruct (col_max_is_Some (map high df)) as [pmax ->];
    [by rewrite length_map|].
  destruct (Qle_bool pmax pmin) eqn:E; [eauto|].
  assert (Hr : (pmin <= pmax)%Q).
  { apply Qlt_le_weak, Qnot_le_lt. intros H.
    apply Qle_bool_iff in H. congruence. }
  destruct (volume_bins_ok (VP_BINS cfg) pmin pmax df Hbins Hr)
    as (mids & vols & -> & Hvols & _).
  run. destruct (np_percentile_ok vols (HVN_PERCENTILE cfg)) as [th ->];
    [lia|done|done|].
  run. eauto.
Qed.

Lemma compute_atr_ok (df : DataFrame) (period : nat) :
  (2 <= length df)%nat -> ∃ a, _compute_atr df period = Ok a.
Proof.
  intros Hlen. unfold _compute_atr.
  destruct (rolling_mean_ok period period (map Some (true_range df)))
    as (atr & -> & Hatr); [lia|].
  unfold true_range in Hatr.
  rewrite length_map, length_true_range_from in Hatr. run.
  destruct (iloc_last_but_one_ok atr) as [a ->]; [lia|]. run. eauto.
Qed.

Lemma length_observations (win : list (option Q)) :
  (length (observations win) <= length win)%nat.
Proof.
  unfold observations. induction win as [|[x|] win IH]; cbn in *; lia.
Qed.

Lemma rolling_mean_warmup (w mp : nat) (xs ys : list (option Q)) (i : nat)
    (v : option Q) :
  rolling_mean w mp xs = Ok ys -> ys !! i = Some v -> (S i < mp)%nat ->
  v = None.
Proof.
  unfold rolling_mean. destruct (w <? mp)%nat; [done|].
  intros [= <-] Hv Hi. unfold rolling_windows in Hv.
  rewrite !list_lookup_fmap in Hv.
  destruct (seq 0 (length xs) !! i) as [j|] eqn:Ej; [|done].
  apply lookup_seq in Ej as [-> _]. simpl in Hv. injection Hv as <-.
  pose proof (length_observations (drop (S i - w) (take (S i) xs))) as Hobs.
  rewrite length_drop, length_take in Hobs.
  assert ((mp <=? length (observations (drop (S i - w) (take (S i) xs))))%nat
          = false) as -> by (apply Nat.leb_gt; lia).
  done.
Qed.

(** With no more rows than the period, the window of the last completed
    candle is too short: its ATR is [NaN], handed on as [0.0]. *)
Lemma compute_atr_short (df : DataFrame) (period : nat) :
  (2 <= length df <= period)%nat -> _compute_atr df period = Ok 0%Q.
Proof.
  intros Hlen. unfold _compute_atr.
  destruct (rolling_mean_ok period period (map Some (true_range df)))
    as (atr & Hroll & Hatr); [lia|].
  unfold true_range in Hatr.
  rewrite length_map, length_true_range_from in Hatr.
  rewrite Hroll. run.
  destruct (iloc_from_end atr 2) as (v & Hv & Hi); [lia|].
  change (- Z.of_nat 2)%Z with (-2)%Z in Hi. rewrite Hi. run.
  by rewrite (rolling_mean_warmup _ _ _ _ _ _ Hroll Hv) by lia.
Qed.

Lemma swing_extremes_defined (df : DataFrame) (lookback : nat) :
  (1 <= length df)%nat ->
  ∃ sh slw, _get_swing_extremes df lookback = (Some sh, Some slw).
Proof.
  intros Hlen. unfold _get_swing_extremes.
  pose proof (length_iloc_slice_tail df lookback Hlen) as Hw.
  destruct (col_max_is_Some
              (map high (iloc_slice df (- Z.of_nat lookback) None)))
    as [sh ->]; [by rewrite length_map|].
  destruct (col_min_is_Some
              (map low (iloc_slice df (- Z.of_nat lookback) None)))
    as [slw ->]; [by rewrite length_map|].
  eauto.
Qed.

Lemma calculate_risk_params_geometry (df : DataFrame) (dir : string)
    (mult : Q) (rp : RiskParams) :
  calculate_risk_params cfg (Some df) dir mult = Ok (Some rp) ->
  ∃ entry sl tp : Q,
    iloc (map close df) (-1) = Ok entry
    ∧ ((dir = "LONG" ∧ (sl < entry)%Q ∧ (entry < tp)%Q)
       ∨ (dir = "SHORT" ∧ (tp < entry)%Q ∧ (entry < sl)%Q))
    ∧ Entry rp = Some (py_round entry 8)
    ∧ SL rp = Some (py_round sl 8)
    ∧ TP rp = Some (py_round tp 8)
    ∧ RR rp = Some (py_round (Qabs (tp - entry) / Qabs (entry - sl)) 3)
    ∧ (MIN_RR_RATIO cfg
       <= py_round (Qabs (tp - entry) / Qabs (entry - sl)) 3)%Q.
Proof.
  unfold calculate_risk_params.
  destruct (length df =? 0)%nat eqn:Elen; [done|].
  apply Nat.eqb_neq in Elen.
  destruct (negb _) eqn:Edir; [done|].
  apply negb_false_iff, orb_prop in Edir.
  destruct (iloc (map close df) (-1)) as [entry|]; [|done]. run.
  destruct (_compute_atr df (ATR_PERIOD cfg)) as [atr|]; [|done]. run.
  destruct (risk_manager._get_hvn_levels cfg df) as [levels|]; [|done]. run.
  destruct (swing_extremes_defined df (SWING_LOOKBACK cfg))
    as (sh & slw & ->); [lia|].
  assert (∃ b, match _find_nearest_below levels entry with
               | Some a => Some a
               | None => Some slw
               end = Some b) as [below ->] by (case_match; eauto).
  assert (∃ a, match _find_nearest_above levels entry with
               | Some a => Some a
               | None => Some sh
               end = Some a) as [above ->] by (case_match; eauto).
  unfold nan_sub, nan_add, nan_abs, nan_le, nan_div.
  destruct (String.eqb dir "LONG") eqn:EL.
  - apply String.eqb_eq in EL as ->. cbv beta iota. rewrite andb_true_l.
    change (String.eqb "LONG" "SHORT") with false. rewrite andb_false_l.
    destruct (Qle_bool entry (below - atr * mult)) eqn:G1; [done|].
    destruct (Qle_bool above entry) eqn:G2; [done|].
    rewrite orb_false_l.
    destruct (Qle_bool (Qabs (entry - (below - atr * mult))) 0); [done|].
    destruct (Qeq_bool (Qabs (entry - (below - atr * mult))) 0); [done|].
    run. unfold nan_round, nan_lt.
    destruct (Qlt_bool _ (MIN_RR_RATIO cfg)) eqn:G3; [done|].
    intros [= <-]. exists entry, (below - atr * mult)%Q, above.
    split; [done|]. split.
    { left. split; [done|]. split; apply Qnot_le_lt; intros H;
        apply Qle_bool_iff in H; congruence. }
    repeat (split; [done|]). by apply Qlt_bool_false_iff.
  - destruct Edir as [Edir|Edir]; [congruence|].
    apply String.eqb_eq in Edir as ->. cbv beta iota.
    rewrite andb_false_l, andb_true_l.
    destruct (Qle_bool (above + atr * mult) entry) eqn:G1; [done|].
    destruct (Qle_bool entry below) eqn:G2; [done|].
    rewrite orb_false_l.
    destruct (Qle_bool (Qabs (entry - (above + atr * mult))) 0); [done|].
    destruct (Qeq_bool (Qabs (entry - (above + atr * mult))) 0); [done|].
    run. unfold nan_round, nan_lt.
    destruct (Qlt_bool _ (MIN_RR_RATIO cfg)) eqn:G3; [done|].
    intros [= <-]. exists entry, (above + atr * mult)%Q, below.
    split; [done|]. split.
    { right. split; [done|]. split; apply Qnot_le_lt; intros H;
        apply Qle_bool_iff in H; congruence. }
    repeat (split; [done|]). by apply Qlt_bool_false_iff.
Qed.

Lemma calculate_risk_params_total (df : DataFrame) (dir : string)
    (mult : Q) :
  sane_profile cfg = true -> (2 <= length df)%nat ->
  ∃ r, calculate_risk_params cfg (Some df) dir mult = Ok r.
Proof.
  intros Hcfg Hlen. unfold calculate_risk_params.
  destruct (length df =? 0)%nat; [eauto|].
  destruct (negb _); [eauto|].
  destruct (iloc_last_ok (map close df)) as [entry ->];
    [rewrite length_map; lia|].
  run. destruct (compute_atr_ok df (ATR_PERIOD cfg)) as [atr ->]; [lia|].
  run. destruct (risk_get_hvn_levels_ok df Hcfg) as [levels ->]; [lia|].
  run. destruct (_get_swing_extremes df (SWING_LOOKBACK cfg)) as [sh slw].
  destruct (if String.eqb dir "LONG" then _ else _) as [sl tp].
  destruct (_ && _); [eauto|]. destruct (_ && _); [eauto|].
  destruct (nan_le _ _) eqn:G; [eauto|].
  unfold nan_div.
  destruct (nan_abs (nan_sub (Some entry) sl)) as [risk|]; run.
  - unfold nan_le in G. destruct (Qeq_bool risk 0) eqn:E0.
    + apply Qeq_bool_iff in E0.
      assert (Qle_bool risk 0 = true) by (apply Qle_bool_iff; lra).
      congruence.
    + run. destruct (nan_lt _ _); eauto.
  - destruct (nan_lt _ _); eauto.
Qed.

(** A frame of a single row: the ATR reads [iloc[-2]] of a one-row
    series. *)
Lemma calculate_risk_params_single_row (c : Candle) (dir : string)
    (mult : Q) :
  dir = "LONG" ∨ dir = "SHORT" ->
  calculate_risk_params cfg (Some [c]) dir mult = Raise IndexError.
Proof.
  intros [-> | ->]; unfold calculate_risk_params, _compute_atr, rolling_mean;
    rewrite Nat.ltb_irrefl; reflexivity.
Qed.

End Risk.

(** C2 as stated fails: in the still market the accepted LONG geometry has
    its stop one billionth below the entry, and the rounding to eight
    decimals returns a dict whose SL is not below its Entry. *)
Lemma rounding_collapses_stop :
  ∃ rp e s,
    calculate_risk_params defaults (Some still_window) "LONG" 1.5
    = Ok (Some rp)
    ∧ Entry rp = Some e ∧ SL rp = Some s ∧ ¬ (s < e)%Q.
Proof.
  eexists _, _, _. split; [vm_compute; reflexivity|].
  split; [reflexivity|]. split; [reflexivity|].
  intros H. vm_compute in H. discriminate.
Qed.

(** C2, amended: every dict returned by [calculate_risk_params] is built
    from levels entry, sl, tp that satisfy the direction's strict ordering
    before rounding (sl < entry < tp for LONG, tp < entry < sl for SHORT);
    its Entry, SL and TP are these levels rounded to eight decimals, which
    keeps the ordering in the weak sense (SL <= Entry <= TP for LONG,
    TP <= Entry <= SL for SHORT); its RR is |tp - entry| / |entry - sl| of
    the unrounded levels, rounded to three decimals, and is at least
    MIN_RR_RATIO. *)
Theorem calculate_risk_params_ordering (cfg : Config)
    (df : option DataFrame) (dir : string) (mult : Q) (rp : RiskParams) :
  calculate_risk_params cfg df dir mult = Ok (Some rp) ->
  ∃ entry sl tp : Q,
    ((dir = "LONG" ∧ (sl < entry)%Q ∧ (entry < tp)%Q)
     ∨ (dir = "SHORT" ∧ (tp < entry)%Q ∧ (entry < sl)%Q))
    ∧ Entry rp = Some (py_round entry 8)
    ∧ SL rp = Some (py_round sl 8)
    ∧ TP rp = Some (py_round tp 8)
    ∧ (dir = "LONG" ->
       (py_round sl 8 <= py_round entry 8)%Q
       ∧ (py_round entry 8 <= py_round tp 8)%Q)
    ∧ (dir = "SHORT" ->
       (py_round tp 8 <= py_round entry 8)%Q
       ∧ (py_round entry 8 <= py_round sl 8)%Q)
    ∧ RR rp = Some (py_round (Qabs (tp - entry) / Qabs (entry - sl)) 3)
    ∧ (MIN_RR_RATIO cfg
       <= py_round (Qabs (tp - entry) / Qabs (entry - sl)) 3)%Q.
Proof.
  destruct df as [df|]; [|done]. intros H.
  destruct (calculate_risk_params_geometry cfg df dir mult rp H)
    as (entry & sl & tp & _ & Hgeo & HE & HS & HT & HR & Hmin).
  exists entry, sl, tp. repeat (split; [done|]).
  split; [|split; [|done]].
  - intros ->. destruct Hgeo as [(_ & H1 & H2)|(? & _)]; [|done].
    split; apply py_round_mono; lra.
  - intros ->. destruct Hgeo as [(? & _)|(_ & H1 & H2)]; [done|].
    split; apply py_round_mono; lra.
Qed.

Lemma calculate_risk_params_ordering_witness :
  ∃ rp e s t r,
    calculate_risk_params five_bins (Some five_bin_window) "LONG" 1.5
    = Ok (Some rp)
    ∧ Entry rp = Some e ∧ SL rp = Some s ∧ TP rp = Some t ∧ RR rp = Some r
    ∧ (e == 16)%Q ∧ (s == 5)%Q ∧ (t == 45)%Q ∧ (r == 2.636)%Q
    ∧ (MIN_RR_RATIO five_bins <= r)%Q.
Proof.
  assert (H : ∃ rp e s t r,
             calculate_risk_params five_bins (Some five_bin_window)
               "LONG" 1.5 = Ok (Some rp)
             ∧ Entry rp = Some e ∧ SL rp = Some s ∧ TP rp = Some t
             ∧ RR rp = Some r
             ∧ (e == 16)%Q ∧ (s == 5)%Q ∧ (t == 45)%Q ∧ (r == 2.636)%Q).
  { eexists _, _, _, _, _. split; [vm_compute; reflexivity|].
    do 4 (split; [reflexivity|]). repeat split; vm_compute; reflexivity. }
  destruct H as (rp & e & s & t & r & H & HE & HS & HT & HR & Hv).
  exists rp, e, s, t, r. do 5 (split; [done|]).
  destruct Hv as (He & Hs & Ht & Hr). do 4 (split; [done|]).
  destruct (calculate_risk_params_ordering five_bins (Some five_bin_window)
              "LONG" 1.5 rp H)
    as (entry & sl & tp & _ & _ & _ & _ & _ & _ & HR' & Hmin).
  rewrite HR in HR'. injection HR' as ->. exact Hmin.
Defined.

(** C5 as stated fails: on two rows, far fewer than the ATR period, the
    risk calculator does not answer [None] but accepts a LONG trade. *)
Lemma short_window_accepted :
  (length two_row_window < ATR_PERIOD defaults)%nat
  ∧ ∃ rp,
      calculate_risk_params defaults (Some two_row_window) "LONG" 1.5
      = Ok (Some rp)
      ∧ calculate_risk_params defaults (Some two_row_window) "LONG" 1.5
        <> Ok None.
Proof.
  split; [vm_compute; lia|].
  eexists. split; [vm_compute; reflexivity|]. vm_compute. discriminate.
Qed.

(** C5, amended: the gate answers [False] for fewer than
    [ATR_MA_PERIOD + ATR_PERIOD + 2] rows and [compute_score] answers 0
    for fewer than thirty rows or no frame; [calculate_risk_params]
    answers [None] for a missing or empty frame, and for a frame of at
    least two rows, with a histogram of at least one bin and a percentile
    between 0 and 100, it never raises, however short the frame: with no
    more rows than the ATR period the ATR buffer is taken as 0 and the
    usual geometry and reward:risk checks decide. *)
Theorem short_windows_fail_closed (cfg : Config) (df : DataFrame)
    (orderbook : option OrderBook) (dir : string) (mult : Q) :
  ((length df < ATR_MA_PERIOD cfg + ATR_PERIOD cfg + 2)%nat ->
   gate_anti_wash_trading cfg df = Ok false)
  ∧ ((length df < 30)%nat -> compute_score cfg (Some df) orderbook = Ok 0%Z)
  ∧ compute_score cfg None orderbook = Ok 0%Z
  ∧ calculate_risk_params cfg None dir mult = Ok None
  ∧ calculate_risk_params cfg (Some []) dir mult = Ok None
  ∧ (sane_profile cfg = true -> (2 <= length df)%nat ->
     ∃ r, calculate_risk_params cfg (Some df) dir mult = Ok r)
  ∧ ((2 <= length df <= ATR_PERIOD cfg)%nat ->
     _compute_atr df (ATR_PERIOD cfg) = Ok 0%Q).
Proof.
  split; [apply gate_short|].
  split; [apply compute_score_short|].
  repeat (split; [done|]).
  split; [intros; by apply calculate_risk_params_total|].
  apply compute_atr_short.
Qed.

Lemma short_windows_fail_closed_witness :
  (length two_row_window
   < ATR_MA_PERIOD defaults + ATR_PERIOD defaults + 2)%nat
  ∧ gate_anti_wash_trading defaults two_row_window = Ok false
  ∧ compute_score defaults (Some two_row_window) None = Ok 0%Z
  ∧ _compute_atr two_row_window (ATR_PERIOD defaults) = Ok 0%Q
  ∧ ∃ r, calculate_risk_params defaults (Some two_row_window) "LONG" 1.5
         = Ok r.
Proof.
  assert (H40 : (length two_row_window
                 < ATR_MA_PERIOD defaults + ATR_PERIOD defaults + 2)%nat)
    by (vm_compute; lia).
  assert (H30 : (length two_row_window < 30)%nat) by (vm_compute; lia).
  assert (H14 : (2 <= length two_row_window <= ATR_PERIOD defaults)%nat)
    by (vm_compute; lia).
  pose proof (short_windows_fail_closed defaults two_row_window None
                "LONG" 1.5) as (Hg & Hs & _ & _ & _ & Hr & Ha).
  split; [exact H40|]. split; [exact (Hg H40)|].
  split; [exact (Hs H30)|]. split; [exact (Ha H14)|].
  apply Hr; [reflexivity|exact (proj1 H14)].
Defined.

(** * Further properties *)

(** ** The lifecycle registry, continued *)

Section RegistryMore.

Implicit Types (sm : StateManager) (sym : string) (pos : VirtualPosition).
Implicit Types (prices : gmap string Q).

Lemma foldl_insert_const_lookup {V : Type} (v : V) (pairs : list string)
    (d : gmap string V) sym :
  foldl (fun d p => <[p := v]> d) d pairs !! sym
  = if decide (sym ∈ pairs) then Some v else d !! sym.
Proof.
  revert d. induction pairs as [|p pairs IH]; intros d; simpl.
  - destruct (decide (sym ∈ [])) as [H|H]; [|done].
    by apply elem_of_nil in H.
  - rewrite IH. destruct (decide (sym ∈ pairs)) as [Hin|Hnin].
    + rewrite decide_True; [done|]. by apply list_elem_of_further.
    + destruct (decide (p = sym)) as [->|Hne].
      * rewrite lookup_insert_eq, decide_True; [done|].
        apply list_elem_of_here.
      * rewrite lookup_insert_ne by done. rewrite decide_False; [done|].
        intros [?|?]%elem_of_cons; congruence.
Qed.

(** X1: the constructor tracks exactly the listed pairs: each of them is
    idle, holds no position and reads "IDLE" in [get_all_states]; a symbol
    that is not listed is not idle and does not appear in
    [get_all_states]. *)
Theorem init_tracks_listed_pairs (pairs : list string) sym :
  (sym ∈ pairs ->
   is_idle (StateManager_init pairs) sym = true
   ∧ get_state (StateManager_init pairs) sym = IDLE
   ∧ _positions (StateManager_init pairs) !! sym = Some None
   ∧ get_all_states (StateManager_init pairs) !! sym = Some "IDLE")
  ∧ (sym ∉ pairs ->
     is_idle (StateManager_init pairs) sym = false
     ∧ _positions (StateManager_init pairs) !! sym = None
     ∧ get_all_states (StateManager_init pairs) !! sym = None).
Proof.
  unfold is_idle, get_state, get_all_states, StateManager_init; simpl.
  rewrite lookup_fmap, !foldl_insert_const_lookup.
  split; intros H.
  - by rewrite !decide_True.
  - by rewrite !decide_False, !lookup_empty.
Qed.

Lemma init_tracks_listed_pairs_witness :
  (btc ∈ [btc]) ∧ (doge ∉ [btc])
  ∧ get_all_states (StateManager_init [btc]) !! btc = Some "IDLE"
  ∧ get_all_states (StateManager_init [btc]) !! doge = None.
Proof.
  assert (H1 : btc ∈ [btc]) by apply list_elem_of_here.
  assert (H2 : doge ∉ [btc]).
  { intros [H|H]%elem_of_cons; [discriminate|by apply elem_of_nil in H]. }
  split; [exact H1|]. split; [exact H2|]. split.
  - exact (proj2 (proj2 (proj2
      (proj1 (init_tracks_listed_pairs [btc] btc) H1)))).
  - exact (proj2 (proj2 (proj2 (init_tracks_listed_pairs [btc] doge) H2))).
Defined.

Lemma init_keys_in_sync (pairs : list string) :
  keys_in_sync (StateManager_init pairs).
Proof.
  intros sym. unfold StateManager_init; simpl.
  rewrite !foldl_insert_const_lookup, !lookup_empty.
  case_decide; split; intros [? ?]; eauto; done.
Qed.

Lemma unlock_keys_in_sync sm s reason :
  keys_in_sync sm -> keys_in_sync (unlock_pair sm s reason).
Proof.
  intros Hinv sym. specialize (Hinv sym). unfold unlock_pair; simpl.
  destruct (decide (s = sym)) as [->|Hne].
  - rewrite !lookup_insert_eq. split; eauto.
  - by rewrite !lookup_insert_ne.
Qed.

Lemma lock_keys_in_sync sm s dir (e t l r : Q) (sc : Z) :
  keys_in_sync sm -> keys_in_sync (lock_pair sm s dir e t l r sc).2.
Proof.
  intros Hinv. unfold lock_pair. destruct (is_idle sm s); simpl.
  - intros sym. specialize (Hinv sym). simpl.
    destruct (decide (s = sym)) as [->|Hne].
    + rewrite !lookup_insert_eq. split; eauto.
    + by rewrite !lookup_insert_ne.
  - by destruct (_states sm !! s).
Qed.

Lemma resolve_item_keys_in_sync prices sm item :
  keys_in_sync sm -> keys_in_sync (resolve_item prices sm item).
Proof.
  intros Hinv. unfold resolve_item.
  repeat case_match; try done; by apply unlock_keys_in_sync.
Qed.

Lemma update_keys_in_sync sm prices :
  keys_in_sync sm -> keys_in_sync (update_virtual_positions sm prices).
Proof.
  unfold update_virtual_positions.
  generalize (map_to_list (_positions sm)). intros l. revert sm.
  induction l as [|item l IH]; intros sm Hinv; simpl; [done|].
  by apply IH, resolve_item_keys_in_sync.
Qed.

Lemma reachable_invariants sm :
  reachable sm -> keys_in_sync sm ∧ position_iff_open sm.
Proof.
  induction 1 as [pairs|sm c _ [IH1 IH2]].
  - split; [apply init_keys_in_sync|apply init_invariant].
  - destruct c; simpl; split;
      auto using lock_keys_in_sync, unlock_keys_in_sync, update_keys_in_sync,
        lock_invariant, unlock_invariant, update_invariant.
Qed.

(** X2: in every reachable state the state dict and the position dict hold
    the same keys, and an idle symbol is stored with the position [None]. *)
Theorem reachable_keys_in_sync sm :
  reachable sm ->
  keys_in_sync sm
  ∧ ∀ sym, is_idle sm sym = true -> _positions sm !! sym = Some None.
Proof.
  intros Hr. destruct (reachable_invariants sm Hr) as [Hk Hp].
  split; [done|]. intros sym Hidle. apply is_idle_lookup in Hidle.
  destruct (proj1 (Hk sym)) as [p Hpos]; [by rewrite Hidle|].
  destruct p as [pos|]; [|done].
  exfalso. apply (proj1 (Hp sym)).
  - unfold get_position. by rewrite Hpos.
  - unfold get_state. by rewrite Hidle.
Qed.

Lemma reachable_keys_in_sync_witness :
  reachable sm_idle ∧ _positions sm_idle !! btc = Some None.
Proof.
  assert (Hr : reachable sm_idle) by apply reachable_init.
  split; [exact Hr|].
  exact (proj2 (reachable_keys_in_sync sm_idle Hr) btc eq_refl).
Defined.

(** X3: round trip.  In a reachable state, locking an idle symbol and then
    unlocking it gives back the state dict and the position dict as they
    were before the lock. *)
Theorem lock_unlock_round_trip sm sym dir (e t l r : Q) (sc : Z) reason :
  reachable sm -> is_idle sm sym = true ->
  _states (unlock_pair (lock_pair sm sym dir e t l r sc).2 sym reason)
  = _states sm
  ∧ _positions (unlock_pair (lock_pair sm sym dir e t l r sc).2 sym reason)
    = _positions sm.
Proof.
  intros Hr Hidle.
  destruct (reachable_invariants sm Hr) as [Hk Hp].
  rewrite (lock_pair_idle _ _ _ _ _ _ _ _ Hidle). unfold unlock_pair; simpl.
  rewrite !insert_insert_eq.
  apply is_idle_lookup in Hidle as Hst.
  split; [by apply insert_id|]. apply insert_id.
  destruct (proj1 (Hk sym)) as [p Hpos]; [by rewrite Hst|].
  destruct p as [pos|]; [|done].
  exfalso. apply (proj1 (Hp sym)).
  - unfold get_position. by rewrite Hpos.
  - unfold get_state. by rewrite Hst.
Qed.

Lemma lock_unlock_round_trip_witness :
  reachable sm_idle ∧ is_idle sm_idle btc = true
  ∧ _states (unlock_pair sm_long btc "manual") = _states sm_idle.
Proof.
  assert (Hr : reachable sm_idle) by apply reachable_init.
  split; [exact Hr|]. split; [reflexivity|].
  exact (proj1 (lock_unlock_round_trip sm_idle btc "LONG" 100 110 95 2 4
                  "manual" Hr eq_refl)).
Defined.

(** X4: [unlock_pair] makes any symbol idle and lockable, tracked before or
    not: afterwards [is_idle] holds, no position is held, the next
    [lock_pair] on the symbol returns [True], and no other symbol has
    changed. *)
Theorem unlock_pair_makes_lockable sm sym reason :
  is_idle (unlock_pair sm sym reason) sym = true
  ∧ get_state (unlock_pair sm sym reason) sym = IDLE
  ∧ get_position (unlock_pair sm sym reason) sym = None
  ∧ (∀ dir (e t l r : Q) (sc : Z),
       (lock_pair (unlock_pair sm sym reason) sym dir e t l r sc).1 = Ok true)
  ∧ ∀ other, other ≠ sym ->
      _states (unlock_pair sm sym reason) !! other = _states sm !! other
      ∧ _positions (unlock_pair sm sym reason) !! other
        = _positions sm !! other.
Proof.
  assert (Hidle : is_idle (unlock_pair sm sym reason) sym = true).
  { unfold is_idle, unlock_pair; simpl. by rewrite lookup_insert_eq. }
  split; [done|]. split; [|split; [|split]].
  - unfold get_state, unlock_pair; simpl. by rewrite lookup_insert_eq.
  - unfold get_position, unlock_pair; simpl. by rewrite lookup_insert_eq.
  - intros. by rewrite (lock_pair_idle _ _ _ _ _ _ _ _ Hidle).
  - intros other Hne. unfold unlock_pair; simpl.
    by rewrite !lookup_insert_ne.
Qed.

(** X5: the only change [update_virtual_positions] makes to a symbol is to
    close an open position for which a price was given, with TP_HIT or
    SL_HIT; every other symbol keeps its state and its position, and no
    position is ever opened.  With an empty price mapping the manager is
    returned as it is. *)
Theorem update_only_closes sm prices sym :
  (untouched sym sm (update_virtual_positions sm prices)
   ∨ ∃ pos price reason,
       _positions sm !! sym = Some (Some pos)
       ∧ prices !! sym = Some price
       ∧ (reason = "TP_HIT" ∨ reason = "SL_HIT")
       ∧ closed_with reason sym sm (update_virtual_positions sm prices))
  ∧ update_virtual_positions sm ∅ = sm.
Proof.
  split.
  - unfold untouched, closed_with. rewrite update_view.
    destruct (_positions sm !! sym) as [[pos|]|] eqn:Hpos; [|by left..].
    unfold turn. destruct (prices !! sym) as [price|] eqn:Hp; [|by left].
    repeat case_match; try (by left); right; exists pos, price;
      [exists "TP_HIT"|exists "SL_HIT"|exists "TP_HIT"|exists "SL_HIT"];
      auto.
  - unfold update_virtual_positions. apply foldl_fixed.
    intros [s p] _. unfold resolve_item; simpl.
    destruct p; [|done]. by rewrite lookup_empty.
Qed.

(** X6: [update_virtual_positions] is idempotent: a second call with the
    same prices changes nothing, log included (what could be closed was
    closed by the first call). *)
Theorem update_idempotent sm prices :
  update_virtual_positions (update_virtual_positions sm prices) prices
  = update_virtual_positions sm prices.
Proof.
  set (sm' := update_virtual_positions sm prices).
  unfold update_virtual_positions at 1. apply foldl_fixed.
  intros [s p] Hin. apply elem_of_map_to_list in Hin.
  unfold resolve_item; simpl.
  destruct p as [pos|]; [|done].
  destruct (prices !! s) as [price|] eqn:Hp; [|done].
  assert (Hv : (view s sm').1.2 = Some (Some pos)) by done.
  unfold sm' in Hv. rewrite update_view in Hv.
  destruct (_positions sm !! s) as [[pos0|]|] eqn:Hpos;
    [|unfold view in Hv; simpl in Hv; congruence..].
  unfold turn in Hv. rewrite Hp in Hv.
  destruct (String.eqb (direction pos0) "LONG") eqn:EL;
    [|destruct (String.eqb (direction pos0) "SHORT") eqn:ES].
  - destruct (Qle_bool (tp pos0) price) eqn:E1; [done|].
    destruct (Qle_bool price (sl pos0)) eqn:E2; [done|].
    unfold view in Hv; simpl in Hv. rewrite Hpos in Hv.
    injection Hv as <-. by rewrite EL, E1, E2.
  - destruct (Qle_bool price (tp pos0)) eqn:E1; [done|].
    destruct (Qle_bool (sl pos0) price) eqn:E2; [done|].
    unfold view in Hv; simpl in Hv. rewrite Hpos in Hv.
    injection Hv as <-. by rewrite EL, ES, E1, E2.
  - unfold view in Hv; simpl in Hv. rewrite Hpos in Hv.
    injection Hv as <-. by rewrite EL, ES.
Qed.

(** X7: [lock_pair] compares [direction] with "LONG" only: any other
    string, "long" or a typo included, is stored under the state SHORT,
    and when it is not exactly "SHORT" no price ever resolves the
    position: [update_virtual_positions] leaves it open whatever the
    prices. *)
Theorem lock_pair_unknown_direction sm sym dir (e t l r : Q) (sc : Z) :
  is_idle sm sym = true -> dir <> "LONG" -> dir <> "SHORT" ->
  (lock_pair sm sym dir e t l r sc).1 = Ok true
  ∧ get_state (lock_pair sm sym dir e t l r sc).2 sym = SHORT
  ∧ ∀ prices,
      untouched sym (lock_pair sm sym dir e t l r sc).2
        (update_virtual_positions (lock_pair sm sym dir e t l r sc).2
           prices).
Proof.
  intros Hidle HL HS. rewrite (lock_pair_idle _ _ _ _ _ _ _ _ Hidle).
  apply String.eqb_neq in HL as HL', HS as HS'. simpl.
  split; [done|]. split.
  - unfold get_state; simpl. by rewrite lookup_insert_eq, HL'.
  - intros prices. unfold untouched. rewrite update_view. simpl.
    rewrite lookup_insert_eq. unfold turn; simpl. rewrite HL', HS'.
    by destruct (prices !! sym).
Qed.

Lemma lock_pair_unknown_direction_witness :
  is_idle sm_idle btc = true
  ∧ get_state (lock_pair sm_idle btc "long" 100 110 95 2 4).2 btc = SHORT.
Proof.
  split; [reflexivity|].
  refine (proj1 (proj2 (lock_pair_unknown_direction sm_idle btc "long"
                          100 110 95 2 4 eq_refl _ _))); discriminate.
Defined.

End RegistryMore.

(** ** The gates, continued *)

Section GatesMore.

(** X8: the session gate is a half-open interval of hours without
    wrap-around: a window whose end is not after its start (22 -> 4, say)
    lets no hour through, and the default window 12 -> 21 lets through
    exactly the hours 12 to 20. *)
Theorem killzone_has_no_wrap_around (session_start session_end : Z)
    (clock_hour : Z) (utc_now : option Z) (h : Z) :
  ((session_end <= session_start)%Z ->
   gate_session_killzone session_start session_end clock_hour utc_now
   = false)
  ∧ (gate_session_killzone 12 21 clock_hour (Some h) = true
     <-> (12 <= h <= 20)%Z)
  ∧ gate_session_killzone session_start session_end clock_hour None
    = gate_session_killzone session_start session_end h (Some clock_hour).
Proof.
  unfold gate_session_killzone. split; [|split; [|done]].
  - intros H. destruct utc_now; lia.
  - lia.
Qed.

Lemma killzone_has_no_wrap_around_witness :
  (4 <= 22)%Z
  ∧ gate_session_killzone 22 4 23 None = false
  ∧ gate_session_killzone 22 4 0 (Some 2%Z) = false.
Proof.
  assert (H : (4 <= 22)%Z) by lia.
  split; [exact H|]. split.
  - exact (proj1 (killzone_has_no_wrap_around 22 4 23 None 0) H).
  - exact (proj1 (killzone_has_no_wrap_around 22 4 0 (Some 2%Z) 0) H).
Defined.

Lemma observations_Some (xs : list Q) : observations (map Some xs) = xs.
Proof.
  unfold observations. induction xs as [|x xs IH]; [done|].
  cbn. by rewrite IH.
Qed.

Lemma Qsum_nonneg (xs : list Q) :
  (∀ x, In x xs -> (0 <= x)%Q) -> (0 <= Qsum xs)%Q.
Proof.
  induction xs as [|x xs IH]; intros H; simpl; [lra|].
  pose proof (H x (or_introl eq_refl)).
  assert (0 <= Qsum xs)%Q by (apply IH; intros; apply H; by right).
  lra.
Qed.

Lemma true_range_from_nonneg (pc : option Q) (df : DataFrame) (x : Q) :
  ordered_candles df = true -> In x (true_range_from pc df) -> (0 <= x)%Q.
Proof.
  revert pc. induction df as [|c df IH]; intros pc Hord; simpl; [done|].
  simpl in Hord. apply andb_prop in Hord as [Hc Hord].
  apply Qle_bool_iff in Hc.
  intros [<-|Hin]; [|by eapply IH].
  destruct pc as [p|]; [|lra].
  apply Q.max_le_iff. left. lra.
Qed.

(** Each value of a rolling mean over a series without [NaN]. *)
Lemma rolling_mean_lookup (w : nat) (xs : list Q) (ys : list (option Q))
    (i : nat) :
  rolling_mean w w (map Some xs) = Ok ys -> (i < length xs)%nat ->
  ys !! i
  = Some (if (w <=? S i)%nat && (0 <? w)%nat
          then Some (Qsum (drop (S i - w) (take (S i) xs))
                     / inject_Z (Z.of_nat w))%Q
          else None).
Proof.
  unfold rolling_mean. rewrite Nat.ltb_irrefl. intros [= <-] Hi.
  unfold rolling_windows. rewrite !list_lookup_fmap, length_map.
  rewrite lookup_seq_lt by done. simpl.
  change (take (S i) (map Some xs)) with (take (S i) (Some <$> xs)).
  rewrite <- fmap_take, <- fmap_drop.
  change (Some <$> drop (S i - w) (take (S i) xs))
    with (map Some (drop (S i - w) (take (S i) xs))).
  rewrite observations_Some.
  assert (Hlen : length (drop (S i - w) (take (S i) xs)) = Nat.min w (S i)).
  { rewrite length_drop, length_take. lia. }
  rewrite Hlen. f_equal.
  destruct (w <=? S i)%nat eqn:E1.
  - apply Nat.leb_le in E1. rewrite Nat.min_l by lia.
    rewrite Nat.leb_refl. done.
  - apply Nat.leb_gt in E1. rewrite Nat.min_r by lia.
    assert ((w <=? S i)%nat = false) as -> by (apply Nat.leb_gt; lia).
    done.
Qed.

(** X9: [compute_atr] returns a series aligned with the frame; its value
    is [NaN] exactly on the first [period - 1] rows (and everywhere when
    the period is 0), and on the other rows it is a number that is not
    negative when no candle has its high below its low. *)
Theorem compute_atr_warm_up (df : DataFrame) (period : nat) :
  ∃ atr,
    compute_atr df period = Ok atr
    ∧ length atr = length df
    ∧ ∀ i, (i < length df)%nat ->
        ((S i < period)%nat ∨ period = 0%nat -> atr !! i = Some None)
        ∧ ((1 <= period <= S i)%nat ->
           ∃ a, atr !! i = Some (Some a)
                ∧ (ordered_candles df = true -> (0 <= a)%Q)).
Proof.
  unfold compute_atr.
  destruct (rolling_mean_ok period period (map Some (true_range df)))
    as (atr & Hroll & Hlen); [lia|].
  unfold true_range in Hlen.
  rewrite length_map, length_true_range_from in Hlen.
  exists atr. split; [done|]. split; [done|].
  intros i Hi.
  assert (Hi' : (i < length (true_range df))%nat)
    by (unfold true_range; by rewrite length_true_range_from).
  pose proof (rolling_mean_lookup period (true_range df) atr i Hroll Hi')
    as Hv.
  split.
  - intros H. rewrite Hv. f_equal.
    destruct H as [H| ->].
    + assert ((period <=? S i)%nat = false) as ->
        by (apply Nat.leb_gt; lia). done.
    + by rewrite andb_false_r.
  - intros H. rewrite Hv.
    assert ((period <=? S i)%nat = true) as -> by (apply Nat.leb_le; lia).
    assert ((0 <? period)%nat = true) as -> by (apply Nat.ltb_lt; lia).
    simpl. eexists; split; [reflexivity|]. intros Hord.
    apply Qle_shift_div_l.
    + change 0%Q with (inject_Z 0). rewrite <- Zlt_Qlt. lia.
    + rewrite Qmult_0_l. apply Qsum_nonneg. intros x Hx.
      apply (true_range_from_nonneg None df x Hord).
      apply list_elem_of_In. apply list_elem_of_In in Hx.
      apply subseteq_drop, subseteq_take in Hx. exact Hx.
Qed.

Lemma compute_atr_warm_up_witness :
  (38 < length (widening_window 8000))%nat
  ∧ (1 <= 14 <= 39)%nat
  ∧ ∃ atr a, compute_atr (widening_window 8000) 14 = Ok atr
             ∧ atr !! 38%nat = Some (Some a).
Proof.
  assert (H38 : (38 < length (widening_window 8000))%nat)
    by (vm_compute; lia).
  assert (H14 : (1 <= 14 <= 39)%nat) by lia.
  split; [exact H38|]. split; [exact H14|].
  destruct (compute_atr_warm_up (widening_window 8000) 14)
    as (atr & Hatr & _ & Hval).
  destruct (proj2 (Hval 38%nat H38) H14) as (a & Ha & _).
  exists atr, a. split; [exact Hatr|exact Ha].
Defined.

Lemma gate_no_volume (cfg : Config) (df : DataFrame) (candle : Candle) :
  iloc df (-2) = Ok candle -> (volume candle <= 0)%Q ->
  gate_anti_wash_trading cfg df = Ok false.
Proof.
  intros Hc Hv. unfold gate_anti_wash_trading.
  destruct (_ || _); [done|]. rewrite Hc. run.
  by rewrite (Qle_bool_true _ _ Hv).
Qed.

(** X10: the gate answers [True] only for a window of at least
    [ATR_MA_PERIOD + ATR_PERIOD + 2] rows whose last completed candle has
    positive volume, a displacement per unit of volume of at least
    [MIN_VOLUME_EFFICIENCY], an ATR not below its moving average, and a
    taker-buy ratio strictly outside the wash-trade band. *)
Theorem gate_pass_means_clean (cfg : Config) (df : DataFrame) :
  gate_anti_wash_trading cfg df = Ok true ->
  (ATR_MA_PERIOD cfg + ATR_PERIOD cfg + 2 <= length df)%nat
  ∧ ∃ candle atr_series atr_ma_series atr atr_ma,
      iloc df (-2) = Ok candle
      ∧ (0 < volume candle)%Q
      ∧ (MIN_VOLUME_EFFICIENCY cfg
         <= Qabs (close candle - open candle) / volume candle)%Q
      ∧ compute_atr df (ATR_PERIOD cfg) = Ok atr_series
      ∧ rolling_mean (ATR_MA_PERIOD cfg) (ATR_MA_PERIOD cfg) atr_series
        = Ok atr_ma_series
      ∧ iloc atr_series (-2) = Ok (Some atr)
      ∧ iloc atr_ma_series (-2) = Ok (Some atr_ma)
      ∧ (atr_ma <= atr)%Q
      ∧ ((taker_buy_volume candle / volume candle
          < WASH_TRADE_TAKER_RATIO_LOW cfg)%Q
         ∨ (WASH_TRADE_TAKER_RATIO_HIGH cfg
            < taker_buy_volume candle / volume candle)%Q).
Proof.
  unfold gate_anti_wash_trading.
  destruct (length df =? 0)%nat; [done|].
  destruct (length df <? _)%nat eqn:Elen; [done|].
  apply Nat.ltb_ge in Elen. simpl orb. cbv iota.
  destruct (iloc df (-2)) as [candle|] eqn:Hc; [|done]. run.
  destruct (Qle_bool (volume candle) 0) eqn:Ev; [done|].
  destruct (Qlt_bool _ (MIN_VOLUME_EFFICIENCY cfg)) eqn:Ee; [done|].
  destruct (compute_atr df (ATR_PERIOD cfg)) as [atr_series|] eqn:Hatr;
    [|done].
  run.
  destruct (rolling_mean _ _ atr_series) as [ma|] eqn:Hma; [|done]. run.
  destruct (iloc atr_series (-2)) as [[a|]|] eqn:Ha; try done; run;
    destruct (iloc ma (-2)) as [[m|]|] eqn:Hm; try done; run.
  destruct (Qlt_bool a m) eqn:Ea; [done|].
  intros Hpass. split; [done|].
  exists candle, atr_series, ma, a, m.
  split; [done|].
  split; [apply Qnot_le_lt; intros H; apply Qle_bool_iff in H; congruence|].
  split; [by apply Qlt_bool_false_iff|].
  repeat (split; [done|]).
  split; [by apply Qlt_bool_false_iff|].
  destruct (Qle_bool (WASH_TRADE_TAKER_RATIO_LOW cfg) _) eqn:El.
  - destruct (Qle_bool _ (WASH_TRADE_TAKER_RATIO_HIGH cfg)) eqn:Eh; [done|].
    right. apply Qnot_le_lt. intros H. apply Qle_bool_iff in H. congruence.
  - left. apply Qnot_le_lt. intros H. apply Qle_bool_iff in H. congruence.
Qed.

Lemma gate_pass_means_clean_witness :
  gate_anti_wash_trading defaults (widening_window 8000) = Ok true
  ∧ (40 <= length (widening_window 8000))%nat.
Proof.
  assert (H : gate_anti_wash_trading defaults (widening_window 8000)
              = Ok true) by (vm_compute; reflexivity).
  split; [exact H|].
  exact (proj1 (gate_pass_means_clean defaults (widening_window 8000) H)).
Defined.

End GatesMore.

(** ** Data ingestion *)

Section Ingestion.

Import data_ingestion.

(** A frame whose every candle carries the 50/50 estimate of the fallback
    is turned down by the gate when the band contains one half. *)
Lemma half_split_fails_gate (cfg : Config) (raw : list Ohlcv) :
  (WASH_TRADE_TAKER_RATIO_LOW cfg <= 1 # 2)%Q ->
  (1 # 2 <= WASH_TRADE_TAKER_RATIO_HIGH cfg)%Q ->
  gate_anti_wash_trading cfg (map ohlcv_candle raw) = Ok false.
Proof.
  intros Hlo Hhi. set (df := map ohlcv_candle raw).
  destruct (Nat.lt_ge_cases (length df)
              (ATR_MA_PERIOD cfg + ATR_PERIOD cfg + 2)) as [Hs|Hl];
    [by apply gate_short|].
  destruct (iloc_last_but_one_ok df) as [candle Hc]; [lia|].
  assert (Hhalf : (taker_buy_volume candle == volume candle * (1 # 2))%Q).
  { apply iloc_elem, list_elem_of_In in Hc.
    apply in_map_iff in Hc as (r0 & <- & _). simpl.
    assert (0.5 == 1 # 2)%Q as -> by reflexivity. reflexivity. }
  destruct (Qlt_le_dec 0 (volume candle)) as [Hpos|Hnp];
    [|by eapply gate_no_volume].
  assert (Hratio : (taker_buy_volume candle / volume candle == 1 # 2)%Q).
  { rewrite Hhalf. field. lra. }
  eapply gate_in_band; [done|done|..]; by rewrite Hratio.
Qed.

Lemma fallback_fetch_candles (fetched : Fetched (list Ohlcv))
    (df : DataFrame) :
  _fallback_fetch_ohlcv fetched = Some df ->
  ∃ raw, df = map ohlcv_candle raw.
Proof.
  unfold _fallback_fetch_ohlcv.
  destruct fetched as [[|r raw]|]; try done. intros [= <-].
  by exists (r :: raw).
Qed.

(** X12: a frame built by the fallback fetcher, with its 50/50 taker
    split, never passes the wash-trade gate, for any tunables whose band
    contains one half (the default band does). *)
Theorem fallback_frame_fails_gate (cfg : Config)
    (fetched : Fetched (list Ohlcv)) (df : DataFrame) :
  (WASH_TRADE_TAKER_RATIO_LOW cfg <= 1 # 2)%Q ->
  (1 # 2 <= WASH_TRADE_TAKER_RATIO_HIGH cfg)%Q ->
  _fallback_fetch_ohlcv fetched = Some df ->
  gate_anti_wash_trading cfg df = Ok false.
Proof.
  intros Hlo Hhi Hdf.
  apply fallback_fetch_candles in Hdf as [raw ->].
  by apply half_split_fails_gate.
Qed.

Lemma fallback_frame_fails_gate_witness :
  ∃ df,
    _fallback_fetch_ohlcv (Returned widening_ohlcv) = Some df
    ∧ (ATR_MA_PERIOD defaults + ATR_PERIOD defaults + 2 <= length df)%nat
    ∧ map (fun c => (open c, high c, low c, close c, volume c)) df
      = map (fun c => (open c, high c, low c, close c, volume c))
            (widening_window 8000)
    ∧ gate_anti_wash_trading defaults df = Ok false
    ∧ gate_anti_wash_trading defaults (widening_window 8000) = Ok true.
Proof.
  assert (Hlo : (WASH_TRADE_TAKER_RATIO_LOW defaults <= 1 # 2)%Q)
    by (vm_compute; discriminate).
  assert (Hhi : (1 # 2 <= WASH_TRADE_TAKER_RATIO_HIGH defaults)%Q)
    by (vm_compute; discriminate).
  assert (Hdf : ∃ df, _fallback_fetch_ohlcv (Returned widening_ohlcv)
                      = Some df
                      ∧ df = map ohlcv_candle widening_ohlcv)
    by (eexists; split; reflexivity).
  destruct Hdf as (df & Hdf & Heq). exists df.
  split; [exact Hdf|].
  split; [rewrite Heq; vm_compute; lia|].
  split; [rewrite Heq; vm_compute; reflexivity|].
  split; [|vm_compute; reflexivity].
  exact (fallback_frame_fails_gate defaults (Returned widening_ohlcv) df
           Hlo Hhi Hdf).
Defined.

Section Retry.

Variables (MAX_RETRIES : nat) (RETRY_DELAY_S : Q).
Variable answer : nat -> Fetched OrderBookSnapshot.

Local Notation "'retry_loop'" :=
  (fetch_orderbook_from MAX_RETRIES RETRY_DELAY_S answer).

Lemma fetch_from_calls (r a : nat) :
  ∃ k, (k <= r)%nat ∧ calls (retry_loop a r).2 = seq a k.
Proof.
  revert a. induction r as [|r IH]; intros a; simpl.
  - by exists 0%nat.
  - destruct (answer a) as [ob|[]]; try (exists 1%nat; split; [lia|done]).
    destruct (IH (S a)) as (k & Hk & Hc).
    exists (S k). split; [lia|].
    destruct (a <? MAX_RETRIES)%nat; simpl; by rewrite Hc.
Qed.

Lemma fetch_from_result (r a : nat) (ob : OrderBookSnapshot) :
  (retry_loop a r).1 = Some ob
  <-> ∃ j, (j < r)%nat ∧ answer (a + j)%nat = Returned ob
           ∧ ∀ i, (i < j)%nat -> answer (a + i)%nat = Failed NetworkError.
Proof.
  revert a. induction r as [|r IH]; intros a; simpl.
  - split; [done|]. intros (j & Hj & _). lia.
  - destruct (answer a) as [ob'|e] eqn:Ea.
    + simpl. split.
      * intros [= ->]. exists 0%nat. rewrite Nat.add_0_r.
        split; [lia|]. split; [done|]. intros i Hi. lia.
      * intros (j & _ & Hret & Hprev). destruct j as [|j].
        -- rewrite Nat.add_0_r in Hret. congruence.
        -- specialize (Hprev 0%nat). rewrite Nat.add_0_r in Hprev.
           rewrite Ea in Hprev. discriminate Hprev. lia.
    + assert (Hrest : e = NetworkError ->
                ((retry_loop (S a) r).1 = Some ob
                 <-> ∃ j, (j < S r)%nat ∧ answer (a + j)%nat = Returned ob
                          ∧ ∀ i, (i < j)%nat ->
                                 answer (a + i)%nat = Failed NetworkError)).
      { intros ->. rewrite IH. split.
        - intros (j & Hj & Hret & Hprev). exists (S j).
          split; [lia|]. split; [by rewrite Nat.add_succ_r|].
          intros [|i] Hi; [by rewrite Nat.add_0_r|].
          rewrite Nat.add_succ_r. apply Hprev. lia.
        - intros (j & Hj & Hret & Hprev). destruct j as [|j].
          + rewrite Nat.add_0_r in Hret. congruence.
          + exists j. split; [lia|].
            split; [by rewrite Nat.add_succ_r in Hret|].
            intros i Hi. specialize (Hprev (S i)).
            rewrite Nat.add_succ_r in Hprev. apply Hprev. lia. }
      assert (Hstop : e <> NetworkError ->
                ¬ ∃ j, (j < S r)%nat ∧ answer (a + j)%nat = Returned ob
                       ∧ ∀ i, (i < j)%nat ->
                              answer (a + i)%nat = Failed NetworkError).
      { intros Hne (j & _ & Hret & Hprev). destruct j as [|j].
        - rewrite Nat.add_0_r in Hret. congruence.
        - specialize (Hprev 0%nat). rewrite Nat.add_0_r in Hprev.
          rewrite Ea in Hprev. assert (0 < S j)%nat as H0 by lia.
          specialize (Hprev H0). congruence. }
      destruct e; try (simpl; split; [done|]; intros H;
                       exfalso; by apply Hstop in H).
      destruct (a <? MAX_RETRIES)%nat; simpl; by apply Hrest.
Qed.

Lemma slept_called (k : nat) (t : list IoStep) :
  slept (Called k :: t) = slept t.
Proof. done. Qed.

Lemma slept_slept (d : Q) (t : list IoStep) :
  slept (Slept d :: t) = (d + slept t)%Q.
Proof. done. Qed.

Lemma fetch_from_slept (r a : nat) :
  (0 <= RETRY_DELAY_S)%Q -> (a + r = MAX_RETRIES + 1)%nat ->
  (0 <= slept (retry_loop a r).2)%Q
  ∧ (slept (retry_loop a r).2
     <= RETRY_DELAY_S * inject_Z (Z.of_nat (list_sum (seq a (r - 1)))))%Q.
Proof.
  intros Hd. revert a. induction r as [|r IH]; intros a Har.
  - split.
    + change (0 <= 0)%Q. lra.
    + change (0 <= RETRY_DELAY_S * 0)%Q. lra.
  - assert (Hb : (0 <= RETRY_DELAY_S
                       * inject_Z (Z.of_nat (list_sum (seq a (S r - 1)))))%Q).
    { apply Qmult_le_0_compat; [done|].
      change 0%Q with (inject_Z 0). rewrite <- Zle_Qle. lia. }
    simpl fetch_orderbook_from.
    destruct (answer a) as [ob|[]]; simpl snd;
      try (rewrite slept_called; split; [change (0 <= 0)%Q; lra|exact Hb]).
    destruct (a <? MAX_RETRIES)%nat eqn:Ea; simpl snd.
    + apply Nat.ltb_lt in Ea.
      destruct (IH (S a)) as [H0 H1]; [lia|].
      rewrite slept_called, slept_slept.
      assert (Ha : (0 <= RETRY_DELAY_S * inject_Z (Z.of_nat a))%Q).
      { apply Qmult_le_0_compat; [done|].
        change 0%Q with (inject_Z 0). rewrite <- Zle_Qle. lia. }
      split; [lra|].
      replace (S r - 1)%nat with (S (r - 1)) by lia. simpl seq. simpl list_sum.
      rewrite Nat2Z.inj_add, inject_Z_plus. lra.
    + apply Nat.ltb_ge in Ea. assert (r = 0%nat) as -> by lia.
      simpl fetch_orderbook_from. simpl snd. rewrite slept_called.
      split; [change (0 <= 0)%Q; lra|exact Hb].
Qed.

Lemma list_sum_seq_1 (n : nat) :
  (2 * list_sum (seq 1 n) = n * (n + 1))%nat.
Proof.
  induction n as [|n IH]; [done|].
  rewrite seq_S, list_sum_app. simpl list_sum. lia.
Qed.

(** What the loop does from the attempt [a] on, step by step: it goes
    through the attempts that fail with a network error, sleeping after
    each, and stops at the first attempt [k] that does not, or at the last
    one allowed, without a sleep after it. *)
Lemma fetch_from_trace (r a : nat) :
  (1 <= r)%nat -> (a + r = MAX_RETRIES + 1)%nat ->
  ∃ k, (a <= k <= MAX_RETRIES)%nat
    ∧ (∀ i, (a <= i < k)%nat -> answer i = Failed NetworkError)
    ∧ ((k < MAX_RETRIES)%nat -> answer k <> Failed NetworkError)
    ∧ (retry_loop a r).2
      = (flat_map (failed_attempt RETRY_DELAY_S) (seq a (k - a))
         ++ [Called k])%list
    ∧ (retry_loop a r).1
      = match answer k with Returned ob => Some ob | Failed _ => None end.
Proof.
  revert a. induction r as [|r IH]; intros a Hr Har; [lia|].
  assert (Hstop : ∀ res,
            retry_loop a (S r) = (res, [Called a]) ->
            res = match answer a with
                  | Returned ob => Some ob | Failed _ => None end ->
            ((a < MAX_RETRIES)%nat -> answer a <> Failed NetworkError) ->
            ∃ k, (a <= k <= MAX_RETRIES)%nat
              ∧ (∀ i, (a <= i < k)%nat -> answer i = Failed NetworkError)
              ∧ ((k < MAX_RETRIES)%nat -> answer k <> Failed NetworkError)
              ∧ (retry_loop a (S r)).2
                = (flat_map (failed_attempt RETRY_DELAY_S) (seq a (k - a))
                   ++ [Called k])%list
              ∧ (retry_loop a (S r)).1
                = match answer k with
                  | Returned ob => Some ob | Failed _ => None end).
  { intros res Hrun Hres Hne. exists a. split; [lia|].
    split; [intros i Hi; lia|]. split; [done|].
    rewrite Hrun, Nat.sub_diag. by split. }
  cbn [fetch_orderbook_from] in *.
  destruct (answer a) as [ob|e] eqn:Ea; [by eapply Hstop|].
  destruct e; try (by eapply Hstop).
  destruct (a <? MAX_RETRIES)%nat eqn:Elt.
  - apply Nat.ltb_lt in Elt.
    destruct (IH (S a)) as (k & Hk & Hprev & Hnext & Htr & Hres);
      [lia|lia|].
    exists k. split; [lia|]. split.
    { intros i Hi. destruct (decide (i = a)) as [->|Hia]; [done|].
      apply Hprev. lia. }
    split; [done|]. cbn [fst snd]. rewrite Htr, Hres. split; [|done].
    replace (k - a)%nat with (S (k - S a)) by lia. done.
  - apply Nat.ltb_ge in Elt. assert (r = 0%nat) as -> by lia.
    eapply Hstop; [reflexivity|done|lia].
Qed.

End Retry.

(** X13: [fetch_orderbook] makes its attempts in order and stops at the
    first one that does not fail with a network error, or at the last one
    allowed.  What it does is exactly this: each attempt before the one it
    stops at, followed by a sleep of [RETRY_DELAY_S * attempt] seconds,
    then the attempt it stops at, with no sleep after it; it returns the
    book of that attempt when it answered and [None] otherwise, and makes
    no call at all when [MAX_RETRIES] is 0.  So it returns a book exactly
    when some attempt within the budget answers after network errors only,
    and with a delay that is not negative it sleeps no more than
    [RETRY_DELAY_S * MAX_RETRIES * (MAX_RETRIES - 1) / 2] seconds in
    all. *)
Theorem fetch_orderbook_bounded_retries (MAX_RETRIES : nat)
    (RETRY_DELAY_S : Q) (answer : nat -> Fetched OrderBookSnapshot) :
  let run := fetch_orderbook MAX_RETRIES RETRY_DELAY_S answer in
  (MAX_RETRIES = 0%nat -> run = (None, []))
  ∧ ((1 <= MAX_RETRIES)%nat ->
     ∃ k, (1 <= k <= MAX_RETRIES)%nat
       ∧ (∀ i, (1 <= i < k)%nat -> answer i = Failed NetworkError)
       ∧ ((k < MAX_RETRIES)%nat -> answer k <> Failed NetworkError)
       ∧ run.2 = (flat_map (failed_attempt RETRY_DELAY_S) (seq 1 (k - 1))
                  ++ [Called k])%list
       ∧ run.1 = match answer k with
                 | Returned ob => Some ob | Failed _ => None end)
  ∧ (∀ ob,
       run.1 = Some ob
       <-> ∃ k, (1 <= k <= MAX_RETRIES)%nat ∧ answer k = Returned ob
                ∧ ∀ i, (1 <= i < k)%nat -> answer i = Failed NetworkError)
  ∧ ((0 <= RETRY_DELAY_S)%Q ->
     (slept run.2 * 2
      <= RETRY_DELAY_S
         * inject_Z (Z.of_nat (MAX_RETRIES * (MAX_RETRIES - 1))))%Q).
Proof.
  intros run. unfold run, fetch_orderbook.
  split; [by intros ->|].
  split; [intros Hm; apply fetch_from_trace; lia|]. split.
  - intros ob. rewrite fetch_from_result. split.
    + intros (j & Hj & Hret & Hprev). exists (S j).
      split; [lia|]. split; [done|].
      intros i Hi. replace i with (1 + (i - 1))%nat by lia.
      apply Hprev. lia.
    + intros (k & Hk & Hret & Hprev). exists (k - 1)%nat.
      split; [lia|]. split; [by replace (1 + (k - 1))%nat with k by lia|].
      intros i Hi. apply Hprev. lia.
  - intros Hd.
    destruct (fetch_from_slept MAX_RETRIES RETRY_DELAY_S answer
                MAX_RETRIES 1 Hd) as [_ H]; [lia|].
    pose proof (list_sum_seq_1 (MAX_RETRIES - 1)) as Hsum.
    assert (Hn : (MAX_RETRIES * (MAX_RETRIES - 1)
                  = 2 * list_sum (seq 1 (MAX_RETRIES - 1)))%nat).
    { rewrite Hsum. destruct MAX_RETRIES as [|n]; [done|].
      replace (S n - 1)%nat with n by lia. lia. }
    rewrite Hn, Nat2Z.inj_mul, inject_Z_mult.
    change (inject_Z (Z.of_nat 2)) with 2%Q. lra.
Qed.

Lemma fetch_orderbook_bounded_retries_witness :
  (1 <= 3)%nat ∧ (0 <= 2)%Q
  ∧ (∃ k, (1 <= k <= 3)%nat
       ∧ (fetch_orderbook 3 2 (fun _ => Failed NetworkError)).2
         = (flat_map (failed_attempt 2) (seq 1 (k - 1)) ++ [Called k])%list)
  ∧ (fetch_orderbook 3 2 (fun _ => Failed NetworkError)).2
    = (failed_attempt 2 1 ++ failed_attempt 2 2 ++ [Called 3])%list
  ∧ (slept (fetch_orderbook 3 2 (fun _ => Failed NetworkError)).2 * 2
     <= 2 * inject_Z (Z.of_nat (3 * (3 - 1))))%Q
  ∧ slept (fetch_orderbook 3 2 (fun _ => Failed NetworkError)).2 = 6%Q.
Proof.
  assert (H3 : (1 <= 3)%nat) by lia.
  assert (H : (0 <= 2)%Q) by (vm_compute; discriminate).
  pose proof (fetch_orderbook_bounded_retries 3 2
                (fun _ => Failed NetworkError)) as (_ & Htr & _ & Hsl).
  split; [exact H3|]. split; [exact H|]. split.
  { destruct (Htr H3) as (k & Hk & _ & _ & Ht & _). exists k. by split. }
  split; [reflexivity|]. split; [exact (Hsl H)|vm_compute; reflexivity].
Defined.

End Ingestion.

(** ** The volume profile and its levels *)

Section LevelsMore.

Lemma length_np_linspace (a b : Q) (n : nat) :
  length (np_linspace a b n) = n.
Proof.
  unfold np_linspace. destruct n as [|[|n]]; [done..|].
  rewrite length_app, length_map, length_seq. simpl. lia.
Qed.

Lemma length_removelast {A : Type} (l : list A) :
  length (removelast l) = (length l - 1)%nat.
Proof.
  induction l as [|x l IH]; [done|].
  destruct l as [|y l]; [done|].
  change (removelast (x :: y :: l)) with (x :: removelast (y :: l)).
  simpl length in *. lia.
Qed.

Lemma np_linspace_upper (a b : Q) (n : nat) (e : Q) :
  (a <= b)%Q -> In e (np_linspace a b (S n)) -> (e <= b)%Q.
Proof.
  intros Hab. unfold np_linspace. destruct n as [|n].
  - intros [<-|[]]. lra.
  - intros H. apply in_app_or in H as [H|[<-|[]]]; [|lra].
    apply in_map_iff in H as (i & <- & Hi). apply in_seq in Hi.
    assert (Hn : (0 < inject_Z (Z.of_nat (S n)))%Q).
    { change 0%Q with (inject_Z 0). rewrite <- Zlt_Qlt. lia. }
    assert (Hin : (inject_Z (Z.of_nat i) <= inject_Z (Z.of_nat (S n)))%Q).
    { rewrite <- Zle_Qle. lia. }
    assert (Hi0 : (0 <= inject_Z (Z.of_nat i))%Q).
    { change 0%Q with (inject_Z 0). rewrite <- Zle_Qle. lia. }
    set (N := inject_Z (Z.of_nat (S n))) in *.
    set (I := inject_Z (Z.of_nat i)) in *.
    assert (Hstep : (I * ((b - a) / N) <= b - a)%Q).
    { assert (Hs : (0 <= (b - a) / N)%Q) by (apply Qle_shift_div_l; lra).
      assert (HN : (N * ((b - a) / N) == b - a)%Q) by (field; lra).
      assert (H1 : (I * ((b - a) / N) <= N * ((b - a) / N))%Q)
        by (apply Qmult_le_compat_r; lra).
      by rewrite HN in H1. }
    lra.
Qed.

(** The bin midpoints of the histogram: one per bin, each inside the price
    range. *)
Lemma volume_bins_mids (bins : nat) (price_min price_max : Q)
    (df : DataFrame) (mids vols : list Q) :
  (price_min <= price_max)%Q ->
  volume_bins bins price_min price_max df = Ok (mids, vols) ->
  length mids = bins ∧ length vols = bins
  ∧ ∀ m, In m mids -> (price_min <= m)%Q ∧ (m <= price_max)%Q.
Proof.
  intros Hle. unfold volume_bins.
  destruct (bins =? 0)%nat; [done|]. intros [= <- <-].
  split; [|split].
  - rewrite length_zip_with, length_removelast, length_tl,
      length_np_linspace. lia.
  - by rewrite length_np_add_at, length_replicate.
  - intros m Hm. apply In_zip_with in Hm as (x & y & -> & Hx & Hy).
    apply In_removelast in Hx. apply In_tail in Hy.
    replace (bins + 1)%nat with (S bins) in Hx, Hy by lia.
    pose proof (np_linspace_lower _ _ _ _ Hle Hx).
    pose proof (np_linspace_lower _ _ _ _ Hle Hy).
    pose proof (np_linspace_upper _ _ _ _ Hle Hx).
    pose proof (np_linspace_upper _ _ _ _ Hle Hy).
    split.
    + apply Qle_shift_div_l; lra.
    + apply Qle_shift_div_r; lra.
Qed.

Lemma sort_insert_In (x : Q) (l : list Q) : In x (sort_insert x l).
Proof.
  induction l as [|y l IH]; simpl; [by left|].
  destruct (Qle_bool x y); simpl; auto.
Qed.

Lemma sort_insert_keeps (x y : Q) (l : list Q) :
  In x l -> In x (sort_insert y l).
Proof.
  induction l as [|z l IH]; simpl; [done|].
  destruct (Qle_bool y z); simpl; intros [H|H]; auto.
Qed.

Lemma np_sort_keeps (x : Q) (l : list Q) : In x l -> In x (np_sort l).
Proof.
  induction l as [|y l IH]; simpl; [done|].
  intros [->|H]; [apply sort_insert_In|]. by apply sort_insert_keeps, IH.
Qed.

Lemma sort_insert_sorted (x : Q) (l : list Q) :
  StronglySorted Qle l -> StronglySorted Qle (sort_insert x l).
Proof.
  induction 1 as [|y l Hs IH Hall]; simpl.
  - constructor; [constructor|constructor].
  - destruct (Qle_bool x y) eqn:E.
    + apply Qle_bool_iff in E. constructor; [by constructor|].
      constructor; [done|].
      eapply Forall_impl; [exact Hall|]. intros z Hz. simpl in Hz. lra.
    + assert (Hyx : (y < x)%Q).
      { apply Qnot_le_lt. intros Hle. apply Qle_bool_iff in Hle.
        congruence. }
      constructor; [done|].
      apply Forall_forall. intros z Hz.
      apply list_elem_of_In, In_sort_insert in Hz as [->|Hz]; [lra|].
      rewrite Forall_forall in Hall. apply Hall. by apply list_elem_of_In.
Qed.

(** [np.sort] returns its input in ascending order. *)
Lemma np_sort_sorted (l : list Q) : StronglySorted Qle (np_sort l).
Proof.
  induction l as [|y l IH]; simpl; [constructor|].
  by apply sort_insert_sorted.
Qed.

Lemma sorted_nth_le (l : list Q) (d : Q) (i j : nat) :
  StronglySorted Qle l -> (i <= j)%nat -> (j < length l)%nat ->
  (nth i l d <= nth j l d)%Q.
Proof.
  intros Hs. revert i j. induction Hs as [|y l Hs IH Hall]; intros i j Hij Hj.
  - simpl in Hj. lia.
  - destruct j as [|j].
    + assert (i = 0%nat) as -> by lia. simpl. lra.
    + simpl in Hj. destruct i as [|i].
      * simpl. rewrite Forall_forall in Hall. apply Hall.
        apply list_elem_of_In, nth_In. lia.
      * simpl. apply IH; lia.
Qed.

Lemma sorted_filter (f : Q -> bool) (l : list Q) :
  StronglySorted Qle l -> StronglySorted Qle (List.filter f l).
Proof.
  induction 1 as [|y l Hs IH Hall]; simpl; [constructor|].
  destruct (f y); [|done]. constructor; [done|].
  apply Forall_forall. intros z Hz.
  apply list_elem_of_In, filter_In in Hz as [Hz _].
  rewrite Forall_forall in Hall. apply Hall. by apply list_elem_of_In.
Qed.

Lemma sorted_head_least (l : list Q) (a : Q) :
  StronglySorted Qle l -> head l = Some a ->
  In a l ∧ ∀ x, In x l -> (a <= x)%Q.
Proof.
  intros Hs. destruct Hs as [|y l Hs Hall]; [done|]. intros [= ->].
  split; [by left|]. intros x [<-|Hx]; [lra|].
  rewrite Forall_forall in Hall. apply Hall. by apply list_elem_of_In.
Qed.

Lemma sorted_last_greatest (l : list Q) (b : Q) :
  StronglySorted Qle l -> last l = Some b ->
  In b l ∧ ∀ x, In x l -> (x <= b)%Q.
Proof.
  induction 1 as [|y l Hs IH Hall]; [done|].
  destruct l as [|z l].
  - intros [= ->]. split; [by left|]. intros x [<-|[]]. lra.
  - change (last (y :: z :: l)) with (last (z :: l)). intros Hl.
    destruct (IH Hl) as [Hin Hmax]. split; [by right|].
    intros x [<-|Hx]; [|by apply Hmax].
    rewrite Forall_forall in Hall. apply Hall. by apply list_elem_of_In.
Qed.

(** Linear interpolation between two neighbouring ranks of a sorted array
    stays below one of its entries (or the default of an empty one). *)
Lemma interpolation_below_entry (s : list Q) (s0 q : Q) :
  StronglySorted Qle s -> (0 <= q)%Q -> (q <= 100)%Q ->
  let n := length s in
  let virtual_index := (q / 100 * inject_Z (Z.of_nat (n - 1)))%Q in
  let previous := Z.to_nat (Qfloor virtual_index) in
  let next := Nat.min (S previous) (n - 1) in
  let gamma := (virtual_index - inject_Z (Qfloor virtual_index))%Q in
  let lo := nth previous s s0 in
  let hi := nth next s s0 in
  ∃ v, (v = s0 ∨ In v s) ∧ (lo + (hi - lo) * gamma <= v)%Q.
Proof.
  intros Hs Hq0 Hq100 n vi previous next g lo hi.
  assert (Hn1 : (0 <= inject_Z (Z.of_nat (n - 1)))%Q).
  { change 0%Q with (inject_Z 0). rewrite <- Zle_Qle. lia. }
  assert (Hq1 : (0 <= q / 100)%Q) by (apply Qle_shift_div_l; lra).
  assert (Hq2 : (q / 100 <= 1)%Q) by (apply Qle_shift_div_r; lra).
  assert (Hvi0 : (0 <= vi)%Q) by (apply Qmult_le_0_compat; lra).
  assert (Hvi1 : (vi <= inject_Z (Z.of_nat (n - 1)))%Q).
  { unfold vi. rewrite <- (Qmult_1_l (inject_Z (Z.of_nat (n - 1)))) at 2.
    apply Qmult_le_compat_r; lra. }
  assert (Hf0 : (0 <= Qfloor vi)%Z).
  { change 0%Z with (Qfloor 0). by apply Qfloor_resp_le. }
  assert (Hf1 : (Qfloor vi <= Z.of_nat (n - 1))%Z).
  { rewrite <- (Qfloor_Z (Z.of_nat (n - 1))). by apply Qfloor_resp_le. }
  assert (Hp : (previous <= n - 1)%nat) by (unfold previous; lia).
  assert (Hpn : (previous <= next)%nat) by (unfold next; lia).
  assert (Hnx : (next <= n - 1)%nat) by (unfold next; lia).
  pose proof (Qfloor_le vi) as Hg0.
  pose proof (Qlt_floor vi) as Hg1.
  rewrite Z.add_comm, inject_Z_plus in Hg1.
  change (inject_Z 1) with 1%Q in Hg1.
  assert (Hg : (0 <= g)%Q ∧ (g <= 1)%Q) by (unfold g; split; lra).
  destruct Hg as [Hg0' Hg1'].
  assert (Hlohi : (lo <= hi)%Q ∧ (hi = s0 ∨ In hi s)).
  { destruct (decide (n = 0%nat)) as [Hz|Hz].
    - unfold lo, hi. rewrite !nth_overflow by (fold n; lia).
      split; [lra|by left].
    - split; [apply sorted_nth_le; [done..|fold n; lia]|].
      right. apply nth_In. fold n. lia. }
  destruct Hlohi as [Hlohi Hhi].
  exists hi. split; [done|]. clearbody lo hi g.
  assert (0 <= (hi - lo) * (1 - g))%Q by (apply Qmult_le_0_compat; lra).
  lra.
Qed.

(** The percentile of an array is at most one of its entries. *)
Lemma np_percentile_below_entry (a : list Q) (q th : Q) :
  np_percentile a q = Ok th -> ∃ v, In v a ∧ (th <= v)%Q.
Proof.
  unfold np_percentile.
  destruct (Qlt_bool q 0 || Qlt_bool 100 q) eqn:Eq; [done|].
  apply orb_false_iff in Eq as [Hq0 Hq100].
  apply Qlt_bool_false_iff in Hq0, Hq100.
  pose proof (np_sort_sorted a) as Hs.
  destruct (np_sort a) as [|s0 s'] eqn:Es; [done|].
  cbv zeta. intros Heq.
  destruct (interpolation_below_entry (s0 :: s') s0 q Hs Hq0 Hq100)
    as (v & Hv & Hle).
  exists v. split.
  - apply In_np_sort. rewrite Es. destruct Hv as [->|Hv]; [by left|done].
  - injection Heq as <-. exact Hle.
Qed.

(** [np_percentile] on [1, 2, 3, 4]: the smallest entry at 0, the largest
    at 100, half-way between the two middle ones at 50, and a quarter of
    the way from 3 to 4 at 75. *)
Lemma np_percentile_samples :
  ∃ p0 p50 p75 p100,
    np_percentile [3; 1; 4; 2]%Q 0 = Ok p0
    ∧ np_percentile [3; 1; 4; 2]%Q 50 = Ok p50
    ∧ np_percentile [3; 1; 4; 2]%Q 75 = Ok p75
    ∧ np_percentile [3; 1; 4; 2]%Q 100 = Ok p100
    ∧ (p0 == 1)%Q ∧ (p50 == 2.5)%Q ∧ (p75 == 3.25)%Q ∧ (p100 == 4)%Q.
Proof.
  eexists _, _, _, _. do 4 (split; [vm_compute; reflexivity|]).
  repeat split; vm_compute; reflexivity.
Qed.

Lemma In_zip_r {A B : Type} (l : list A) (k : list B) (y : B) :
  length l = length k -> In y k -> ∃ x, In (x, y) (zip l k).
Proof.
  revert k. induction l as [|a l IH]; intros [|b k] Hlen Hy;
    simpl in *; try done.
  destruct Hy as [<-|Hy]; [exists a; by left|].
  destruct (IH k) as [x Hx]; [lia|done|]. exists x. by right.
Qed.

(** Some bin always reaches the percentile threshold. *)
Lemma select_hvn_nonempty (mids vols : list Q) (q th : Q) :
  length mids = length vols -> np_percentile vols q = Ok th ->
  select_hvn mids vols th <> [].
Proof.
  intros Hlen Hth.
  apply np_percentile_below_entry in Hth as (v & Hv & Hle).
  destruct (In_zip_r mids vols v Hlen Hv) as [m Hm].
  assert (In m (select_hvn mids vols th)) as Hin.
  { unfold select_hvn. apply in_map_iff. exists (m, v). split; [done|].
    apply filter_In. split; [done|]. simpl. by apply Qle_bool_iff. }
  intros E. rewrite E in Hin. destruct Hin.
Qed.

Lemma length_select_hvn (mids vols : list Q) (th : Q) :
  (length (select_hvn mids vols th) <= length vols)%nat.
Proof.
  unfold select_hvn. rewrite length_map.
  etrans; [apply filter_length_le|].
  rewrite length_zip_with. lia.
Qed.

(** X16: on a window whose highest high lies above its lowest low, and
    with at least one bin and a percentile between 0 and 100,
    [_get_hvn_levels] returns at least one level and at most [VP_BINS] of
    them, in ascending order, every one of them between the lowest low and
    the highest high of the window. *)
Theorem hvn_levels_exist_in_range (cfg : Config) (df : DataFrame)
    (price_min price_max : Q) :
  sane_profile cfg = true ->
  col_min (map low df) = Some price_min ->
  col_max (map high df) = Some price_max ->
  (price_min < price_max)%Q ->
  ∃ levels,
    risk_manager._get_hvn_levels cfg df = Ok levels
    ∧ levels <> []
    ∧ (length levels <= VP_BINS cfg)%nat
    ∧ StronglySorted Qle levels
    ∧ ∀ x, In x levels -> (price_min <= x)%Q ∧ (x <= price_max)%Q.
Proof.
  intros Hcfg Hmin Hmax Hlt.
  apply sane_profile_spec in Hcfg as (Hbins & Hq0 & Hq100).
  unfold risk_manager._get_hvn_levels. rewrite Hmin, Hmax.
  rewrite (Qle_bool_false price_min price_max) by done.
  destruct (volume_bins_ok (VP_BINS cfg) price_min price_max df)
    as (mids & vols & Ev & _); [done|lra|].
  rewrite Ev. run.
  apply volume_bins_mids in Ev as (Hm & Hv & Hrange); [|lra].
  destruct (np_percentile_ok vols (HVN_PERCENTILE cfg)) as [th Hth];
    [lia|done..|].
  rewrite Hth. run. eexists. split; [done|].
  split; [|split; [|split]].
  - intros E. apply (f_equal length) in E.
    rewrite length_np_sort in E.
    apply (select_hvn_nonempty mids vols (HVN_PERCENTILE cfg) th);
      [lia|done|]. by apply nil_length_inv.
  - rewrite length_np_sort. etrans; [apply length_select_hvn|]. lia.
  - apply np_sort_sorted.
  - intros x Hx. apply In_np_sort, In_select_hvn in Hx. by apply Hrange.
Qed.

Lemma hvn_levels_exist_in_range_witness :
  ∃ levels,
    risk_manager._get_hvn_levels five_bins five_bin_window = Ok levels
    ∧ levels <> []
    ∧ StronglySorted Qle levels
    ∧ Forall2 Qeq levels [5; 45]%Q.
Proof.
  assert (Hc : sane_profile five_bins = true) by (vm_compute; reflexivity).
  assert (Hmin : col_min (map low five_bin_window) = Some 0%Q)
    by (vm_compute; reflexivity).
  assert (Hmax : col_max (map high five_bin_window) = Some 50%Q)
    by (vm_compute; reflexivity).
  assert (Hlt : (0 < 50)%Q) by (vm_compute; reflexivity).
  assert (Hval : ∃ levels,
            risk_manager._get_hvn_levels five_bins five_bin_window
            = Ok levels ∧ Forall2 Qeq levels [5; 45]%Q).
  { eexists. split; [vm_compute; reflexivity|].
    repeat constructor; vm_compute; reflexivity. }
  destruct Hval as (levels' & Hl' & Hv).
  destruct (hvn_levels_exist_in_range five_bins five_bin_window 0 50
              Hc Hmin Hmax Hlt) as (levels & H1 & H2 & _ & H3 & _).
  exists levels. split; [exact H1|]. split; [exact H2|].
  split; [exact H3|]. rewrite H1 in Hl'. by injection Hl' as <-.
Defined.

(** X17: on the levels [_get_hvn_levels] returns,
    [_find_nearest_above] answers the lowest level strictly above the
    price and [_find_nearest_below] the highest level strictly below it;
    each answers [None] exactly when no level lies on that side. *)
Theorem nearest_levels_are_nearest (cfg : Config) (df : DataFrame)
    (levels : list Q) (price : Q) :
  risk_manager._get_hvn_levels cfg df = Ok levels ->
  (∀ a, _find_nearest_above levels price = Some a ->
        In a levels ∧ (price < a)%Q
        ∧ ∀ l, In l levels -> (price < l)%Q -> (a <= l)%Q)
  ∧ (∀ b, _find_nearest_below levels price = Some b ->
          In b levels ∧ (b < price)%Q
          ∧ ∀ l, In l levels -> (l < price)%Q -> (l <= b)%Q)
  ∧ (_find_nearest_above levels price = None
     <-> ∀ l, In l levels -> (l <= price)%Q)
  ∧ (_find_nearest_below levels price = None
     <-> ∀ l, In l levels -> (price <= l)%Q).
Proof.
  intros Hlev.
  assert (Hs : StronglySorted Qle levels).
  { revert Hlev. unfold risk_manager._get_hvn_levels.
    destruct (col_min (map low df)); [|done].
    destruct (col_max (map high df)); [|done].
    destruct (Qle_bool _ _); [intros [= <-]; constructor|].
    destruct (volume_bins _ _ _ _) as [[mids vols]|]; [|done]. run.
    destruct (np_percentile _ _); [|done]. run.
    intros [= <-]. apply np_sort_sorted. }
  unfold _find_nearest_above, _find_nearest_below.
  split; [|split; [|split]].
  - intros a Ha.
    apply sorted_head_least in Ha as [Hin Hmin]; [|by apply sorted_filter].
    apply filter_In in Hin as [Hin Hp]. apply Qlt_bool_true in Hp.
    split; [done|]. split; [done|]. intros l Hl Hpl. apply Hmin.
    apply filter_In. split; [done|]. by apply Qlt_bool_true.
  - intros b Hb.
    apply sorted_last_greatest in Hb as [Hin Hmax];
      [|by apply sorted_filter].
    apply filter_In in Hin as [Hin Hp]. apply Qlt_bool_true in Hp.
    split; [done|]. split; [done|]. intros l Hl Hpl. apply Hmax.
    apply filter_In. split; [done|]. by apply Qlt_bool_true.
  - rewrite head_None. split.
    + intros E l Hl. apply Qlt_bool_false_iff.
      destruct (Qlt_bool price l) eqn:Ep; [|done].
      assert (In l (List.filter (fun l => Qlt_bool price l) levels)) as Hin
        by (apply filter_In; by split).
      rewrite E in Hin. destruct Hin.
    + intros Hall.
      destruct (List.filter _ levels) as [|x rest] eqn:E; [done|].
      assert (In x (List.filter (fun l => Qlt_bool price l) levels)) as Hin
        by (rewrite E; by left).
      apply filter_In in Hin as [Hin Hp]. apply Qlt_bool_true in Hp.
      specialize (Hall x Hin). lra.
  - rewrite last_None. split.
    + intros E l Hl. apply Qlt_bool_false_iff.
      destruct (Qlt_bool l price) eqn:Ep; [|done].
      assert (In l (List.filter (fun l => Qlt_bool l price) levels)) as Hin
        by (apply filter_In; by split).
      rewrite E in Hin. destruct Hin.
    + intros Hall.
      destruct (List.filter _ levels) as [|x rest] eqn:E; [done|].
      assert (In x (List.filter (fun l => Qlt_bool l price) levels)) as Hin
        by (rewrite E; by left).
      apply filter_In in Hin as [Hin Hp]. apply Qlt_bool_true in Hp.
      specialize (Hall x Hin). lra.
Qed.

Lemma nearest_levels_are_nearest_witness :
  ∃ levels a b,
    risk_manager._get_hvn_levels five_bins five_bin_window = Ok levels
    ∧ _find_nearest_above levels 16 = Some a
    ∧ _find_nearest_below levels 16 = Some b
    ∧ (a == 45)%Q ∧ (b == 5)%Q
    ∧ (∀ l, In l levels -> (16 < l)%Q -> (a <= l)%Q)
    ∧ (∀ l, In l levels -> (l < 16)%Q -> (l <= b)%Q).
Proof.
  assert (E : ∃ levels a b,
             risk_manager._get_hvn_levels five_bins five_bin_window
             = Ok levels
             ∧ _find_nearest_above levels 16 = Some a
             ∧ _find_nearest_below levels 16 = Some b
             ∧ (a == 45)%Q ∧ (b == 5)%Q).
  { eexists _, _, _. split; [vm_compute; reflexivity|].
    split; [vm_compute; reflexivity|]. split; [vm_compute; reflexivity|].
    split; vm_compute; reflexivity. }
  destruct E as (levels & a & b & E & Ha & Hb & Hva & Hvb).
  exists levels, a, b. do 5 (split; [done|]).
  destruct (nearest_levels_are_nearest five_bins five_bin_window levels 16 E)
    as (Habove & Hbelow & _).
  split; [exact (proj2 (proj2 (Habove a Ha)))
         |exact (proj2 (proj2 (Hbelow b Hb)))].
Defined.

End LevelsMore.

(** ** The exported metrics *)

Section Metrics.

Import metrics_exporter.

Lemma iloc_last_eq {A : Type} (xs : list A) :
  iloc xs (-1)
  = match last xs with Some x => Ok x | None => Raise IndexError end.
Proof.
  unfold iloc, py_index. change (-1 <? 0)%Z with true. cbv iota.
  destruct xs as [|x xs]; [done|].
  assert (H : (Z.of_nat (length (x :: xs)) + -1 <? 0)%Z = false)
    by (apply Z.ltb_ge; simpl length; lia).
  rewrite H, last_lookup.
  replace (Z.to_nat (Z.of_nat (length (x :: xs)) + -1))
    with (pred (length (x :: xs))) by (simpl length; lia).
  by destruct (_ !! _).
Qed.

(** The last row of a running VWAP started from the sums [a1] and [a2]. *)
Lemma last_running_vwap (a1 a2 : Q) (df : DataFrame) :
  df <> [] ->
  ∃ tpv v,
    last (zip_with
            (fun tpv v => if Qeq_bool v 0 then None else Some (tpv / v)%Q)
            (cumsum_from a1
               (zip_with Qmult
                  (map (fun c => ((high c + low c + close c) / 3)%Q) df)
                  (map volume df)))
            (cumsum_from a2 (map volume df)))
    = Some (if Qeq_bool v 0 then None else Some (tpv / v)%Q)
    ∧ (tpv == a1 + Qsum (zip_with Qmult
                           (map (fun c => ((high c + low c + close c) / 3)%Q)
                                df)
                           (map volume df)))%Q
    ∧ (v == a2 + Qsum (map volume df))%Q.
Proof.
  revert a1 a2. induction df as [|c df IH]; intros a1 a2 Hne; [done|].
  cbn [map zip_with cumsum_from]. rewrite last_cons.
  destruct df as [|c' df].
  - cbn [map zip_with cumsum_from last]. eexists _, _.
    split; [done|]. cbn [Qsum foldr]. split; ring.
  - destruct (IH (a1 + (high c + low c + close c) / 3 * volume c)%Q
                 (a2 + volume c)%Q) as (tpv & v & -> & Ht & Hv); [done|].
    exists tpv, v. split; [done|].
    cbn [map zip_with Qsum foldr] in *. rewrite Ht, Hv. split; ring.
Qed.

Lemma foldl_Qmax_upper (x : Q) (rest : list Q) :
  (x <= foldl Qmax x rest)%Q ∧ ∀ y, In y rest -> (y <= foldl Qmax x rest)%Q.
Proof.
  revert x. induction rest as [|z rest IH]; intros x; simpl.
  - split; [lra|]. intros y [].
  - destruct (IH (Qmax x z)) as [H1 H2].
    pose proof (Q.le_max_l x z). pose proof (Q.le_max_r x z).
    split; [lra|]. intros y [<-|Hy]; [lra|]. by apply H2.
Qed.

Lemma foldl_Qmin_lower (x : Q) (rest : list Q) :
  (foldl Qmin x rest <= x)%Q ∧ ∀ y, In y rest -> (foldl Qmin x rest <= y)%Q.
Proof.
  revert x. induction rest as [|z rest IH]; intros x; simpl.
  - split; [lra|]. intros y [].
  - destruct (IH (Qmin x z)) as [H1 H2].
    pose proof (Q.le_min_l x z). pose proof (Q.le_min_r x z).
    split; [lra|]. intros y [<-|Hy]; [lra|]. by apply H2.
Qed.

Lemma col_max_upper (xs : list Q) (m x : Q) :
  col_max xs = Some m -> In x xs -> (x <= m)%Q.
Proof.
  destruct xs as [|x0 rest]; [done|]. intros [= <-].
  destruct (foldl_Qmax_upper x0 rest) as [H0 H].
  intros [<-|Hx]; [done|]. by apply H.
Qed.

Lemma col_min_lower (xs : list Q) (m x : Q) :
  col_min xs = Some m -> In x xs -> (m <= x)%Q.
Proof.
  destruct xs as [|x0 rest]; [done|]. intros [= <-].
  destruct (foldl_Qmin_lower x0 rest) as [H0 H].
  intros [<-|Hx]; [done|]. by apply H.
Qed.

(** X19: when no volume was traded the exporter and the scoring engine
    differ: the exporter reports the latest close as VWAP, while the
    scoring series is [NaN] there and Condition 3 abstains. *)
Theorem vwap_without_volume (df : DataFrame) :
  df <> [] -> (Qsum (map volume df) == 0)%Q ->
  iloc (map close df) (-1) = _compute_vwap_last df
  ∧ (∃ x, _compute_vwap_last df = Ok x)
  ∧ iloc (_compute_vwap df) (-1) = Ok None
  ∧ _score_vwap df = Ok 0%Z.
Proof.
  intros Hne Hvol.
  assert (Hlast : iloc (_compute_vwap df) (-1) = Ok None).
  { unfold _compute_vwap, cumsum. rewrite iloc_last_eq.
    destruct (last_running_vwap 0 0 df Hne) as (tpv & v & -> & Ht & Hv).
    assert (Qeq_bool v 0 = true) as ->; [|done].
    apply Qeq_bool_iff. rewrite Hv, Hvol. ring. }
  assert (Hclose : ∃ x, iloc (map close df) (-1) = Ok x).
  { apply iloc_last_ok. rewrite length_map.
    destruct df; [done|simpl; lia]. }
  unfold _compute_vwap_last.
  rewrite (Qle_bool_true (Qsum (map volume df)) 0) by lra.
  split; [done|]. split; [done|]. split; [done|].
  unfold _score_vwap. destruct Hclose as [x ->]. run.
  rewrite Hlast. by run.
Qed.

Lemma vwap_without_volume_witness :
  _score_vwap [mkCandle 10 11 9 10 0 0 0] = Ok 0%Z
  ∧ _compute_vwap_last [mkCandle 10 11 9 10 0 0 0] = Ok 10%Q.
Proof.
  assert (Hne : [mkCandle 10 11 9 10 0 0 0] <> []) by done.
  assert (Hvol : (Qsum (map volume [mkCandle 10 11 9 10 0 0 0]) == 0)%Q)
    by (vm_compute; reflexivity).
  destruct (vwap_without_volume _ Hne Hvol) as (_ & _ & _ & H).
  split; [exact H|]. vm_compute. reflexivity.
Defined.

(** Each row of a rolling window over a series without [NaN]. *)
Lemma rolling_windows_lookup (w : nat) (xs : list Q) (i : nat) :
  (i < length xs)%nat ->
  rolling_windows w (map Some xs) !! i
  = Some (map Some (drop (S i - w) (take (S i) xs))).
Proof.
  intros Hi. unfold rolling_windows.
  rewrite list_lookup_fmap, length_map, lookup_seq_lt by done. simpl.
  change (take (S i) (map Some xs)) with (take (S i) (Some <$> xs)).
  by rewrite <- fmap_take, <- fmap_drop.
Qed.

Lemma length_window (w : nat) (xs : list Q) (i : nat) :
  (i < length xs)%nat ->
  length (drop (S i - w) (take (S i) xs)) = Nat.min w (S i).
Proof. intros Hi. rewrite length_drop, length_take. lia. Qed.

(** [rolling(w, min_periods=1).mean()] row by row. *)
Lemma rolling_mean_1_lookup (w : nat) (xs : list Q) (i : nat) :
  (1 <= w)%nat -> (i < length xs)%nat ->
  ∃ ys, rolling_mean w 1 (map Some xs) = Ok ys
        ∧ length ys = length xs
        ∧ ys !! i
          = Some (Some (Qsum (drop (S i - w) (take (S i) xs))
                        / inject_Z (Z.of_nat (Nat.min w (S i))))%Q).
Proof.
  intros Hw Hi. unfold rolling_mean.
  assert ((w <? 1)%nat = false) as -> by (apply Nat.ltb_ge; lia).
  eexists. split; [done|]. split.
  - by rewrite length_map, length_rolling_windows, length_map.
  - rewrite list_lookup_fmap, rolling_windows_lookup by done. simpl.
    rewrite observations_Some, length_window by done.
    destruct (Nat.min w (S i)) as [|k] eqn:E; [lia|done].
Qed.

(** [rolling(w, min_periods=1).sum()] row by row. *)
Lemma rolling_sum_1_lookup (w : nat) (xs : list Q) (i : nat) :
  (1 <= w)%nat -> (i < length xs)%nat ->
  ∃ ys, rolling_sum w 1 (map Some xs) = Ok ys
        ∧ length ys = length xs
        ∧ ys !! i = Some (Some (Qsum (drop (S i - w) (take (S i) xs)))).
Proof.
  intros Hw Hi. unfold rolling_sum.
  assert ((w <? 1)%nat = false) as -> by (apply Nat.ltb_ge; lia).
  eexists. split; [done|]. split.
  - by rewrite length_map, length_rolling_windows, length_map.
  - rewrite list_lookup_fmap, rolling_windows_lookup by done. simpl.
    rewrite observations_Some, length_window by done.
    destruct (Nat.min w (S i)) as [|k] eqn:E; [lia|done].
Qed.

Lemma iloc_last_lookup {A : Type} (xs : list A) (x : A) :
  (1 <= length xs)%nat -> xs !! (length xs - 1)%nat = Some x ->
  iloc xs (-1) = Ok x.
Proof.
  intros Hn Hx. rewrite iloc_last_eq, last_lookup.
  replace (pred (length xs)) with (length xs - 1)%nat by lia.
  by rewrite Hx.
Qed.

Lemma iloc_nonneg_lookup {A : Type} (xs : list A) (i : Z) (x : A) :
  (0 <= i)%Z -> xs !! Z.to_nat i = Some x -> iloc xs i = Ok x.
Proof.
  intros Hi Hx. unfold iloc, py_index.
  assert (Hneg : (i <? 0)%Z = false) by (apply Z.ltb_ge; lia).
  rewrite Hneg. cbv beta iota zeta. by rewrite Hneg, Hx.
Qed.

(** The vote on a number is its sign. *)
Lemma sign_vote_sign (x : Q) :
  ((0 < x)%Q -> sign_vote (Some x) = 1%Z)
  ∧ ((x < 0)%Q -> sign_vote (Some x) = (-1)%Z)
  ∧ ((x == 0)%Q -> sign_vote (Some x) = 0%Z).
Proof.
  unfold sign_vote, nan_lt. split; [|split]; intros H.
  - by rewrite (proj2 (Qlt_bool_true 0 x) H).
  - rewrite (proj2 (Qlt_bool_false_iff 0 x)) by lra.
    by rewrite (proj2 (Qlt_bool_true x 0) H).
  - rewrite (proj2 (Qlt_bool_false_iff 0 x)) by lra.
    by rewrite (proj2 (Qlt_bool_false_iff x 0)) by lra.
Qed.

(** X21: Condition 1 votes the sign of the mean of the last [OFI_WINDOW]
    order-flow imbalances (of all of them on a shorter window): +1 when
    the mean is positive, -1 when it is negative, 0 when it is zero.  The
    exporter reports that same mean as [ofi] once the window is full, and
    [0.0] before, whatever the vote. *)
Theorem ofi_last_is_voted_mean (cfg : Config) (df : DataFrame) :
  (1 <= OFI_WINDOW cfg)%nat -> (1 <= length df)%nat ->
  let n := length df in
  let w := OFI_WINDOW cfg in
  let mean := (Qsum (drop (n - w) (_compute_ofi df))
               / inject_Z (Z.of_nat (Nat.min w n)))%Q in
  ∃ vote,
    _score_ofi cfg df = Ok vote
    ∧ ((0 < mean)%Q -> vote = 1%Z)
    ∧ ((mean < 0)%Q -> vote = (-1)%Z)
    ∧ ((mean == 0)%Q -> vote = 0%Z)
    ∧ _compute_ofi_last cfg df
      = Ok (Some (if (n <? w)%nat then 0%Q else mean)).
Proof.
  intros Hw Hn n w mean.
  destruct (rolling_mean_1_lookup w (_compute_ofi df) (n - 1) Hw)
    as (ys & Hys & Hlen & Hlast).
  { unfold _compute_ofi. rewrite length_map. fold n. lia. }
  assert (Hl : length (_compute_ofi df) = n)
    by (unfold _compute_ofi; by rewrite length_map).
  replace (S (n - 1)) with n in Hlast by lia.
  rewrite (take_ge (_compute_ofi df) n) in Hlast by lia.
  assert (Hiloc : iloc ys (-1) = Ok (Some mean)).
  { apply iloc_last_lookup; [lia|]. by rewrite Hlen, Hl. }
  exists (sign_vote (Some mean)).
  destruct (sign_vote_sign mean) as (Hpos & Hneg & Hzero).
  split; [|split; [done|split; [done|split; [done|]]]].
  - unfold _score_ofi. fold w. rewrite Hys. run. rewrite Hiloc. by run.
  - unfold _compute_ofi_last. fold w n.
    destruct (n <? w)%nat; [done|].
    change (map (fun c => (taker_buy_volume c - taker_sell_volume c)%Q) df)
      with (_compute_ofi df).
    rewrite Hys. run. exact Hiloc.
Qed.

Lemma ofi_last_is_voted_mean_witness :
  (1 <= OFI_WINDOW defaults)%nat
  ∧ (1 <= length (take 5 (widening_window 9000)))%nat
  ∧ _score_ofi defaults (widening_window 9000) = Ok 1%Z
  ∧ (∃ m, _compute_ofi_last defaults (widening_window 9000) = Ok (Some m)
          ∧ (m == 8000)%Q)
  ∧ _score_ofi defaults (take 5 (widening_window 9000)) = Ok 1%Z
  ∧ (∃ m, _compute_ofi_last defaults (take 5 (widening_window 9000))
          = Ok (Some m) ∧ (m == 0)%Q).
Proof.
  assert (Hw : (1 <= OFI_WINDOW defaults)%nat) by (vm_compute; lia).
  assert (Hn : (1 <= length (widening_window 9000))%nat)
    by (vm_compute; lia).
  assert (Hn5 : (1 <= length (take 5 (widening_window 9000)))%nat)
    by (vm_compute; lia).
  split; [exact Hw|]. split; [exact Hn5|].
  destruct (ofi_last_is_voted_mean defaults (widening_window 9000) Hw Hn)
    as (vote & Hs & Hpos & _ & _ & He).
  destruct (ofi_last_is_voted_mean defaults (take 5 (widening_window 9000))
              Hw Hn5)
    as (vote5 & Hs5 & Hpos5 & _ & _ & He5).
  split; [rewrite Hs, Hpos; [done|vm_compute; reflexivity]|].
  split; [eexists; split; [exact He|vm_compute; reflexivity]|].
  split; [rewrite Hs5, Hpos5; [done|vm_compute; reflexivity]|].
  eexists; split; [exact He5|vm_compute; reflexivity].
Defined.

(** X22: the exported [cvd] is the sum of the last [CVD_WINDOW]
    imbalances, and Condition 2 votes the sign of its change since the row
    [max(1, CVD_WINDOW // 2)] places before the last one (the first row on
    a short window): +1 when the CVD has grown, -1 when it has shrunk, 0
    when it is the same. *)
Theorem cvd_last_is_voted_trend (cfg : Config) (df : DataFrame) :
  (1 <= CVD_WINDOW cfg)%nat -> (2 <= length df)%nat ->
  let n := length df in
  let w := CVD_WINDOW cfg in
  let cvd i := Qsum (drop (S i - w) (take (S i) (_compute_ofi df))) in
  let mid :=
    Z.to_nat (Z.max 0 (Z.of_nat n - Z.max 1 (Z.of_nat w / 2) - 1)) in
  ∃ vote,
    _compute_cvd_last cfg df = Ok (Some (cvd (n - 1)%nat))
    ∧ _score_cvd_trend cfg df = Ok vote
    ∧ ((cvd mid < cvd (n - 1)%nat)%Q -> vote = 1%Z)
    ∧ ((cvd (n - 1)%nat < cvd mid)%Q -> vote = (-1)%Z)
    ∧ ((cvd (n - 1)%nat == cvd mid)%Q -> vote = 0%Z).
Proof.
  intros Hw Hn n w cvd mid.
  assert (Hl : length (_compute_ofi df) = n)
    by (unfold _compute_ofi; by rewrite length_map).
  destruct (rolling_sum_1_lookup w (_compute_ofi df) (n - 1) Hw)
    as (ys & Hys & Hlen & Hlast); [lia|].
  assert (Hmid : (mid < n)%nat) by (unfold mid; lia).
  destruct (rolling_sum_1_lookup w (_compute_ofi df) mid Hw)
    as (ys' & Hys' & _ & Hmidv); [lia|].
  rewrite Hys in Hys'. injection Hys' as <-.
  assert (Hiloc : iloc ys (-1) = Ok (Some (cvd (n - 1)%nat))).
  { apply iloc_last_lookup; [lia|]. by rewrite Hlen, Hl. }
  exists (sign_vote (Some (cvd (n - 1)%nat - cvd mid)%Q)).
  destruct (sign_vote_sign (cvd (n - 1)%nat - cvd mid)%Q)
    as (Hpos & Hneg & Hzero).
  split; [|split; [|split; [|split]]].
  - unfold _compute_cvd_last. fold n w.
    assert ((n <? 2)%nat = false) as -> by (apply Nat.ltb_ge; lia).
    change (map (fun c => (taker_buy_volume c - taker_sell_volume c)%Q) df)
      with (_compute_ofi df).
    rewrite Hys. run. exact Hiloc.
  - unfold _score_cvd_trend. fold w. rewrite Hys. run.
    assert ((length ys <? 2)%nat = false) as ->
      by (apply Nat.ltb_ge; lia).
    rewrite Hiloc. run.
    rewrite (iloc_nonneg_lookup ys _ (Some (cvd mid))); [by run|lia|].
    rewrite Hlen, Hl. exact Hmidv.
  - intros H. apply Hpos. lra.
  - intros H. apply Hneg. lra.
  - intros H. apply Hzero. lra.
Qed.

Lemma cvd_last_is_voted_trend_witness :
  (1 <= CVD_WINDOW defaults)%nat
  ∧ (2 <= length rising_window)%nat
  ∧ (∃ c, _compute_cvd_last defaults rising_window = Ok (Some c)
          ∧ (c == 1180)%Q)
  ∧ _score_cvd_trend defaults rising_window = Ok 1%Z.
Proof.
  assert (Hw : (1 <= CVD_WINDOW defaults)%nat) by (vm_compute; lia).
  assert (Hn : (2 <= length rising_window)%nat) by (vm_compute; lia).
  split; [exact Hw|]. split; [exact Hn|].
  destruct (cvd_last_is_voted_trend defaults rising_window Hw Hn)
    as (vote & Hc & Hs & Hpos & _ & _).
  split; [eexists; split; [exact Hc|vm_compute; reflexivity]|].
  rewrite Hs, Hpos; [done|vm_compute; reflexivity].
Defined.

End Metrics.

(** ** The signal payload *)

Section Payload.

Lemma round_half_even_integer (y : Q) (k : Z) :
  (y == inject_Z k)%Q -> round_half_even y = k.
Proof.
  intros Hy. unfold round_half_even.
  assert (Hf : Qfloor y = k) by (rewrite Hy; apply Qfloor_Z).
  rewrite Hf.
  assert (Hlt : (y - inject_Z k < 1 # 2)%Q) by (rewrite Hy; lra).
  destruct (Qlt_alt (y - inject_Z k) (1 # 2)) as [Ha _].
  by rewrite (Ha Hlt).
Qed.

(** Rounding to [n] digits a second time changes nothing. *)
Lemma py_round_idempotent (x : Q) (n : nat) :
  py_round (py_round x n) n = py_round x n.
Proof.
  unfold py_round.
  assert (Hp : (0 < inject_Z (10 ^ Z.of_nat n))%Q).
  { change 0%Q with (inject_Z 0). rewrite <- Zlt_Qlt.
    apply Z.pow_pos_nonneg; lia. }
  rewrite (round_half_even_integer _
             (round_half_even (x * inject_Z (10 ^ Z.of_nat n)))); [done|].
  field. lra.
Qed.

(** X23: the signal built from the levels [calculate_risk_params] returns
    carries exactly those levels and that reward:risk ratio (their second
    rounding, to 8 and to 3 digits, changes nothing), the direction the
    calculator was asked for, and the LONG emoji exactly for a LONG. *)
Theorem payload_keeps_risk_levels (cfg : Config) (df : DataFrame)
    (dir : string) (mult : Q) (rp : RiskParams)
    (names : gmap string string) (now sym : string) (score : Z) :
  calculate_risk_params cfg (Some df) dir mult = Ok (Some rp) ->
  let s := notifier.signal
             (notifier.build_signal_payload names now sym dir
                (Entry rp) (TP rp) (SL rp) (RR rp) score) in
  notifier.entry_price s = Entry rp
  ∧ notifier.take_profit s = TP rp
  ∧ notifier.stop_loss s = SL rp
  ∧ notifier.risk_reward s = RR rp
  ∧ notifier.direction s = dir
  ∧ (notifier.emoji s = "🟢 LONG" <-> dir = "LONG").
Proof.
  intros H.
  apply calculate_risk_params_geometry in H
    as (entry & sl & tp & _ & Hdir & -> & -> & -> & -> & _).
  cbn [notifier.signal notifier.build_signal_payload notifier.entry_price
       notifier.take_profit notifier.stop_loss notifier.risk_reward
       notifier.direction notifier.emoji nan_round].
  rewrite !py_round_idempotent.
  do 4 (split; [done|]).
  destruct Hdir as [(-> & _)|(-> & _)]; (split; [done|]); split; done.
Qed.

Lemma payload_keeps_risk_levels_witness :
  ∃ rp e,
    calculate_risk_params five_bins (Some five_bin_window) "LONG" 1.5
    = Ok (Some rp)
    ∧ Entry rp = Some e ∧ (e == 16)%Q
    ∧ notifier.entry_price
        (notifier.signal
           (notifier.build_signal_payload ∅ "" btc "LONG"
              (Entry rp) (TP rp) (SL rp) (RR rp) 4)) = Some e
    ∧ notifier.emoji
        (notifier.signal
           (notifier.build_signal_payload ∅ "" btc "LONG"
              (Entry rp) (TP rp) (SL rp) (RR rp) 4)) = "🟢 LONG".
Proof.
  assert (H : ∃ rp e,
             calculate_risk_params five_bins (Some five_bin_window)
               "LONG" 1.5 = Ok (Some rp)
             ∧ Entry rp = Some e ∧ (e == 16)%Q).
  { eexists _, _. split; [vm_compute; reflexivity|].
    split; [reflexivity|vm_compute; reflexivity]. }
  destruct H as (rp & e & H & He & Hv). exists rp, e.
  split; [exact H|]. split; [exact He|]. split; [exact Hv|].
  destruct (payload_keeps_risk_levels five_bins five_bin_window "LONG" 1.5
              rp ∅ "" btc 4 H) as (HE & _ & _ & _ & _ & Hemoji).
  split; [by rewrite HE|by apply Hemoji].
Defined.

End Payload.

(** ** The pipeline *)

Section Pipeline.

Import main_live.

(** X24: [_process_pair] as written never gets past its call of Gate 2.
    Without a frame it logs the failed fetch and returns; with one, the
    call [gate_anti_wash_trading(df, symbol)] hands two arguments to a
    function of one and raises [TypeError], which the handler of the
    pipeline logs (only the percentage of the OHLCV log line can fail
    earlier, on a zero divisor).  Whatever the frame, the book, the
    thresholds and the registry, no position is updated or locked, no
    metric is exported and no signal is sent. *)
Theorem process_pair_stops_at_gate_2 (cfg : Config)
    (SCORE_LONG_THRESHOLD SCORE_SHORT_THRESHOLD : Z) (io : Io)
    (sym : string) (df : option DataFrame) (orderbook : option OrderBook)
    (sm : StateManager) :
  let run := _process_pair cfg SCORE_LONG_THRESHOLD SCORE_SHORT_THRESHOLD
               io sym df orderbook sm in
  run.1 = sm
  ∧ (run.2 = [LogFetchFailed]
     ∨ run.2 = [LogUnhandled (Builtin ZeroDivisionError)]
     ∨ ∃ rows last_close last_vol pct,
         run.2 = [LogOhlcv rows last_close last_vol pct;
                  LogUnhandled TypeError]).
Proof.
  unfold _process_pair. destruct df as [df|]; [|by split; [|left]].
  destruct (length df =? 0)%nat eqn:En; [by split; [|left]|].
  apply Nat.eqb_neq in En.
  destruct (iloc_last_ok (map volume df)) as [v ->];
    [rewrite length_map; lia|].
  destruct (iloc_last_ok (map close df)) as [c ->];
    [rewrite length_map; lia|].
  destruct (iloc_last_ok (map taker_buy_volume df)) as [tb ->];
    [rewrite length_map; lia|].
  run. unfold py_div.
  destruct (Qeq_bool (v + 1e-12) 0); run.
  - split; [done|]. right. by left.
  - split; [done|]. right. right. by eexists _, _, _, _.
Qed.

End Pipeline.

(** ** The swing window of the risk calculator *)

Section Swing.

Lemma iloc_slice_tail {A : Type} (xs : list A) (k : nat) :
  iloc_slice xs (- Z.of_nat k) None
  = if (k =? 0)%nat then xs else drop (length xs - k) xs.
Proof.
  unfold iloc_slice, py_bound, py_index.
  destruct k as [|k].
  - change (- Z.of_nat 0)%Z with 0%Z. change (0 <? 0)%Z with false.
    cbv iota. rewrite Z.max_id, Z.min_l by lia.
    change (Z.to_nat 0) with 0%nat. rewrite Nat.sub_0_r, drop_0.
    by rewrite firstn_all.
  - assert ((- Z.of_nat (S k) <? 0)%Z = true) as -> by (apply Z.ltb_lt; lia).
    cbv iota. change (S k =? 0)%nat with false. cbv iota.
    replace (Z.to_nat (Z.min (Z.max 0 (Z.of_nat (length xs)
                                       + - Z.of_nat (S k)))
                             (Z.of_nat (length xs))))
      with (length xs - S k)%nat by lia.
    apply take_ge. rewrite length_drop. lia.
Qed.

Lemma last_drop_lt {A : Type} (xs : list A) (k : nat) :
  (k < length xs)%nat -> last (drop k xs) = last xs.
Proof.
  intros Hk. rewrite !last_lookup, lookup_drop, length_drop. f_equal. lia.
Qed.

(** X25: [_get_swing_extremes] scans the last [lookback] rows of the
    window, and all of them when the window is shorter; a [lookback] of 0
    does not scan an empty tail but the whole window, [df.iloc[-0:]]
    being [df.iloc[0:]].  On a window with a row the last candle is always
    among the rows scanned: the swing high is at least its high and the
    swing low at most its low. *)
Theorem swing_extremes_window (df : DataFrame) (lookback : nat) :
  let window :=
    if (lookback =? 0)%nat then df else drop (length df - lookback) df in
  _get_swing_extremes df lookback
  = (col_max (map high window), col_min (map low window))
  ∧ (df <> [] ->
     ∃ last swing_high swing_low,
       iloc df (-1) = Ok last
       ∧ _get_swing_extremes df lookback = (Some swing_high, Some swing_low)
       ∧ (high last <= swing_high)%Q ∧ (swing_low <= low last)%Q).
Proof.
  intros window. unfold _get_swing_extremes.
  assert (Hw : iloc_slice df (- Z.of_nat lookback) None = window)
    by apply iloc_slice_tail.
  rewrite Hw. split; [done|]. intros Hne.
  assert (Hn : (1 <= length df)%nat) by (destruct df; [done|simpl; lia]).
  assert (Hlast : last window = last df).
  { unfold window. destruct (lookback =? 0)%nat eqn:E; [done|].
    apply Nat.eqb_neq in E. apply last_drop_lt. lia. }
  clear Hw. clearbody window.
  destruct (last df) as [c|] eqn:El;
    [|apply last_None in El; congruence].
  assert (Hc : In c window).
  { apply list_elem_of_In. by apply last_Some_elem_of. }
  destruct (col_max_is_Some (map high window)) as [sh Hsh].
  { rewrite length_map. destruct window; [destruct Hc|simpl; lia]. }
  destruct (col_min_is_Some (map low window)) as [sl Hsl].
  { rewrite length_map. destruct window; [destruct Hc|simpl; lia]. }
  exists c, sh, sl. rewrite iloc_last_eq, El, Hsh, Hsl.
  split; [done|]. split; [done|]. split.
  - apply (col_max_upper (map high window)); [done|]. by apply in_map.
  - apply (col_min_lower (map low window)); [done|]. by apply in_map.
Qed.

Lemma swing_extremes_window_witness :
  two_row_window <> []
  ∧ _get_swing_extremes two_row_window 0 = (Some 30%Q, Some 0%Q).
Proof.
  assert (Hne : two_row_window <> []) by done.
  split; [exact Hne|].
  destruct (proj2 (swing_extremes_window two_row_window 0) Hne)
    as (c & sh & sl & _ & H & _).
  rewrite H. vm_compute in H. by symmetry.
Defined.

End Swing.
